(** * The virtual descriptor table of the ssh client: [file_system.cc]

    A shallow embedding of [FileSystem] (chromeapps/ssh_client/src/file_system.cc)
    and the properties of its descriptor table, readiness multiplexer and
    host address table.

    Conventions of the embedding.
    - [int] and the descriptor keys of the [streams_] map are [Z].
      Signed overflow is undefined in C++; the one place where a descriptor is
      incremented stays within the table size ([GetFirstUnusedDescriptor_bound]).
    - [unsigned long] is the 32-bit type of the Native Client ILP32 target,
      with its wrap-around written out ([wrap32]).
    - A stream pointer is [NULL], the sentinel [kBadFileStream] (the value -1) or the
      identity of a live object.  Methods of collaborators that are not part
      of this file (streams, path handlers, the TCP socket, libc) are fields
      of the class [Backend]; every call through a stream pointer that can
      change the stream is logged, readiness queries are pure.
    - Every public entry point runs under [mutex_]; one call is one atomic
      state transition.  Only [select] releases the lock (in [cond_.wait]);
      what other threads did meanwhile is an input of [select]. *)

From stdpp Require Import base gmap strings list sorting.
From Stdlib Require Import ZArith Lia.

Local Open Scope Z_scope.

(** ** Pointers, events and the state *)

Definition StreamId := positive.
Definition HandlerId := positive.

(** A pointer to a [FileStream]: null, the sentinel (the value -1 cast to a
    pointer), or an object. *)
Inductive FileStreamPtr :=
  | NULL
  | kBadFileStream
  | Ptr (s : StreamId).

#[global] Instance FileStreamPtr_eq_dec : EqDecision FileStreamPtr.
Proof. solve_decision. Defined.

(** Methods of [FileStream] that [FileSystem] invokes. *)
Inductive Method :=
  | MClose
  | MRelease
  | MDup (newfd : Z)
  | MRead (count : Z)
  | MWrite (count : Z)
  | MSeek (offset whence : Z)
  | MFstat
  | MGetdents (count : Z)
  | MIsatty
  | MFcntl (cmd : Z)
  | MIoctl (request : Z)
  | MConnect (host : string) (port : Z).

#[global] Instance Method_eq_dec : EqDecision Method.
Proof. solve_decision. Defined.

Inductive Event :=
  | EvCall (s : StreamId) (m : Method)
  | EvHandlerOpen (h : HandlerId) (fd : Z) (path : string) (oflag : Z)
  | EvNewTCPSocket (fd : Z) (s : StreamId).

#[global] Instance Event_eq_dec : EqDecision Event.
Proof. solve_decision. Defined.

(** The members of [FileSystem] the operations below read or write, the
    thread's [errno], and the log of calls made on collaborators.  A handler
    pointer of [paths_] may be null ([stat] tests for it, [open] does not). *)
Record FileSystem := mkFileSystem {
  paths_ : gmap string (option HandlerId);
  streams_ : gmap Z FileStreamPtr;
  hosts_ : gmap string Z;
  addrs_ : gmap Z string;
  first_unused_addr_ : Z;
  errno : Z;
  calls : list Event
}.

Definition set_paths (f : gmap string (option HandlerId) → gmap string (option HandlerId))
    (fs : FileSystem) : FileSystem :=
  mkFileSystem (f (paths_ fs)) (streams_ fs) (hosts_ fs) (addrs_ fs)
               (first_unused_addr_ fs) (errno fs) (calls fs).

Definition set_streams (f : gmap Z FileStreamPtr → gmap Z FileStreamPtr)
    (fs : FileSystem) : FileSystem :=
  mkFileSystem (paths_ fs) (f (streams_ fs)) (hosts_ fs) (addrs_ fs)
               (first_unused_addr_ fs) (errno fs) (calls fs).

Definition set_hosts (f : gmap string Z → gmap string Z) (fs : FileSystem) : FileSystem :=
  mkFileSystem (paths_ fs) (streams_ fs) (f (hosts_ fs)) (addrs_ fs)
               (first_unused_addr_ fs) (errno fs) (calls fs).

Definition set_addrs (f : gmap Z string → gmap Z string) (fs : FileSystem) : FileSystem :=
  mkFileSystem (paths_ fs) (streams_ fs) (hosts_ fs) (f (addrs_ fs))
               (first_unused_addr_ fs) (errno fs) (calls fs).

Definition set_first_unused_addr (a : Z) (fs : FileSystem) : FileSystem :=
  mkFileSystem (paths_ fs) (streams_ fs) (hosts_ fs) (addrs_ fs) a (errno fs) (calls fs).

Definition set_errno (e : Z) (fs : FileSystem) : FileSystem :=
  mkFileSystem (paths_ fs) (streams_ fs) (hosts_ fs) (addrs_ fs)
               (first_unused_addr_ fs) e (calls fs).

Definition log (ev : Event) (fs : FileSystem) : FileSystem :=
  mkFileSystem (paths_ fs) (streams_ fs) (hosts_ fs) (addrs_ fs)
               (first_unused_addr_ fs) (errno fs) (calls fs ++ [ev]).

(** ** A state monad with crashes

    A call either returns a value and the next state, or stops: a method
    called through a null or [-1] pointer, a failed [assert] in a build that
    checks them, or a loop that did not end within its fuel. *)

Inductive Fault := NullDeref | BadDeref | AssertFailed | OutOfFuel.

#[global] Instance Fault_eq_dec : EqDecision Fault.
Proof. solve_decision. Defined.

Inductive Result (A : Type) :=
  | Ok (a : A) (fs : FileSystem)
  | Crash (f : Fault) (fs : FileSystem).
Arguments Ok {A} a fs.
Arguments Crash {A} f fs.

Definition M (A : Type) : Type := FileSystem → Result A.

#[global] Instance M_ret : MRet M := λ A a fs, Ok a fs.
#[global] Instance M_bind : MBind M := λ A B k m fs,
  match m fs with
  | Ok a fs' => k a fs'
  | Crash f fs' => Crash f fs'
  end.

Definition crash {A} (f : Fault) : M A := λ fs, Crash f fs.
Definition gets {A} (f : FileSystem → A) : M A := λ fs, Ok (f fs) fs.
Definition modify (f : FileSystem → FileSystem) : M unit := λ fs, Ok tt (f fs).

(** The state a call ends in, whether it returned or crashed. *)
Definition final_state {A} (r : Result A) : FileSystem :=
  match r with Ok _ fs => fs | Crash _ fs => fs end.

(** ** What the file takes from elsewhere *)

(** Constants of [file_system.h] and of the system headers, and the build
    mode ([NDEBUG] turns [assert] into a no-op). *)
Class Platform := {
  kFileIDOffset : Z;
  kFirstAddr : Z;
  NDEBUG : bool;
  ENOENT : Z;
  EACCES : Z;
  EBADF : Z;
  ECONNREFUSED : Z;
  ETIMEDOUT : Z
}.

(** The collaborators: path handlers, streams, the TCP socket, libc. *)
Class Backend := {
  (** [PathHandler::open(fd, pathname, oflag)]; [None] is a null result *)
  handler_open : HandlerId → Z → string → Z → option StreamId;
  (** [FileStream::dup(fd)]; [None] is a null result *)
  stream_dup : StreamId → Z → option StreamId;
  (** the [int] a stream method returns *)
  stream_ret : StreamId → Method → Z;
  (** [new TCPSocket(fd, O_RDWR)] *)
  new_TCPSocket : Z → StreamId;
  (** [TCPSocket::connect(host, port)] *)
  tcp_connect : StreamId → string → Z → bool;
  (** libc's [inet_ntoa] *)
  inet_ntoa : Z → string;
  (** the objects the constructor creates *)
  new_JsFile : Z → StreamId;
  DevNullHandler : HandlerId;
  DevTtyHandler : HandlerId;
  DevRandomHandler : HandlerId;
  JsFileHandler : HandlerId;
  irt_random_available : bool
}.

Section file_system.
Context `{P : Platform} `{B : Backend}.

Definition assert (b : bool) : M unit :=
  if b || NDEBUG then mret tt else crash AssertFailed.

(** ** Private helpers of [FileSystem] *)

Definition IsKnowDescriptor (fd : Z) : M bool :=
  gets (λ fs, bool_decide (is_Some (streams_ fs !! fd))).

Definition GetStream (fd : Z) : M FileStreamPtr :=
  gets (λ fs, default NULL (streams_ fs !! fd)).

Definition is_null (p : FileStreamPtr) : bool :=
  match p with NULL => true | _ => false end.

Definition AddPathHandler (path : string) (handler : option HandlerId) : M unit :=
  absent ← gets (λ fs, bool_decide (paths_ fs !! path = None));
  assert absent;;
  modify (set_paths <[path := handler]>).

Definition AddFileStream (fd : Z) (stream : FileStreamPtr) : M unit :=
  free ← gets (λ fs, match streams_ fs !! fd with
                     | None => true
                     | Some p => is_null p
                     end);
  assert free;;
  modify (set_streams <[fd := stream]>).

Definition RemoveFileStream (fd : Z) : M unit :=
  known ← gets (λ fs, bool_decide (is_Some (streams_ fs !! fd)));
  assert known;;
  modify (set_streams (delete fd)).

(** [while (IsKnowDescriptor(fd)) fd++;] as a loop over the table. *)
Fixpoint first_unused_from (fuel : nat) (streams : gmap Z FileStreamPtr) (fd : Z) : option Z :=
  match fuel with
  | O => None
  | S fuel' =>
      if bool_decide (is_Some (streams !! fd))
      then first_unused_from fuel' streams (fd + 1)
      else Some fd
  end.

(** The table is finite: one more iteration than it has entries is enough
    ([first_unused_from_total]). *)
Definition GetFirstUnusedDescriptor : M Z := λ fs,
  match first_unused_from (S (size (streams_ fs))) (streams_ fs) kFileIDOffset with
  | Some fd => Ok fd fs
  | None => Crash OutOfFuel fs
  end.

(** A call through a stream pointer. *)
Definition call (p : FileStreamPtr) (m : Method) : M Z :=
  match p with
  | NULL => crash NullDeref
  | kBadFileStream => crash BadDeref
  | Ptr s => modify (log (EvCall s m));; mret (stream_ret s m)
  end.

Definition call_dup (p : FileStreamPtr) (newfd : Z) : M FileStreamPtr :=
  match p with
  | NULL => crash NullDeref
  | kBadFileStream => crash BadDeref
  | Ptr s =>
      modify (log (EvCall s (MDup newfd)));;
      mret (from_option Ptr NULL (stream_dup s newfd))
  end.

(** [stream && stream != kBadFileStream] *)
Definition is_real (p : FileStreamPtr) : bool :=
  match p with Ptr _ => true | _ => false end.

(** ** Public entry points *)

(** [open(pathname, oflag, cmode, newfd)]: the return code and the
    value written through [newfd], if any. *)
Definition open (pathname : string) (oflag : Z) : M (Z * option Z) :=
  it ← gets (λ fs, paths_ fs !! pathname);
  match it with
  | None => mret (ENOENT, None)
  | Some handler =>
      fd ← GetFirstUnusedDescriptor;
      AddFileStream fd NULL;;
      stream ← match handler with
               | None => crash NullDeref
               | Some h =>
                   modify (log (EvHandlerOpen h fd pathname oflag));;
                   mret (from_option Ptr NULL (handler_open h fd pathname oflag))
               end;
      if is_null stream then
        RemoveFileStream fd;;
        mret (EACCES, None)
      else
        AddFileStream fd stream;;
        mret (0, Some fd)
  end.

Definition close (fd : Z) : M Z :=
  known ← IsKnowDescriptor fd;
  if negb known then mret EBADF
  else
    stream ← GetStream fd;
    (if is_real stream then
       call stream MClose;;
       call stream MRelease;;
       mret tt
     else mret tt);;
    RemoveFileStream fd;;
    mret 0.

Definition read (fd : Z) (count : Z) : M Z :=
  stream ← GetStream fd;
  if is_real stream then call stream (MRead count) else mret EBADF.

Definition write (fd : Z) (count : Z) : M Z :=
  stream ← GetStream fd;
  if is_real stream then call stream (MWrite count) else mret EBADF.

Definition seek (fd : Z) (offset whence : Z) : M Z :=
  stream ← GetStream fd;
  if is_real stream then call stream (MSeek offset whence) else mret EBADF.

(** [dup(fd, newfd)]: the return code and the value written through [newfd]. *)
Definition dup (fd : Z) : M (Z * option Z) :=
  stream ← GetStream fd;
  if negb (is_real stream) then mret (EBADF, None)
  else
    newfd ← GetFirstUnusedDescriptor;
    AddFileStream newfd NULL;;
    new_stream ← call_dup stream newfd;
    if is_null new_stream then
      RemoveFileStream newfd;;
      mret (EACCES, Some newfd)
    else
      AddFileStream newfd new_stream;;
      mret (0, Some newfd).

Definition dup2 (fd newfd : Z) : M Z :=
  stream ← GetStream fd;
  if negb (is_real stream) then mret EBADF
  else
    new_stream ← GetStream newfd;
    if bool_decide (stream = kBadFileStream) then mret EBADF
    else
      (if is_null new_stream then
         call new_stream MClose;;
         call new_stream MRelease;;
         RemoveFileStream newfd
       else mret tt);;
      AddFileStream newfd NULL;;
      new_stream ← call_dup stream newfd;
      if is_null new_stream then mret EACCES
      else
        AddFileStream newfd new_stream;;
        mret 0.

Definition fstat (fd : Z) : M Z :=
  stream ← GetStream fd;
  if is_real stream then call stream MFstat else mret EBADF.

Definition getdents (fd : Z) (count : Z) : M Z :=
  stream ← GetStream fd;
  if is_real stream then call stream (MGetdents count) else mret EBADF.

Definition isatty (fd : Z) : M Z :=
  stream ← GetStream fd;
  if is_real stream then call stream MIsatty
  else modify (set_errno EBADF);; mret 0.

Definition fcntl (fd : Z) (cmd : Z) : M Z :=
  stream ← GetStream fd;
  if is_real stream then call stream (MFcntl cmd)
  else modify (set_errno EBADF);; mret (-1).

Definition ioctl (fd : Z) (request : Z) : M Z :=
  stream ← GetStream fd;
  if is_real stream then call stream (MIoctl request)
  else modify (set_errno EBADF);; mret (-1).

(** ** The readiness multiplexer *)

(** What the three readiness predicates of the streams answer while the lock
    is held. *)
Record World := mkWorld {
  is_read_ready : StreamId → bool;
  is_write_ready : StreamId → bool;
  is_exception : StreamId → bool
}.

(** An [fd_set] is a bit mask: [FD_ISSET(i, fds)] is [Z.testbit fds i] and
    [FD_CLR(i, fds)] is [Z.clearbit fds i].  The mask has no fixed width: the
    bound [FD_SETSIZE] of the array behind it is not modelled. *)
Definition fd_set := Z.

(** The body of [for (int i = 0; i < nfds; i++)] in [IsReady], with [n]
    iterations left; the result is the return value and the set. *)
Fixpoint IsReady_loop (is_ready : StreamId → bool) (apply : bool)
    (n : nat) (i : Z) (fds : fd_set) (nset : Z) : M (Z * fd_set) :=
  match n with
  | O => mret (nset, fds)
  | S n' =>
      if Z.testbit fds i then
        stream ← GetStream i;
        match stream with
        | NULL => mret (-1, fds)
        | kBadFileStream => crash BadDeref
        | Ptr s =>
            if is_ready s then
              if negb apply then mret (1, fds)
              else IsReady_loop is_ready apply n' (i + 1) fds (nset + 1)
            else
              IsReady_loop is_ready apply n' (i + 1)
                (if apply then Z.clearbit fds i else fds) nset
        end
      else IsReady_loop is_ready apply n' (i + 1) fds nset
  end.

(** [fds] is a pointer: [None] is the null pointer. *)
Definition IsReady (nfds : Z) (fds : option fd_set) (is_ready : StreamId → bool)
    (apply : bool) : M (Z * option fd_set) :=
  match fds with
  | None => mret (0, None)
  | Some s =>
      '(r, s') ← IsReady_loop is_ready apply (Z.to_nat nfds) 0 s 0;
      mret (r, Some s')
  end.

(** One return of [cond_.wait] or [cond_.timedwait]: whether the wait
    reported an error (and the [errno] it left), and what the other threads
    made of the table and of the streams while the lock was released. *)
Record Wake := mkWake {
  wait_errno : option Z;
  wake_streams : gmap Z FileStreamPtr;
  wake_world : World
}.

Inductive SelectResult :=
  | Returned (ret : Z) (readfds writefds exceptfds : option fd_set)
  | Blocked.

(** The condition of the [while]: the three calls with [apply = false],
    joined by [||]. *)
Definition any_ready (w : World) (nfds : Z) (readfds writefds exceptfds : option fd_set)
    : M bool :=
  '(a, _) ← IsReady nfds readfds (is_read_ready w) false;
  if negb (a =? 0) then mret true
  else
    '(b, _) ← IsReady nfds writefds (is_write_ready w) false;
    if negb (b =? 0) then mret true
    else
      '(c, _) ← IsReady nfds exceptfds (is_exception w) false;
      mret (negb (c =? 0)).

(** The code after the loop. *)
Definition select_apply (w : World) (nfds : Z) (readfds writefds exceptfds : option fd_set)
    : M SelectResult :=
  '(nread, readfds') ← IsReady nfds readfds (is_read_ready w) true;
  '(nwrite, writefds') ← IsReady nfds writefds (is_write_ready w) true;
  '(nexcpt, exceptfds') ← IsReady nfds exceptfds (is_exception w) true;
  if (nread <? 0) || (nwrite <? 0) || (nexcpt <? 0) then
    modify (set_errno EBADF);;
    mret (Returned (-1) readfds' writefds' exceptfds')
  else mret (Returned (nread + nwrite + nexcpt) readfds' writefds' exceptfds').

(** The loop of [select], by recursion on the wake-ups still to come; with
    none left the caller is still suspended.  A wait that reports an error
    leaves its [errno] behind under either kind of wait; only after
    [cond_.timedwait] does the code look at it, the result of [cond_.wait]
    being dropped. *)
Fixpoint select_wait (wakes : list Wake) (w : World) (nfds : Z)
    (readfds writefds exceptfds : option fd_set) (timeout : option (Z * Z))
    : M SelectResult :=
  ready ← any_ready w nfds readfds writefds exceptfds;
  if (ready : bool) then select_apply w nfds readfds writefds exceptfds
  else
    match wakes with
    | [] => mret Blocked
    | wk :: wakes' =>
        modify (set_streams (λ _, wake_streams wk));;
        match timeout, wait_errno wk with
        | Some _, Some e =>
            modify (set_errno e);;
            if e =? ETIMEDOUT
            then select_apply (wake_world wk) nfds readfds writefds exceptfds
            else mret (Returned (-1) readfds writefds exceptfds)
        | None, Some e =>
            modify (set_errno e);;
            select_wait wakes' (wake_world wk) nfds readfds writefds exceptfds timeout
        | _, None =>
            select_wait wakes' (wake_world wk) nfds readfds writefds exceptfds timeout
        end
    end.

Definition select (w : World) (wakes : list Wake) (nfds : Z)
    (readfds writefds exceptfds : option fd_set) (timeout : option (Z * Z))
    : M SelectResult :=
  select_wait wakes w nfds readfds writefds exceptfds timeout.

(** ** The host address table *)

Definition wrap32 (x : Z) : Z := x mod 2 ^ 32.

(** An unsigned 32-bit value converted to [int]. *)
Definition to_int (x : Z) : Z := if x <? 2 ^ 31 then x else x - 2 ^ 32.

(** libc's [htonl] on the little-endian targets of Native Client: the four
    bytes of the 32-bit argument in reverse order. *)
Definition htonl (x : Z) : Z :=
  let x := wrap32 x in
  (x mod 256) * 2 ^ 24 + (x / 2 ^ 8 mod 256) * 2 ^ 16
  + (x / 2 ^ 16 mod 256) * 2 ^ 8 + (x / 2 ^ 24 mod 256).

Definition AddHostAddress (name : string) (addr : Z) : M unit :=
  let addr := htonl addr in
  modify (set_hosts <[name := addr]>);;
  modify (set_addrs <[addr := name]>).

Definition gethostbyname (name : string) : M Z :=
  it ← gets (λ fs, hosts_ fs !! name);
  match it with
  | Some a => mret a
  | None =>
      c ← gets first_unused_addr_;
      modify (set_first_unused_addr (wrap32 (c + 1)));;
      let addr := to_int (htonl c) in
      modify (set_hosts <[name := wrap32 addr]>);;
      modify (set_addrs <[wrap32 addr := name]>);;
      mret (wrap32 addr)
  end.

(** ** Sockets *)

Definition socket (socket_family socket_type protocol : Z) : M Z :=
  fd ← GetFirstUnusedDescriptor;
  AddFileStream fd NULL;;
  mret fd.

Definition connect (fd : Z) (addr : Z) (port : Z) : M Z :=
  known ← gets (λ fs, bool_decide (is_Some (streams_ fs !! fd)));
  if negb known then
    modify (set_errno EBADF);;
    mret (-1)
  else
    it ← gets (λ fs, addrs_ fs !! addr);
    let host := match it with
                | Some name => name
                | None => inet_ntoa (wrap32 addr)
                end in
    let socket := new_TCPSocket fd in
    modify (log (EvNewTCPSocket fd socket));;
    modify (log (EvCall socket (MConnect host port)));;
    if negb (tcp_connect socket host port) then
      modify (set_errno ECONNREFUSED);;
      call (Ptr socket) MRelease;;
      mret (-1)
    else
      AddFileStream fd (Ptr socket);;
      mret 0.

(** ** The constructor

    The part of [FileSystem::FileSystem] that fills the three tables. *)

Definition empty_fs : FileSystem :=
  mkFileSystem ∅ ∅ ∅ ∅ kFirstAddr 0 [].

Definition construct : M unit :=
  AddFileStream 0 (Ptr (new_JsFile 0));;
  AddFileStream 1 (Ptr (new_JsFile 1));;
  AddFileStream 2 (Ptr (new_JsFile 2));;
  AddPathHandler "/dev/null" (Some DevNullHandler);;
  AddPathHandler "/dev/tty" (Some DevTtyHandler);;
  (if irt_random_available
   then AddPathHandler "/dev/random" (Some DevRandomHandler)
   else AddPathHandler "/dev/random" (Some JsFileHandler));;
  AddHostAddress "localhost" 0x7F000001.

Definition initial_fs : FileSystem := final_state (construct empty_fs).

End file_system.

(** ** A concrete platform and concrete collaborators

    Sample values for the constants that live outside this file, used to run
    the model: descriptors start at 100, synthetic addresses at 0, [errno]
    values as in newlib.  The sample handlers: [/dev/null] always opens,
    [/dev/tty] always declines. *)

Definition sample_platform (ndebug : bool) : Platform := {|
  kFileIDOffset := 100;
  kFirstAddr := 0;
  NDEBUG := ndebug;
  ENOENT := 2;
  EACCES := 13;
  EBADF := 9;
  ECONNREFUSED := 111;
  ETIMEDOUT := 116
|}.

Definition sample_backend (connects : bool) : Backend := {|
  handler_open := λ h fd _ _, if (h =? 1)%positive then Some (Z.to_pos (1000 + fd)) else None;
  stream_dup := λ s fd, Some (Z.to_pos (2000 + fd));
  stream_ret := λ _ _, 0;
  new_TCPSocket := λ fd, Z.to_pos (3000 + fd);
  tcp_connect := λ _ _ _, connects;
  inet_ntoa := λ _, "0.0.0.0"%string;
  new_JsFile := λ fd, Z.to_pos (10 + fd);
  DevNullHandler := 1%positive;
  DevTtyHandler := 2%positive;
  DevRandomHandler := 3%positive;
  JsFileHandler := 4%positive;
  irt_random_available := true
|}.

Definition sample_fs : FileSystem :=
  initial_fs (P := sample_platform false) (B := sample_backend true).

(** The state after [socket()] on the freshly constructed table. *)
Definition sample_socket_fs : FileSystem :=
  final_state (socket (P := sample_platform false) 2 1 0 sample_fs).

(** Sample worlds: one where only stream 10 (the standard input) can be read,
    one where nothing is ready; and the wake-up when a deadline passes in the
    latter. *)
Definition sample_world : World :=
  mkWorld (λ s, (s =? 10)%positive) (λ _, false) (λ _, false).

Definition idle_world : World :=
  mkWorld (λ _, false) (λ _, false) (λ _, false).

Definition sample_timeout : Wake :=
  mkWake (Some 116) (streams_ sample_fs) idle_world.

(** The state after [open("/dev/null", O_WRONLY)] on the constructed table:
    descriptor 100 is bound to stream 1100. *)
Definition sample_devnull_fs : FileSystem :=
  final_state (open (P := sample_platform false) (B := sample_backend true)
                 "/dev/null" 1 sample_fs).

(** ** Running a call several times *)

Fixpoint replay {A} (n : nat) (m : M A) : M (list A) :=
  match n with
  | O => mret []
  | S n' => a ← m; l ← replay n' m; mret (a :: l)
  end.

(** ** Sequences of calls *)

(** The calls a client can make on the table; [select], which lets other
    threads run, is treated apart. *)
Inductive Call :=
  | Copen (pathname : string) (oflag : Z)
  | Cclose (fd : Z)
  | Cread (fd count : Z)
  | Cwrite (fd count : Z)
  | Cseek (fd offset whence : Z)
  | Cdup (fd : Z)
  | Cdup2 (fd newfd : Z)
  | Cfstat (fd : Z)
  | Cgetdents (fd count : Z)
  | Cisatty (fd : Z)
  | Cfcntl (fd cmd : Z)
  | Cioctl (fd request : Z)
  | Cgethostbyname (name : string)
  | Csocket (socket_family socket_type protocol : Z)
  | Cconnect (fd addr port : Z).

Definition void {A} (m : M A) : M unit := m ≫= λ _, mret tt.

Definition perform `{P : Platform} `{B : Backend} (c : Call) : M unit :=
  match c with
  | Copen pathname oflag => void (open pathname oflag)
  | Cclose fd => void (close fd)
  | Cread fd count => void (read fd count)
  | Cwrite fd count => void (write fd count)
  | Cseek fd offset whence => void (seek fd offset whence)
  | Cdup fd => void (dup fd)
  | Cdup2 fd newfd => void (dup2 fd newfd)
  | Cfstat fd => void (fstat fd)
  | Cgetdents fd count => void (getdents fd count)
  | Cisatty fd => void (isatty fd)
  | Cfcntl fd cmd => void (fcntl fd cmd)
  | Cioctl fd request => void (ioctl fd request)
  | Cgethostbyname name => void (gethostbyname name)
  | Csocket socket_family socket_type protocol =>
      void (socket socket_family socket_type protocol)
  | Cconnect fd addr port => void (connect fd addr port)
  end.

(** A sequence of calls, run up to the first crash. *)
Fixpoint perform_all `{P : Platform} `{B : Backend} (cs : list Call) : M unit :=
  match cs with
  | [] => mret tt
  | c :: cs' => perform c;; perform_all cs'
  end.

(** ** Predicates used in the statements *)

(** No slot of the table holds the sentinel. *)
Definition no_bad_sentinel (streams : gmap Z FileStreamPtr) : Prop :=
  ∀ fd, streams !! fd ≠ Some kBadFileStream.

(** Four bytes, most significant first, as one 32-bit value. *)
Definition join32 (b3 b2 b1 b0 : Z) : Z := b3 * 2 ^ 24 + b2 * 2 ^ 16 + b1 * 2 ^ 8 + b0.

(** The two maps of the host table agree: the seed entry is there, and every
    name's address maps back to the name. *)
Definition host_table_ok (fs : FileSystem) : Prop :=
  hosts_ fs !! "localhost"%string = Some (htonl 0x7F000001)
  ∧ ∀ name a, hosts_ fs !! name = Some a → addrs_ fs !! a = Some name.

(** The invariant behind [host_table_ok]: the counter has not reached the
    loopback address, and every address of the table is the loopback address
    or was drawn from the counter. *)
Definition host_table_inv `{P : Platform} (fs : FileSystem) : Prop :=
  host_table_ok fs
  ∧ kFirstAddr ≤ first_unused_addr_ fs ≤ 0x7F000001
  ∧ ∀ a name, addrs_ fs !! a = Some name →
      a = htonl 0x7F000001
      ∨ ∃ c, kFirstAddr ≤ c < first_unused_addr_ fs ∧ a = htonl c.

(** [fd] is one of the descriptors a [select] over [nfds] descriptors looks
    at in [fds]. *)
Definition member (nfds : Z) (fds : option fd_set) (fd : Z) : bool :=
  match fds with
  | Some s => (0 <=? fd) && (fd <? nfds) && Z.testbit s fd
  | None => false
  end.

(** What a readiness predicate answers for the stream of a descriptor. *)
Definition ready_at (streams : gmap Z FileStreamPtr) (is_ready : StreamId → bool)
    (fd : Z) : bool :=
  match streams !! fd with
  | Some (Ptr s) => is_ready s
  | _ => false
  end.

(** The number of bits set among the [n] bits from [i] on. *)
Fixpoint count_bits (n : nat) (i : Z) (s : fd_set) : Z :=
  match n with
  | O => 0
  | S n' => (if Z.testbit s i then 1 else 0) + count_bits n' (i + 1) s
  end.

Definition count_set (nfds : Z) (fds : option fd_set) : Z :=
  match fds with
  | Some s => count_bits (Z.to_nat nfds) 0 s
  | None => 0
  end.

(** [fds'] is [fds] with exactly the ready descriptors below [nfds] left:
    below [nfds] a bit is set when it was set and its stream is ready, from
    [nfds] on nothing changed; a null set stays null. *)
Definition ready_members (nfds : Z) (streams : gmap Z FileStreamPtr)
    (is_ready : StreamId → bool) (fds fds' : option fd_set) : Prop :=
  match fds, fds' with
  | None, None => True
  | Some s, Some s' =>
      (∀ j, 0 ≤ j < nfds → Z.testbit s' j = Z.testbit s j && ready_at streams is_ready j)
      ∧ (∀ j, ¬ (0 ≤ j < nfds) → Z.testbit s' j = Z.testbit s j)
  | _, _ => False
  end.

(** Every descriptor [select] looks at in [fds] has a stream that is not
    ready. *)
Definition quiet (nfds : Z) (streams : gmap Z FileStreamPtr)
    (is_ready : StreamId → bool) (fds : option fd_set) : Prop :=
  ∀ j, member nfds fds j = true →
       ∃ s, streams !! j = Some (Ptr s) ∧ is_ready s = false.

Definition quiet_world (nfds : Z) (streams : gmap Z FileStreamPtr) (w : World)
    (readfds writefds exceptfds : option fd_set) : Prop :=
  quiet nfds streams (is_read_ready w) readfds
  ∧ quiet nfds streams (is_write_ready w) writefds
  ∧ quiet nfds streams (is_exception w) exceptfds.

(** One of the descriptors [select] looks at has no stream: it is absent
    from the table, or its slot is reserved. *)
Definition null_member (nfds : Z) (readfds writefds exceptfds : option fd_set)
    (streams : gmap Z FileStreamPtr) : Prop :=
  ∃ j, (member nfds readfds j = true ∨ member nfds writefds j = true
        ∨ member nfds exceptfds j = true)
       ∧ default NULL (streams !! j) = NULL.


(** [fds'] is [fds] after part of an applying pass: the only bits that
    differ are bits of descriptors below [nfds] that were set, are now clear,
    and belong to a stream that is not ready; a null set stays null. *)
Definition cleared_not_ready (nfds : Z) (streams : gmap Z FileStreamPtr)
    (is_ready : StreamId → bool) (fds fds' : option fd_set) : Prop :=
  match fds, fds' with
  | None, None => True
  | Some s, Some s' =>
      ∀ j, Z.testbit s' j ≠ Z.testbit s j →
           0 ≤ j < nfds ∧ Z.testbit s j = true ∧ Z.testbit s' j = false
           ∧ ∃ st, streams !! j = Some (Ptr st) ∧ is_ready st = false
  | _, _ => False
  end.

(** * Beyond the descriptor operations: [stat], the storage bridge, the destructor *)

(** The three tables of a state: what a call can leave behind for the next
    one, apart from [errno] and the log. *)
Definition tables_of (fs : FileSystem)
    : gmap string (option HandlerId) * gmap Z FileStreamPtr * gmap string Z * gmap Z string :=
  (paths_ fs, streams_ fs, hosts_ fs, addrs_ fs).

(** ** [stat] and the storage bridge

    What [stat], [OnOpen] and [mkdir] take from the Pepper API and from the
    path handlers: the code a handler's [stat] returns, the handler object
    made for the persistent file system, and the two result codes the code
    compares with. *)
Class Pepper := {
  handler_stat : HandlerId → string → Z;
  new_PepperFileHandler : positive → HandlerId;
  PP_OK : Z;
  PP_OK_COMPLETIONPENDING : Z
}.

(** [stat(pathname, out)]: the return code.  The handler's [stat] fills [out]
    and is a query on the handler. *)
Definition stat `{P : Platform} `{S : Pepper} (pathname : string) : M Z :=
  it ← gets (λ fs, paths_ fs !! pathname);
  match it with
  | None => mret ENOENT
  | Some handler =>
      match handler with
      | Some h => mret (handler_stat h pathname)
      | None => mret EBADF
      end
  end.

(** ** More predicates on the sets of [select] *)

(** Every descriptor [select] looks at in [fds] is bound to a live stream. *)
Definition all_bound (nfds : Z) (streams : gmap Z FileStreamPtr)
    (fds : option fd_set) : Prop :=
  ∀ j, member nfds fds j = true → ∃ s, streams !! j = Some (Ptr s).

(** One of the descriptors [select] looks at in [fds] is ready. *)
Definition some_ready (nfds : Z) (streams : gmap Z FileStreamPtr)
    (is_ready : StreamId → bool) (fds : option fd_set) : Prop :=
  ∃ j, member nfds fds j = true ∧ ready_at streams is_ready j = true.

(** [fds'] has no descriptor that [fds] has not; a null set stays null. *)
Definition subset_of (fds' fds : option fd_set) : Prop :=
  match fds', fds with
  | None, None => True
  | Some s', Some s => ∀ j, Z.testbit s' j = true → Z.testbit s j = true
  | _, _ => False
  end.

(** The [errno] a sequence of waits leaves: that of the last wait that
    reported an error, or [e] when none did. *)
Definition errno_after (wakes : list Wake) (e : Z) : Z :=
  foldl (λ e wk, default e (wait_errno wk)) e wakes.

(** ** The storage bridge: [OnOpen], [MakeDirectory], [OnMakeDirectory], [mkdir]

    The two members behind [mkdir], beside the tables: the persistent file
    system, null until it was opened, and the flag that its opening has
    ended one way or the other. *)
Record Storage := mkStorage {
  tables : FileSystem;
  ppfs_ : option positive;
  fs_initialized_ : bool
}.

Inductive Outcome (A : Type) :=
  | Done (a : A) (st : Storage)
  | Failed (f : Fault) (st : Storage).
Arguments Done {A} a st.
Arguments Failed {A} f st.

(** The end of the constructor's [fs->Open(...)]: the members start as null
    and [false]; when [Open] does not answer "pending" no callback will come
    and the flag is set at once. *)
Definition construct_storage `{P : Platform} `{B : Backend} `{S : Pepper}
    (open_result : Z) : Storage :=
  mkStorage initial_fs None (negb (open_result =? PP_OK_COMPLETIONPENDING)).

(** [OnOpen(result, fs)], the completion of the storage's opening. *)
Definition OnOpen `{P : Platform} `{S : Pepper} (result : Z) (pfs : positive)
    (st : Storage) : Outcome unit :=
  if result =? PP_OK then
    match AddPathHandler "/.ssh/known_hosts" (Some (new_PepperFileHandler pfs))
            (tables st) with
    | Ok _ t => Done tt (mkStorage t (Some pfs) true)
    | Crash f t => Failed f (mkStorage t (Some pfs) (fs_initialized_ st))
    end
  else Done tt (mkStorage (tables st) (ppfs_ st) true).

(** [MakeDirectory(result, pathname, pres)] on the main thread: [ret] is what
    [MakeDirectoryIncludingAncestors] returned; the result is the value of
    the caller's slot [pres] afterwards. *)
Definition MakeDirectory `{S : Pepper} (ret : Z) (pres : Z) : Z :=
  if negb (ret =? PP_OK_COMPLETIONPENDING) then ret else pres.

(** [OnMakeDirectory(result, file_ref, pres)]: the slot afterwards. *)
Definition OnMakeDirectory (result : Z) (pres : Z) : Z := result.

(** What ran while [mkdir] had released the lock in [cond_.wait], before it
    was woken: nothing of its concern, or one of the three callbacks. *)
Inductive Bridged :=
  | Broadcast
  | RanOnOpen (result : Z) (pfs : positive)
  | RanMakeDirectory (ret : Z)
  | RanOnMakeDirectory (result : Z).

Inductive MkdirResult :=
  | MkdirReturned (r : Z)
  | MkdirBlocked.

(** [while (result == PP_OK_COMPLETIONPENDING) cond_.wait(mutex_);] and the
    [return] after it, by recursion on the wake-ups to come. *)
Fixpoint mkdir_wait_result `{P : Platform} `{S : Pepper} (wakes : list Bridged)
    (result : Z) (st : Storage) : Outcome MkdirResult :=
  if result =? PP_OK_COMPLETIONPENDING then
    match wakes with
    | [] => Done MkdirBlocked st
    | wk :: wakes' =>
        match wk with
        | Broadcast => mkdir_wait_result wakes' result st
        | RanOnOpen r pfs =>
            match OnOpen r pfs st with
            | Done _ st' => mkdir_wait_result wakes' result st'
            | Failed f st' => Failed f st'
            end
        | RanMakeDirectory ret => mkdir_wait_result wakes' (MakeDirectory ret result) st
        | RanOnMakeDirectory r => mkdir_wait_result wakes' (OnMakeDirectory r result) st
        end
    end
  else Done (MkdirReturned (if result =? PP_OK then 0 else -1)) st.

(** [mkdir(pathname, mode)]: the wait for the storage, the test of [ppfs_],
    the request posted to the main thread, and the wait for its result.  A
    directory callback that runs before the request was posted belongs to
    another call and leaves this one's slot alone. *)
Fixpoint mkdir `{P : Platform} `{S : Pepper} (pathname : string) (mode : Z)
    (wakes : list Bridged) (st : Storage) : Outcome MkdirResult :=
  if fs_initialized_ st then
    match ppfs_ st with
    | None => Done (MkdirReturned (-1)) st
    | Some _ => mkdir_wait_result wakes PP_OK_COMPLETIONPENDING st
    end
  else
    match wakes with
    | [] => Done MkdirBlocked st
    | wk :: wakes' =>
        match wk with
        | RanOnOpen r pfs =>
            match OnOpen r pfs st with
            | Done _ st' => mkdir pathname mode wakes' st'
            | Failed f st' => Failed f st'
            end
        | _ => mkdir pathname mode wakes' st
        end
    end.

(** ** The destructor

    [~FileSystem] releases the handlers of [paths_], then the streams of
    [streams_], each map in the order of its keys, and deletes the file
    system.  What it released, in order, and the fault it stopped at, if
    any. *)
Inductive Released :=
  | RelHandler (h : HandlerId)
  | RelStream (s : StreamId)
  | DelFileSystem (pfs : positive).

(** The entries of the two maps as a [std::map] iterates over them: by
    ascending key. *)
Definition path_le (x y : string * option HandlerId) : Prop :=
  String.leb x.1 y.1 = true.

#[global] Instance path_le_dec : RelDecision path_le.
Proof. intros x y. unfold path_le. apply _. Defined.

Definition fd_le (x y : Z * FileStreamPtr) : Prop := x.1 ≤ y.1.

#[global] Instance fd_le_dec : RelDecision fd_le.
Proof. intros x y. unfold fd_le. apply _. Defined.

Definition paths_in_order (fs : FileSystem) : list (string * option HandlerId) :=
  merge_sort path_le (map_to_list (paths_ fs)).

Definition streams_in_order (fs : FileSystem) : list (Z * FileStreamPtr) :=
  merge_sort fd_le (map_to_list (streams_ fs)).

Fixpoint release_handlers (l : list (string * option HandlerId))
    : list Released * option Fault :=
  match l with
  | [] => ([], None)
  | (_, None) :: _ => ([], Some NullDeref)
  | (_, Some h) :: l' =>
      let '(released, fault) := release_handlers l' in
      (RelHandler h :: released, fault)
  end.

Fixpoint release_streams (l : list (Z * FileStreamPtr)) : list Released * option Fault :=
  match l with
  | [] => ([], None)
  | (_, NULL) :: _ => ([], Some NullDeref)
  | (_, kBadFileStream) :: _ => ([], Some BadDeref)
  | (_, Ptr s) :: l' =>
      let '(released, fault) := release_streams l' in
      (RelStream s :: released, fault)
  end.

Definition destructor (st : Storage) : list Released * option Fault :=
  let '(handlers, fault) := release_handlers (paths_in_order (tables st)) in
  match fault with
  | Some f => (handlers, Some f)
  | None =>
      let '(streams, fault) := release_streams (streams_in_order (tables st)) in
      match fault with
      | Some f => (handlers ++ streams, Some f)
      | None =>
          (handlers ++ streams
           ++ match ppfs_ st with Some pfs => [DelFileSystem pfs] | None => [] end,
           None)
      end
  end.

(** ** More sample values

    Sample Pepper constants ([PP_OK] is 0 and "pending" is -1, as in
    [pp_errors.h]), a backend whose streams refuse [dup], and a few states
    and wake-ups built from the constructed table. *)
Definition sample_pepper : Pepper := {|
  handler_stat := λ _ _, 0;
  new_PepperFileHandler := λ _, 5%positive;
  PP_OK := 0;
  PP_OK_COMPLETIONPENDING := -1
|}.

Definition refusing_backend : Backend := {|
  handler_open := λ h fd _ _, if (h =? 1)%positive then Some (Z.to_pos (1000 + fd)) else None;
  stream_dup := λ _ _, None;
  stream_ret := λ _ _, 0;
  new_TCPSocket := λ fd, Z.to_pos (3000 + fd);
  tcp_connect := λ _ _ _, true;
  inet_ntoa := λ _, "0.0.0.0"%string;
  new_JsFile := λ fd, Z.to_pos (10 + fd);
  DevNullHandler := 1%positive;
  DevTtyHandler := 2%positive;
  DevRandomHandler := 3%positive;
  JsFileHandler := 4%positive;
  irt_random_available := true
|}.

(** The constructed table after [close(0)]. *)
Definition sample_closed_fs : FileSystem :=
  final_state (close (P := sample_platform false) (B := sample_backend true) 0 sample_fs).

(** A timed wait that was interrupted ([EINTR] is 4). *)
Definition sample_interrupt : Wake :=
  mkWake (Some 4) (streams_ sample_fs) idle_world.

(** The storage open, and the storage still being opened. *)
Definition sample_storage : Storage := mkStorage sample_fs (Some 1%positive) true.

Definition sample_pending_storage : Storage := mkStorage sample_fs None false.

(** * Properties *)

Ltac unfold_m :=
  unfold mbind, M_bind, mret, M_ret, gets, modify, crash in *.

Section properties.
Context `{P : Platform} `{B : Backend}.

(** ** Descriptor allocation *)

Lemma first_unused_from_spec (m : gmap Z FileStreamPtr) (fuel : nat) (fd0 : Z) :
  (∃ k, fd0 ≤ k < fd0 + Z.of_nat fuel ∧ m !! k = None) →
  ∃ fd, first_unused_from fuel m fd0 = Some fd
        ∧ fd0 ≤ fd < fd0 + Z.of_nat fuel
        ∧ m !! fd = None
        ∧ ∀ k, fd0 ≤ k < fd → is_Some (m !! k).
Proof.
  revert fd0. induction fuel as [|fuel IH]; intros fd0 (k & Hk & Hfree).
  - lia.
  - simpl. case_bool_decide as Hknown.
    + destruct (IH (fd0 + 1)) as (fd & Hfd & Hrange & Hnone & Hmin).
      { exists k. split; [|done].
        assert (k ≠ fd0) by (intros ->; rewrite Hfree in Hknown; by destruct Hknown).
        lia. }
      exists fd. repeat split; [done|lia|lia|done|].
      intros j Hj. destruct (decide (j = fd0)) as [->|]; [done|].
      apply Hmin. lia.
    + exists fd0. repeat split; [lia|lia| |intros; lia].
      by apply eq_None_not_Some.
Qed.

(** Pigeonhole: a table of [n] entries misses one of [n + 1] consecutive keys. *)
Lemma table_has_gap (m : gmap Z FileStreamPtr) (fd0 : Z) :
  ∃ k, fd0 ≤ k < fd0 + Z.of_nat (S (size m)) ∧ m !! k = None.
Proof.
  destruct (decide (Forall (λ k, is_Some (m !! k)) (seqZ fd0 (Z.of_nat (S (size m))))))
    as [Hall|Hex].
  - exfalso.
    assert (Hsub : (list_to_set (seqZ fd0 (Z.of_nat (S (size m)))) : gset Z) ⊆ dom m).
    { intros k Hk. apply elem_of_list_to_set in Hk. apply elem_of_dom.
      rewrite Forall_forall in Hall. by apply Hall. }
    apply subseteq_size in Hsub.
    rewrite size_list_to_set in Hsub by apply NoDup_seqZ.
    rewrite length_seqZ, size_dom in Hsub. lia.
  - apply not_Forall_Exists in Hex; [|intros ?; apply _].
    apply Exists_exists in Hex as (k & Hin & Hk).
    apply elem_of_seqZ in Hin. exists k. split; [lia|].
    by apply eq_None_not_Some.
Qed.

Lemma first_unused_from_total (m : gmap Z FileStreamPtr) (fd0 : Z) :
  ∃ fd, first_unused_from (S (size m)) m fd0 = Some fd
        ∧ fd0 ≤ fd ≤ fd0 + Z.of_nat (size m)
        ∧ m !! fd = None
        ∧ ∀ k, fd0 ≤ k < fd → is_Some (m !! k).
Proof.
  destruct (first_unused_from_spec m (S (size m)) fd0 (table_has_gap m fd0))
    as (fd & ? & ? & ? & ?).
  exists fd. repeat split; [done|lia|lia|done|done].
Qed.

(** More fuel does not change the answer. *)
Lemma first_unused_from_more_fuel (m : gmap Z FileStreamPtr) (fuel extra : nat) (fd0 fd : Z) :
  first_unused_from fuel m fd0 = Some fd →
  first_unused_from (fuel + extra) m fd0 = Some fd.
Proof.
  revert fd0. induction fuel as [|fuel IH]; intros fd0; simpl; [done|].
  case_bool_decide; [apply IH|done].
Qed.

Lemma GetFirstUnusedDescriptor_spec (fs : FileSystem) :
  ∃ fd, GetFirstUnusedDescriptor fs = Ok fd fs
        ∧ kFileIDOffset ≤ fd
        ∧ streams_ fs !! fd = None
        ∧ ∀ k, kFileIDOffset ≤ k < fd → is_Some (streams_ fs !! k).
Proof.
  destruct (first_unused_from_total (streams_ fs) kFileIDOffset) as (fd & Hfd & ? & ? & ?).
  exists fd. unfold GetFirstUnusedDescriptor. rewrite Hfd.
  repeat split; [lia|done|done].
Qed.

(** The descriptor handed out is at most the offset plus the number of
    entries: the increment in the loop stays within [int] as long as that
    sum does. *)
Lemma GetFirstUnusedDescriptor_bound (fs : FileSystem) (fd : Z) (fs' : FileSystem) :
  GetFirstUnusedDescriptor fs = Ok fd fs' →
  fd ≤ kFileIDOffset + Z.of_nat (size (streams_ fs)).
Proof.
  destruct (first_unused_from_total (streams_ fs) kFileIDOffset) as (fd' & Hfd & ? & ? & ?).
  unfold GetFirstUnusedDescriptor. rewrite Hfd. intros [= <- _]. lia.
Qed.

(** ** Steps on the table *)

Lemma AddFileStream_free (fs : FileSystem) (fd : Z) (p : FileStreamPtr) :
  streams_ fs !! fd = None ∨ streams_ fs !! fd = Some NULL →
  AddFileStream fd p fs = Ok tt (set_streams <[fd := p]> fs).
Proof.
  intros H. unfold AddFileStream, assert. unfold_m.
  by destruct H as [-> | ->].
Qed.

Lemma RemoveFileStream_known (fs : FileSystem) (fd : Z) :
  is_Some (streams_ fs !! fd) →
  RemoveFileStream fd fs = Ok tt (set_streams (delete fd) fs).
Proof.
  intros H. unfold RemoveFileStream, assert. unfold_m.
  by rewrite bool_decide_eq_true_2.
Qed.

Lemma GetStream_eq (fs : FileSystem) (fd : Z) :
  GetStream fd fs = Ok (default NULL (streams_ fs !! fd)) fs.
Proof. done. Qed.

(** Reserving a free slot and releasing it again restores the state. *)
Lemma reserve_release (fs : FileSystem) (fd : Z) :
  streams_ fs !! fd = None →
  set_streams (delete fd) (set_streams <[fd := NULL]> fs) = fs.
Proof.
  intros H. destruct fs. unfold set_streams. simpl in *.
  by rewrite delete_insert_id.
Qed.

Lemma reserve_bind (fs : FileSystem) (fd : Z) (p : FileStreamPtr) :
  set_streams <[fd := p]> (set_streams <[fd := NULL]> fs) = set_streams <[fd := p]> fs.
Proof.
  destruct fs. unfold set_streams. simpl. by rewrite insert_insert_eq.
Qed.

Lemma socket_spec (fs : FileSystem) (a b c : Z) :
  ∃ fd, socket a b c fs = Ok fd (set_streams <[fd := NULL]> fs)
        ∧ GetFirstUnusedDescriptor fs = Ok fd fs
        ∧ streams_ fs !! fd = None.
Proof.
  destruct (GetFirstUnusedDescriptor_spec fs) as (fd & Hfd & _ & Hnone & _).
  exists fd. split; [|done].
  unfold socket. unfold_m. rewrite Hfd.
  rewrite AddFileStream_free by auto. done.
Qed.

(** [open] on a registered path: the handler is asked for a stream on the
    descriptor just reserved; the slot is bound or released. *)
Lemma open_registered (fs : FileSystem) (path : string) (oflag : Z) (h : HandlerId) (fd : Z) :
  paths_ fs !! path = Some (Some h) →
  GetFirstUnusedDescriptor fs = Ok fd fs →
  streams_ fs !! fd = None →
  open path oflag fs =
    match handler_open h fd path oflag with
    | Some s => Ok (0, Some fd)
                   (set_streams <[fd := Ptr s]> (log (EvHandlerOpen h fd path oflag) fs))
    | None => Ok (EACCES, None) (log (EvHandlerOpen h fd path oflag) fs)
    end.
Proof.
  intros Hpath Hfd Hnone. unfold open. unfold_m. rewrite Hpath, Hfd.
  rewrite AddFileStream_free by auto.
  destruct (handler_open h fd path oflag) as [s|]; simpl.
  - rewrite AddFileStream_free by (right; simpl; apply lookup_insert_eq).
    f_equal. destruct fs. unfold set_streams, log. simpl. by rewrite insert_insert_eq.
  - rewrite RemoveFileStream_known by (simpl; rewrite lookup_insert_eq; eauto).
    f_equal. destruct fs. unfold set_streams, log. simpl in *. by rewrite delete_insert_id.
Qed.

Lemma dup_real (fs : FileSystem) (fd : Z) (s : StreamId) (newfd : Z) :
  streams_ fs !! fd = Some (Ptr s) →
  GetFirstUnusedDescriptor fs = Ok newfd fs →
  streams_ fs !! newfd = None →
  dup fd fs =
    match stream_dup s newfd with
    | Some t => Ok (0, Some newfd)
                   (set_streams <[newfd := Ptr t]> (log (EvCall s (MDup newfd)) fs))
    | None => Ok (EACCES, Some newfd) (log (EvCall s (MDup newfd)) fs)
    end.
Proof.
  intros Hs Hfd Hnone. unfold dup. unfold_m. rewrite GetStream_eq, Hs. simpl.
  rewrite Hfd. rewrite AddFileStream_free by auto. simpl.
  destruct (stream_dup s newfd) as [t|]; simpl.
  - rewrite AddFileStream_free by (right; simpl; apply lookup_insert_eq).
    f_equal. destruct fs. unfold set_streams, log. simpl. by rewrite insert_insert_eq.
  - rewrite RemoveFileStream_known by (simpl; rewrite lookup_insert_eq; eauto).
    f_equal. destruct fs. unfold set_streams, log. simpl in *. by rewrite delete_insert_id.
Qed.

(** C1. Allocation, as [socket], [open] and [dup] perform it, hands out the
    smallest descriptor at or above [kFileIDOffset] that is not in the table
    and reserves it (the slot holds the null stream); the descriptor differs
    from every descriptor in the table, and with the offset above 2 it is
    never 0, 1 or 2.  [socket] leaves the slot reserved; [open] and [dup]
    pass the descriptor to the handler or the stream and bind the slot when a
    stream comes back. *)
Theorem C1_allocation_smallest_free (fs : FileSystem) (Hoffset : 2 < kFileIDOffset) :
  ∃ fd,
    GetFirstUnusedDescriptor fs = Ok fd fs
    ∧ kFileIDOffset ≤ fd
    ∧ streams_ fs !! fd = None
    ∧ (∀ k, kFileIDOffset ≤ k < fd → is_Some (streams_ fs !! k))
    ∧ (∀ k, is_Some (streams_ fs !! k) → k ≠ fd)
    ∧ 2 < fd
    ∧ (∀ a b c, socket a b c fs = Ok fd (set_streams <[fd := NULL]> fs))
    ∧ (∀ path oflag h s,
         paths_ fs !! path = Some (Some h) →
         handler_open h fd path oflag = Some s →
         open path oflag fs
         = Ok (0, Some fd)
              (set_streams <[fd := Ptr s]> (log (EvHandlerOpen h fd path oflag) fs)))
    ∧ (∀ src s t,
         streams_ fs !! src = Some (Ptr s) →
         stream_dup s fd = Some t →
         dup src fs
         = Ok (0, Some fd)
              (set_streams <[fd := Ptr t]> (log (EvCall s (MDup fd)) fs))).
Proof.
  destruct (GetFirstUnusedDescriptor_spec fs) as (fd & Hfd & Hge & Hnone & Hmin).
  exists fd. repeat split; try done.
  - intros k [p Hk] ->. congruence.
  - lia.
  - intros a b c. destruct (socket_spec fs a b c) as (fd' & Hsock & Hfd' & _).
    congruence.
  - intros path oflag h s Hpath Hopen.
    rewrite (open_registered fs path oflag h fd) by done. by rewrite Hopen.
  - intros src s t Hsrc Hdup.
    rewrite (dup_real fs src s fd) by done. by rewrite Hdup.
Qed.

(** ** Failing opens *)

(** C5. [open] on a path without a handler fails with [ENOENT]; on a
    registered path whose handler returns no stream it fails with [EACCES]
    after releasing the reserved descriptor.  In both cases the descriptor
    table after the call is the table before it; nothing but the log of the
    handler call differs in the second case. *)
Theorem C5_open_failure_leaves_table (fs : FileSystem) (path : string) (oflag : Z) :
  (paths_ fs !! path = None → open path oflag fs = Ok (ENOENT, None) fs)
  ∧ (∀ h fd,
       paths_ fs !! path = Some (Some h) →
       GetFirstUnusedDescriptor fs = Ok fd fs →
       handler_open h fd path oflag = None →
       ∃ fs', open path oflag fs = Ok (EACCES, None) fs'
              ∧ streams_ fs' = streams_ fs
              ∧ size (streams_ fs') = size (streams_ fs)
              ∧ fs' = log (EvHandlerOpen h fd path oflag) fs).
Proof.
  split.
  - intros Hpath. unfold open. unfold_m. by rewrite Hpath.
  - intros h fd Hpath Hfd Hdecl.
    destruct (GetFirstUnusedDescriptor_spec fs) as (fd' & Hfd' & _ & Hnone & _).
    assert (fd' = fd) as -> by congruence.
    exists (log (EvHandlerOpen h fd path oflag) fs).
    rewrite (open_registered fs path oflag h fd) by done. by rewrite Hdecl.
Qed.

(** ** Reserved, sentinel and absent descriptors *)

Lemma replay_const {A} (m : M A) (a : A) (fs : FileSystem) (n : nat) :
  m fs = Ok a fs → replay n m fs = Ok (replicate n a) fs.
Proof.
  intros Hm. induction n as [|n IH]; simpl; [done|].
  unfold_m. by rewrite Hm, IH.
Qed.

Lemma close_absent (fs : FileSystem) (fd : Z) :
  streams_ fs !! fd = None → close fd fs = Ok EBADF fs.
Proof.
  intros H. unfold close, IsKnowDescriptor. unfold_m.
  rewrite bool_decide_eq_false_2; [done|]. rewrite H. by intros [? ?].
Qed.

(** C6. On a descriptor whose slot is reserved (null stream) or holds the
    sentinel, [read], [write], [seek], [fstat], [getdents], [isatty], [fcntl],
    [ioctl] and [dup] fail with [EBADF] and leave the table as it is
    ([isatty], [fcntl] and [ioctl] report through [errno]), while [close]
    succeeds and removes the slot.  On a descriptor absent from the table
    [close] fails with [EBADF] and changes nothing, however often it is
    called. *)
Theorem C6_reserved_or_sentinel_descriptor (fs : FileSystem) (fd : Z) :
  (streams_ fs !! fd = Some NULL ∨ streams_ fs !! fd = Some kBadFileStream →
     (∀ count, read fd count fs = Ok EBADF fs)
     ∧ (∀ count, write fd count fs = Ok EBADF fs)
     ∧ (∀ offset whence, seek fd offset whence fs = Ok EBADF fs)
     ∧ fstat fd fs = Ok EBADF fs
     ∧ (∀ count, getdents fd count fs = Ok EBADF fs)
     ∧ isatty fd fs = Ok 0 (set_errno EBADF fs)
     ∧ (∀ cmd, fcntl fd cmd fs = Ok (-1) (set_errno EBADF fs))
     ∧ (∀ request, ioctl fd request fs = Ok (-1) (set_errno EBADF fs))
     ∧ dup fd fs = Ok (EBADF, None) fs
     ∧ close fd fs = Ok 0 (set_streams (delete fd) fs)
     ∧ streams_ (set_streams (delete fd) fs) !! fd = None)
  ∧ (streams_ fs !! fd = None →
     close fd fs = Ok EBADF fs
     ∧ ∀ n, replay n (close fd) fs = Ok (replicate n EBADF) fs).
Proof.
  split.
  - intros H.
    assert (Hreal : is_real (default NULL (streams_ fs !! fd)) = false)
      by (by destruct H as [-> | ->]).
    assert (Hknown : is_Some (streams_ fs !! fd)) by (destruct H as [-> | ->]; eauto).
    repeat split; intros;
      try (unfold read, write, seek, fstat, getdents, isatty, fcntl, ioctl, dup;
           unfold_m; rewrite GetStream_eq, Hreal; done).
    + unfold close, IsKnowDescriptor. unfold_m.
      rewrite bool_decide_eq_true_2 by done. cbn [negb].
      rewrite GetStream_eq, Hreal.
      by rewrite RemoveFileStream_known.
    + simpl. apply lookup_delete_eq.
  - intros H. split; [by apply close_absent|].
    intros n. apply replay_const. by apply close_absent.
Qed.

(** ** Sockets *)

(** The host name [connect] hands to the socket. *)
Lemma connect_known (fs : FileSystem) (fd addr port : Z) :
  is_Some (streams_ fs !! fd) →
  let host := match addrs_ fs !! addr with
              | Some name => name
              | None => inet_ntoa (wrap32 addr)
              end in
  let sock := new_TCPSocket fd in
  let fs1 := log (EvCall sock (MConnect host port)) (log (EvNewTCPSocket fd sock) fs) in
  connect fd addr port fs =
    if tcp_connect sock host port
    then match AddFileStream fd (Ptr sock) fs1 with
         | Ok _ fs2 => Ok 0 fs2
         | Crash f fs2 => Crash f fs2
         end
    else Ok (-1) (log (EvCall sock MRelease) (set_errno ECONNREFUSED fs1)).
Proof.
  intros Hknown host sock fs1. unfold connect. unfold_m.
  rewrite bool_decide_eq_true_2 by done. simpl.
  fold host. fold sock. fold fs1.
  by destruct (tcp_connect sock host port).
Qed.

(** C8. [connect] on a descriptor of the table constructs a socket and asks
    it to connect to the host named by the address-to-name map, or by
    [inet_ntoa] of the address when the map has no entry.  When the socket
    does not connect, the call returns -1 with [errno = ECONNREFUSED], the
    socket just constructed is released and never bound, and the table is the
    one before the call. *)
Theorem C8_connect_refused (fs : FileSystem) (fd addr port : Z) :
  is_Some (streams_ fs !! fd) →
  let host := match addrs_ fs !! addr with
              | Some name => name
              | None => inet_ntoa (wrap32 addr)
              end in
  let sock := new_TCPSocket fd in
  calls (final_state (connect fd addr port fs))
  = calls fs ++ [EvNewTCPSocket fd sock; EvCall sock (MConnect host port)]
             ++ (if tcp_connect sock host port then [] else [EvCall sock MRelease])
  ∧ (tcp_connect sock host port = false →
     ∃ fs', connect fd addr port fs = Ok (-1) fs'
            ∧ errno fs' = ECONNREFUSED
            ∧ streams_ fs' = streams_ fs
            ∧ streams_ fs' !! fd = streams_ fs !! fd).
Proof.
  intros Hknown host sock. split.
  - rewrite connect_known by done. fold host sock.
    destruct (tcp_connect sock host port); simpl.
    + unfold AddFileStream, assert. unfold_m. simpl.
      destruct (_ || NDEBUG); simpl; by rewrite <- app_assoc.
    + by rewrite <- !app_assoc.
  - intros Hrefused. eexists. rewrite connect_known by done.
    fold host sock. rewrite Hrefused.
    split; [done|]. simpl. by repeat split.
Qed.

Lemma read_real (fs : FileSystem) (fd : Z) (s : StreamId) (count : Z) :
  streams_ fs !! fd = Some (Ptr s) →
  read fd count fs = Ok (stream_ret s (MRead count)) (log (EvCall s (MRead count)) fs).
Proof. intros H. unfold read. unfold_m. by rewrite GetStream_eq, H. Qed.

Lemma write_real (fs : FileSystem) (fd : Z) (s : StreamId) (count : Z) :
  streams_ fs !! fd = Some (Ptr s) →
  write fd count fs = Ok (stream_ret s (MWrite count)) (log (EvCall s (MWrite count)) fs).
Proof. intros H. unfold write. unfold_m. by rewrite GetStream_eq, H. Qed.

Lemma read_not_real (fs : FileSystem) (fd : Z) (count : Z) :
  is_real (default NULL (streams_ fs !! fd)) = false →
  read fd count fs = Ok EBADF fs.
Proof. intros H. unfold read. unfold_m. by rewrite GetStream_eq, H. Qed.

Lemma write_not_real (fs : FileSystem) (fd : Z) (count : Z) :
  is_real (default NULL (streams_ fs !! fd)) = false →
  write fd count fs = Ok EBADF fs.
Proof. intros H. unfold write. unfold_m. by rewrite GetStream_eq, H. Qed.

(** C7, as the code has it.  [socket] returns a descriptor that was not in
    the table and leaves its slot reserved: it holds the null stream, not the
    sentinel.  [read] and [write] on it fail with [EBADF], also after a
    [connect] that was refused; after a [connect] that succeeded the slot
    holds the TCP socket and [read] and [write] are calls on that socket. *)
Theorem C7_socket_reserved_until_connect (fs : FileSystem) (a b c : Z) :
  ∃ fd,
    let fs1 := set_streams <[fd := NULL]> fs in
    let sock := new_TCPSocket fd in
    socket a b c fs = Ok fd fs1
    ∧ streams_ fs !! fd = None
    ∧ streams_ fs1 !! fd = Some NULL
    ∧ (∀ count, read fd count fs1 = Ok EBADF fs1)
    ∧ (∀ count, write fd count fs1 = Ok EBADF fs1)
    ∧ (∀ addr port fs2,
         connect fd addr port fs1 = Ok (-1) fs2 →
         streams_ fs2 !! fd = Some NULL
         ∧ (∀ count, read fd count fs2 = Ok EBADF fs2)
         ∧ (∀ count, write fd count fs2 = Ok EBADF fs2))
    ∧ (∀ addr port,
         tcp_connect sock
           (match addrs_ fs !! addr with
            | Some name => name
            | None => inet_ntoa (wrap32 addr)
            end) port = true →
         ∃ fs2,
           connect fd addr port fs1 = Ok 0 fs2
           ∧ streams_ fs2 !! fd = Some (Ptr sock)
           ∧ (∀ count, read fd count fs2
                       = Ok (stream_ret sock (MRead count))
                            (log (EvCall sock (MRead count)) fs2))
           ∧ (∀ count, write fd count fs2
                       = Ok (stream_ret sock (MWrite count))
                            (log (EvCall sock (MWrite count)) fs2))).
Proof.
  destruct (socket_spec fs a b c) as (fd & Hsock & _ & Hnone).
  exists fd. intros fs1 sock.
  assert (Hres : streams_ fs1 !! fd = Some NULL) by (simpl; apply lookup_insert_eq).
  assert (Hknown : is_Some (streams_ fs1 !! fd)) by (rewrite Hres; eauto).
  repeat split; try done.
  - intros count. apply read_not_real. by rewrite Hres.
  - intros count. apply write_not_real. by rewrite Hres.
  - revert H. rewrite connect_known by done.
    destruct (tcp_connect _ _ _).
    + rewrite AddFileStream_free by (right; apply Hres). by intros [=].
    + by intros [= <-].
  - intros count. apply read_not_real.
    revert H. rewrite connect_known by done.
    destruct (tcp_connect _ _ _).
    + rewrite AddFileStream_free by (right; apply Hres). by intros [=].
    + intros [= <-]. simpl. by rewrite lookup_insert_eq.
  - intros count. apply write_not_real.
    revert H. rewrite connect_known by done.
    destruct (tcp_connect _ _ _).
    + rewrite AddFileStream_free by (right; apply Hres). by intros [=].
    + intros [= <-]. simpl. by rewrite lookup_insert_eq.
  - intros addr port Hconn.
    eexists. rewrite connect_known by done.
    change (addrs_ fs1) with (addrs_ fs). fold sock. rewrite Hconn.
    rewrite AddFileStream_free by (right; apply Hres).
    split; [done|].
    assert (Hs : ∀ fs0 : FileSystem,
               streams_ (set_streams <[fd := Ptr sock]> fs0) !! fd = Some (Ptr sock))
      by (intros; simpl; apply lookup_insert_eq).
    split; [apply Hs|]. split; intros count.
    + by apply read_real.
    + by apply write_real.
Qed.

(** ** [dup2] *)

(** The target has no stream (absent from the table, or reserved): the
    branch guarded by [!new_stream] runs and calls [close] through the null
    pointer. *)
Lemma dup2_null_target (fs : FileSystem) (fd newfd : Z) (s : StreamId) :
  streams_ fs !! fd = Some (Ptr s) →
  default NULL (streams_ fs !! newfd) = NULL →
  dup2 fd newfd fs = Crash NullDeref fs.
Proof.
  intros Hs Hnull. unfold dup2, GetStream. unfold_m. rewrite Hs. simpl.
  by destruct (streams_ fs !! newfd) as [[| |]|].
Qed.

(** The target holds a stream: the branch is skipped, so the stream is
    neither closed nor released; the [assert] of [AddFileStream] fails, and
    a build without assertions overwrites the slot. *)
Lemma dup2_live_target (fs : FileSystem) (fd newfd : Z) (s : StreamId) (p : FileStreamPtr) :
  streams_ fs !! fd = Some (Ptr s) →
  streams_ fs !! newfd = Some p →
  p ≠ NULL →
  dup2 fd newfd fs =
    if NDEBUG then
      match stream_dup s newfd with
      | Some t => Ok 0 (set_streams <[newfd := Ptr t]> (log (EvCall s (MDup newfd)) fs))
      | None => Ok EACCES (log (EvCall s (MDup newfd)) (set_streams <[newfd := NULL]> fs))
      end
    else Crash AssertFailed fs.
Proof.
  intros Hs Hp Hnn. unfold dup2, GetStream, AddFileStream, assert. unfold_m.
  assert (Hnull : is_null p = false) by (by destruct p).
  repeat (progress (rewrite ?Hs, ?Hp, ?Hnull; simpl)).
  destruct NDEBUG eqn:Hnd; simpl; [|done].
  destruct (stream_dup s newfd) as [t|]; simpl; [|done].
  rewrite lookup_insert_eq. simpl.
  f_equal. destruct fs. unfold set_streams, log. simpl. by rewrite insert_insert_eq.
Qed.

(** ** The host address table *)

Lemma wrap32_range (x : Z) : 0 ≤ wrap32 x < 2 ^ 32.
Proof. unfold wrap32. apply Z.mod_pos_bound. lia. Qed.

Lemma wrap32_small (x : Z) : 0 ≤ x < 2 ^ 32 → wrap32 x = x.
Proof. unfold wrap32. intros. by apply Z.mod_small. Qed.

Lemma byte_range (x : Z) : 0 ≤ x mod 256 < 256.
Proof. apply Z.mod_pos_bound. lia. Qed.

Lemma join32_byte0 (b3 b2 b1 b0 : Z) :
  0 ≤ b0 < 256 → join32 b3 b2 b1 b0 mod 256 = b0.
Proof.
  intros. unfold join32.
  replace (b3 * 2 ^ 24 + b2 * 2 ^ 16 + b1 * 2 ^ 8 + b0)
    with (b0 + (b3 * 65536 + b2 * 256 + b1) * 256) by lia.
  rewrite Z.mod_add by lia. apply Z.mod_small. lia.
Qed.

Lemma join32_shift (b3 b2 b1 b0 : Z) :
  0 ≤ b0 < 256 → join32 b3 b2 b1 b0 / 2 ^ 8 = join32 0 b3 b2 b1.
Proof.
  intros. unfold join32.
  replace (b3 * 2 ^ 24 + b2 * 2 ^ 16 + b1 * 2 ^ 8 + b0)
    with (b0 + (b3 * 65536 + b2 * 256 + b1) * 2 ^ 8) by lia.
  rewrite Z.div_add by lia. rewrite Z.div_small by lia. lia.
Qed.

Lemma join32_split (y : Z) :
  0 ≤ y < 2 ^ 32 →
  y = join32 (y / 2 ^ 24 mod 256) (y / 2 ^ 16 mod 256) (y / 2 ^ 8 mod 256) (y mod 256).
Proof.
  intros Hy. unfold join32.
  change (2 ^ 32) with 4294967296 in *. change (2 ^ 24) with 16777216 in *.
  change (2 ^ 16) with 65536 in *. change (2 ^ 8) with 256 in *.
  Z.div_mod_to_equations. lia.
Qed.

Lemma join32_range (b3 b2 b1 b0 : Z) :
  0 ≤ b3 < 256 → 0 ≤ b2 < 256 → 0 ≤ b1 < 256 → 0 ≤ b0 < 256 →
  0 ≤ join32 b3 b2 b1 b0 < 2 ^ 32.
Proof. unfold join32. lia. Qed.

Lemma htonl_join32 (x : Z) :
  htonl x = let y := wrap32 x in
            join32 (y mod 256) (y / 2 ^ 8 mod 256) (y / 2 ^ 16 mod 256) (y / 2 ^ 24 mod 256).
Proof. reflexivity. Qed.

Lemma htonl_of_join32 (b3 b2 b1 b0 : Z) :
  0 ≤ b3 < 256 → 0 ≤ b2 < 256 → 0 ≤ b1 < 256 → 0 ≤ b0 < 256 →
  htonl (join32 b3 b2 b1 b0) = join32 b0 b1 b2 b3.
Proof.
  intros H3 H2 H1 H0. rewrite htonl_join32.
  rewrite wrap32_small by (by apply join32_range). cbv zeta.
  change (2 ^ 24) with (2 ^ 8 * 2 ^ 8 * 2 ^ 8). change (2 ^ 16) with (2 ^ 8 * 2 ^ 8).
  rewrite <- !Z.div_div by lia.
  rewrite !join32_shift by lia.
  rewrite !join32_byte0 by lia. reflexivity.
Qed.

Lemma htonl_range (x : Z) : 0 ≤ htonl x < 2 ^ 32.
Proof. rewrite htonl_join32. apply join32_range; apply byte_range. Qed.

Lemma htonl_wrap32 (x : Z) : htonl (wrap32 x) = htonl x.
Proof.
  unfold htonl. by rewrite (wrap32_small (wrap32 x)) by apply wrap32_range.
Qed.

(** Swapping the bytes twice gives the value back. *)
Lemma htonl_involutive (x : Z) : htonl (htonl x) = wrap32 x.
Proof.
  rewrite (htonl_join32 x). cbv zeta.
  rewrite htonl_of_join32 by apply byte_range.
  symmetry. apply join32_split, wrap32_range.
Qed.

Lemma htonl_inj (x y : Z) : htonl x = htonl y → wrap32 x = wrap32 y.
Proof. intros H. by rewrite <- !htonl_involutive, H. Qed.

(** The detour of the synthetic address through [int] keeps its 32 bits. *)
Lemma wrap32_to_int (x : Z) : 0 ≤ x < 2 ^ 32 → wrap32 (to_int x) = x.
Proof.
  intros Hx. unfold wrap32, to_int.
  change (2 ^ 32) with 4294967296 in *. change (2 ^ 31) with 2147483648.
  destruct (Z.ltb_spec x 2147483648); Z.div_mod_to_equations; lia.
Qed.

Lemma gethostbyname_hit (fs : FileSystem) (name : string) (a : Z) :
  hosts_ fs !! name = Some a → gethostbyname name fs = Ok a fs.
Proof. intros H. unfold gethostbyname. unfold_m. by rewrite H. Qed.

Lemma gethostbyname_miss (fs : FileSystem) (name : string) :
  hosts_ fs !! name = None →
  let a := htonl (first_unused_addr_ fs) in
  gethostbyname name fs
  = Ok a (set_addrs <[a := name]>
            (set_hosts <[name := a]>
               (set_first_unused_addr (wrap32 (first_unused_addr_ fs + 1)) fs))).
Proof.
  intros H a. unfold gethostbyname. unfold_m. rewrite H. simpl.
  by rewrite wrap32_to_int by apply htonl_range.
Qed.

(** The seed entry is never overwritten. *)
Lemma gethostbyname_keeps_localhost (fs fs' : FileSystem) (name : string) (a : Z) :
  hosts_ fs !! "localhost"%string = Some (htonl 0x7F000001) →
  gethostbyname name fs = Ok a fs' →
  hosts_ fs' !! "localhost"%string = Some (htonl 0x7F000001).
Proof.
  intros Hseed. destruct (hosts_ fs !! name) as [b|] eqn:Hname.
  - rewrite (gethostbyname_hit fs name b) by done. by intros [= _ <-].
  - rewrite gethostbyname_miss by done. intros [= _ <-]. simpl.
    rewrite lookup_insert_ne; [done|]. intros ->. congruence.
Qed.

(** A miss keeps the two maps in agreement when the address drawn from the
    counter is not in the table yet. *)
Lemma gethostbyname_keeps_ok (fs fs' : FileSystem) (name : string) (a : Z) :
  host_table_ok fs →
  (hosts_ fs !! name = None → addrs_ fs !! htonl (first_unused_addr_ fs) = None) →
  gethostbyname name fs = Ok a fs' →
  host_table_ok fs'.
Proof.
  intros [Hseed Hback] Hfresh Hcall. split.
  - by eapply gethostbyname_keeps_localhost.
  - destruct (hosts_ fs !! name) as [b|] eqn:Hname.
    + rewrite (gethostbyname_hit fs name b) in Hcall by done.
      injection Hcall as _ <-. done.
    + rewrite gethostbyname_miss in Hcall by done.
      injection Hcall as _ <-. simpl. intros n b Hn.
      destruct (decide (n = name)) as [->|Hne].
      * rewrite lookup_insert_eq in Hn. injection Hn as <-. apply lookup_insert_eq.
      * rewrite lookup_insert_ne in Hn by done.
        apply Hback in Hn as Hb.
        rewrite lookup_insert_ne; [done|].
        intros <-. rewrite Hfresh in Hb by done. done.
Qed.

Lemma AddPathHandler_absent (fs : FileSystem) (path : string) (h : option HandlerId) :
  paths_ fs !! path = None →
  AddPathHandler path h fs = Ok tt (set_paths <[path := h]> fs).
Proof.
  intros H. unfold AddPathHandler, assert. unfold_m.
  by rewrite bool_decide_eq_true_2.
Qed.

(** The constructor runs to its end, in a build with assertions too. *)
Lemma construct_spec :
  construct empty_fs
  = Ok tt (mkFileSystem
             (<["/dev/random"%string :=
                  Some (if irt_random_available then DevRandomHandler else JsFileHandler)]>
                (<["/dev/tty"%string := Some DevTtyHandler]>
                   (<["/dev/null"%string := Some DevNullHandler]> ∅)))
             (<[2 := Ptr (new_JsFile 2)]>
                (<[1 := Ptr (new_JsFile 1)]> (<[0 := Ptr (new_JsFile 0)]> ∅)))
             (<["localhost"%string := htonl 0x7F000001]> ∅)
             (<[htonl 0x7F000001 := "localhost"%string]> ∅)
             kFirstAddr 0 []).
Proof.
  unfold construct. unfold_m.
  repeat (rewrite AddFileStream_free
            by (left; simpl; rewrite ?lookup_insert_ne by done; apply lookup_empty);
          cbn beta iota).
  repeat (rewrite AddPathHandler_absent
            by (simpl; rewrite ?lookup_insert_ne by done; apply lookup_empty);
          cbn beta iota).
  destruct irt_random_available;
    rewrite AddPathHandler_absent
      by (simpl; rewrite ?lookup_insert_ne by done; apply lookup_empty);
    reflexivity.
Qed.

(** The constructor establishes the invariant. *)
Lemma construct_host_table_inv :
  0 ≤ kFirstAddr ≤ 0x7F000001 → host_table_inv initial_fs.
Proof.
  intros Hk. unfold initial_fs. rewrite construct_spec.
  unfold host_table_inv, host_table_ok.
  cbn [final_state hosts_ addrs_ first_unused_addr_].
  split; [split|split; [lia|]].
  - apply lookup_insert_eq.
  - intros n a. rewrite lookup_insert_Some.
    intros [[<- <-]|[_ H]]; [apply lookup_insert_eq|by rewrite lookup_empty in H].
  - intros a n. rewrite lookup_insert_Some.
    intros [[<- <-]|[_ H]]; [by left|by rewrite lookup_empty in H].
Qed.

(** A resolve keeps the invariant as long as the counter is below the
    loopback address. *)
Lemma gethostbyname_keeps_inv (fs fs' : FileSystem) (name : string) (a : Z) :
  0 ≤ kFirstAddr →
  host_table_inv fs →
  first_unused_addr_ fs < 0x7F000001 →
  gethostbyname name fs = Ok a fs' →
  host_table_inv fs'.
Proof.
  intros Hk (Hok & Hcnt & Hdrawn) Hlt Hcall.
  assert (Hfresh : addrs_ fs !! htonl (first_unused_addr_ fs) = None).
  { destruct (addrs_ fs !! htonl (first_unused_addr_ fs)) as [n|] eqn:Hn; [|done].
    exfalso. apply Hdrawn in Hn as [Heq|(c & Hc & Heq)];
      apply htonl_inj in Heq; rewrite !wrap32_small in Heq; lia. }
  split; [by eapply gethostbyname_keeps_ok|].
  destruct (hosts_ fs !! name) as [b|] eqn:Hname.
  - rewrite (gethostbyname_hit fs name b) in Hcall by done.
    injection Hcall as _ <-. done.
  - rewrite gethostbyname_miss in Hcall by done.
    injection Hcall as _ <-. simpl.
    rewrite wrap32_small by lia. split; [lia|].
    intros b n. rewrite lookup_insert_Some. intros [[<- _]|[_ Hb]].
    + right. exists (first_unused_addr_ fs). split; [lia|done].
    + apply Hdrawn in Hb as [?|(c & ? & ?)]; [by left|].
      right. exists c. split; [lia|done].
Qed.

(** C9. In a host table whose two maps agree (as the constructor leaves them
    and every resolve below the loopback address keeps them):
    ["localhost"] resolves to the seeded loopback address and changes
    nothing; every resolve returns an address, never fails, and leaves the
    name mapped to that address and the address mapped back to the name; and
    two different names unknown to the table, resolved one after the other,
    get the two different addresses [htonl c] and [htonl (c + 1)] of the
    counter [c], which has advanced by two (modulo [2 ^ 32]). *)
Theorem C9_host_address_table (fs : FileSystem) (Hok : host_table_ok fs) :
  gethostbyname "localhost" fs = Ok (htonl 0x7F000001) fs
  ∧ (∀ name, ∃ a fs',
       gethostbyname name fs = Ok a fs'
       ∧ hosts_ fs' !! name = Some a
       ∧ addrs_ fs' !! a = Some name
       ∧ (hosts_ fs !! name = None →
          hosts_ fs' = <[name := a]> (hosts_ fs)
          ∧ addrs_ fs' = <[a := name]> (addrs_ fs)))
  ∧ (∀ n1 n2,
       n1 ≠ n2 → hosts_ fs !! n1 = None → hosts_ fs !! n2 = None →
       ∃ a1 fs1 a2 fs2,
         gethostbyname n1 fs = Ok a1 fs1
         ∧ gethostbyname n2 fs1 = Ok a2 fs2
         ∧ a1 ≠ a2
         ∧ a1 = htonl (first_unused_addr_ fs)
         ∧ a2 = htonl (first_unused_addr_ fs + 1)
         ∧ first_unused_addr_ fs1 = wrap32 (first_unused_addr_ fs + 1)
         ∧ first_unused_addr_ fs2 = wrap32 (first_unused_addr_ fs + 2)).
Proof.
  destruct Hok as [Hseed Hback]. split; [by apply gethostbyname_hit|]. split.
  - intros name. destruct (hosts_ fs !! name) as [b|] eqn:Hname.
    + exists b, fs. rewrite (gethostbyname_hit fs name b) by done.
      split; [done|]. split; [done|]. split; [by apply Hback|].
      intros; congruence.
    + eexists _, _. rewrite gethostbyname_miss by done.
      split; [done|]. simpl. rewrite !lookup_insert_eq. done.
  - intros n1 n2 Hne H1 H2.
    eexists _, _, _, _. rewrite gethostbyname_miss by done.
    split; [done|].
    rewrite gethostbyname_miss by (simpl; by rewrite lookup_insert_ne).
    split; [done|]. simpl. rewrite htonl_wrap32.
    repeat split.
    + intros Heq. apply htonl_inj in Heq. unfold wrap32 in Heq.
      change (2 ^ 32) with 4294967296 in Heq.
      revert Heq. Z.div_mod_to_equations. lia.
    + unfold wrap32. rewrite Zplus_mod_idemp_l. f_equal. lia.
Qed.

(** ** The readiness multiplexer *)

Section IsReady_loop.
Variable is_ready : StreamId → bool.

(** The loop never changes the table. *)
Lemma IsReady_loop_state (apply : bool) (n : nat) (i : Z) (fds : fd_set) (nset : Z)
    (fs fs' : FileSystem) (r : Z) (fds' : fd_set) :
  IsReady_loop is_ready apply n i fds nset fs = Ok (r, fds') fs' → fs' = fs.
Proof.
  revert i fds nset. induction n as [|n IH]; intros i fds nset; simpl.
  - unfold_m. by intros [= _ _ <-].
  - destruct (Z.testbit fds i); [|apply IH].
    unfold GetStream. unfold_m.
    destruct (default NULL (streams_ fs !! i)); [by intros [= _ _ <-]|done|].
    destruct (is_ready s); [|apply IH].
    destruct apply; simpl; [apply IH|by intros [= _ _ <-]].
Qed.

(** Without the sentinel among the descriptors looked at, the loop ends. *)
Lemma IsReady_loop_total (apply : bool) (n : nat) (i : Z) (fds : fd_set) (nset : Z)
    (fs : FileSystem) :
  (∀ j, i ≤ j < i + Z.of_nat n → Z.testbit fds j = true →
        streams_ fs !! j ≠ Some kBadFileStream) →
  ∃ r fds', IsReady_loop is_ready apply n i fds nset fs = Ok (r, fds') fs.
Proof.
  revert i fds nset. induction n as [|n IH]; intros i fds nset Hnb; simpl.
  - by eexists _, _.
  - assert (Hnext : ∀ fds0,
      (∀ j, Z.testbit fds0 j = true → Z.testbit fds j = true) →
      ∀ j, i + 1 ≤ j < i + 1 + Z.of_nat n → Z.testbit fds0 j = true →
           streams_ fs !! j ≠ Some kBadFileStream).
    { intros fds0 Hsub j Hj Hbit. apply Hnb; [lia|by apply Hsub]. }
    destruct (Z.testbit fds i) eqn:Hbit; [|apply IH, Hnext; auto].
    unfold GetStream. unfold_m.
    destruct (streams_ fs !! i) as [[| |s]|] eqn:Hs; simpl.
    + by eexists _, _.
    + exfalso. eapply (Hnb i); [lia|done|done].
    + destruct (is_ready s).
      * destruct apply; simpl; [apply IH, Hnext; auto|by eexists _, _].
      * apply IH, Hnext. intros j. destruct apply; [|done].
        rewrite Z.clearbit_eqb. by intros [? _]%andb_true_iff.
    + by eexists _, _.
Qed.

(** The pass with [apply = true]: it returns -1 at a descriptor without a
    stream, and otherwise the count of the bits it left set, which are the
    bits of the descriptors that are ready. *)
Lemma IsReady_loop_apply (n : nat) (i : Z) (fds : fd_set) (nset : Z)
    (fs fs' : FileSystem) (r : Z) (fds' : fd_set) :
  IsReady_loop is_ready true n i fds nset fs = Ok (r, fds') fs' →
  (∀ j, ¬ (i ≤ j < i + Z.of_nat n) → Z.testbit fds' j = Z.testbit fds j)
  ∧ ((r = -1 ∧ ∃ j, i ≤ j < i + Z.of_nat n ∧ Z.testbit fds j = true
                    ∧ default NULL (streams_ fs !! j) = NULL)
     ∨ (r = nset + count_bits n i fds'
        ∧ (∀ j, i ≤ j < i + Z.of_nat n →
                Z.testbit fds' j = Z.testbit fds j && ready_at (streams_ fs) is_ready j)
        ∧ (∀ j, i ≤ j < i + Z.of_nat n → Z.testbit fds j = true →
                ∃ s, streams_ fs !! j = Some (Ptr s)))).
Proof.
  revert i fds nset. induction n as [|n IH]; intros i fds nset; simpl.
  - unfold_m. intros [= <- <- _]. split; [done|]. right.
    split; [lia|]. split; intros; lia.
  - destruct (Z.testbit fds i) eqn:Hbit.
    + unfold GetStream. unfold_m.
      destruct (streams_ fs !! i) as [[| |s]|] eqn:Hs; simpl; try done.
      * intros [= <- <- _]. split; [done|]. left. split; [done|].
        exists i. rewrite Hs. repeat split; [lia|lia|done].
      * destruct (is_ready s) eqn:Hrdy; simpl.
        -- intros Hrun. apply IH in Hrun as [Hframe Hcases].
           split; [intros j Hj; apply Hframe; lia|].
           destruct Hcases as [[-> (j & Hj & Hjbit & Hjnull)]|(-> & Hmem & Hreal)].
           ++ left. split; [done|]. exists j. repeat split; [lia|lia|done|done].
           ++ right. rewrite (Hframe i) by lia. rewrite Hbit.
              split; [lia|]. split.
              ** intros j Hj. destruct (decide (j = i)) as [->|].
                 --- rewrite (Hframe i) by lia. unfold ready_at. by rewrite Hbit, Hs, Hrdy.
                 --- apply Hmem. lia.
              ** intros j Hj Hjbit. destruct (decide (j = i)) as [->|]; [eauto|].
                 apply Hreal; [lia|done].
        -- intros Hrun. apply IH in Hrun as [Hframe Hcases].
           assert (Hi : Z.testbit fds' i = false)
             by (rewrite (Hframe i) by lia; apply Z.clearbit_eq).
           split.
           { intros j Hj. rewrite Hframe by lia. apply Z.clearbit_neq. lia. }
           destruct Hcases as [[-> (j & Hj & Hjbit & Hjnull)]|(-> & Hmem & Hreal)].
           ++ left. split; [done|]. exists j.
              rewrite Z.clearbit_eqb in Hjbit. apply andb_true_iff in Hjbit as [? _].
              repeat split; [lia|lia|done|done].
           ++ right. rewrite Hi. split; [lia|]. split.
              ** intros j Hj. destruct (decide (j = i)) as [->|].
                 --- unfold ready_at. by rewrite Hi, Hbit, Hs, Hrdy.
                 --- rewrite Hmem by lia. f_equal. apply Z.clearbit_neq. lia.
              ** intros j Hj Hjbit. destruct (decide (j = i)) as [->|]; [eauto|].
                 apply Hreal; [lia|]. rewrite Z.clearbit_neq by lia. done.
      * intros [= <- <- _]. split; [done|]. left. split; [done|].
        exists i. rewrite Hs. repeat split; [lia|lia|done].
    + intros Hrun. apply IH in Hrun as [Hframe Hcases].
      split; [intros j Hj; apply Hframe; lia|].
      destruct Hcases as [[-> (j & Hj & Hjbit & Hjnull)]|(-> & Hmem & Hreal)].
      * left. split; [done|]. exists j. repeat split; [lia|lia|done|done].
      * right. rewrite (Hframe i) by lia. rewrite Hbit.
        split; [lia|]. split.
        -- intros j Hj. destruct (decide (j = i)) as [->|].
           ++ rewrite (Hframe i) by lia. by rewrite Hbit.
           ++ apply Hmem. lia.
        -- intros j Hj Hjbit. destruct (decide (j = i)) as [->|]; [congruence|].
           apply Hreal; [lia|done].
Qed.

(** The pass with [apply = false] leaves the set alone.  It returns 1 at a
    ready descriptor, -1 at a descriptor without a stream, and otherwise the
    count it started from, having found every descriptor it looked at bound
    to a stream that is not ready. *)
Lemma IsReady_loop_probe (n : nat) (i : Z) (fds : fd_set) (nset : Z)
    (fs fs' : FileSystem) (r : Z) (fds' : fd_set) :
  IsReady_loop is_ready false n i fds nset fs = Ok (r, fds') fs' →
  fds' = fds
  ∧ ((r = 1 ∧ ∃ j, i ≤ j < i + Z.of_nat n ∧ Z.testbit fds j = true
                   ∧ ready_at (streams_ fs) is_ready j = true)
     ∨ (r = -1 ∧ ∃ j, i ≤ j < i + Z.of_nat n ∧ Z.testbit fds j = true
                      ∧ default NULL (streams_ fs !! j) = NULL)
     ∨ (r = nset
        ∧ ∀ j, i ≤ j < i + Z.of_nat n → Z.testbit fds j = true →
               ∃ s, streams_ fs !! j = Some (Ptr s) ∧ is_ready s = false)).
Proof.
  revert i nset. induction n as [|n IH]; intros i nset; simpl.
  - unfold_m. intros [= <- <- _]. split; [done|]. right. right.
    split; [done|]. intros; lia.
  - assert (Hlift : ∀ r0 nset0,
      ((r0 = 1 ∧ ∃ j, i + 1 ≤ j < i + 1 + Z.of_nat n ∧ Z.testbit fds j = true
                      ∧ ready_at (streams_ fs) is_ready j = true)
       ∨ (r0 = -1 ∧ ∃ j, i + 1 ≤ j < i + 1 + Z.of_nat n ∧ Z.testbit fds j = true
                         ∧ default NULL (streams_ fs !! j) = NULL)
       ∨ (r0 = nset0
          ∧ ∀ j, i + 1 ≤ j < i + 1 + Z.of_nat n → Z.testbit fds j = true →
                 ∃ s, streams_ fs !! j = Some (Ptr s) ∧ is_ready s = false)) →
      (Z.testbit fds i = true →
         ∃ s, streams_ fs !! i = Some (Ptr s) ∧ is_ready s = false) →
      ((r0 = 1 ∧ ∃ j, i ≤ j < i + Z.of_nat (S n) ∧ Z.testbit fds j = true
                      ∧ ready_at (streams_ fs) is_ready j = true)
       ∨ (r0 = -1 ∧ ∃ j, i ≤ j < i + Z.of_nat (S n) ∧ Z.testbit fds j = true
                         ∧ default NULL (streams_ fs !! j) = NULL)
       ∨ (r0 = nset0
          ∧ ∀ j, i ≤ j < i + Z.of_nat (S n) → Z.testbit fds j = true →
                 ∃ s, streams_ fs !! j = Some (Ptr s) ∧ is_ready s = false))).
    { intros r0 nset0 [[-> (j & Hj & ? & ?)]|[[-> (j & Hj & ? & ?)]|[-> Hq]]] Hi.
      - left. split; [done|]. exists j. repeat split; [lia|lia|done|done].
      - right. left. split; [done|]. exists j. repeat split; [lia|lia|done|done].
      - right. right. split; [done|]. intros j Hj Hjbit.
        destruct (decide (j = i)) as [->|]; [auto|]. apply Hq; [lia|done]. }
    destruct (Z.testbit fds i) eqn:Hbit.
    + unfold GetStream. unfold_m.
      destruct (streams_ fs !! i) as [[| |s]|] eqn:Hs; simpl; try done.
      * intros [= <- <- _]. split; [done|]. right. left. split; [done|].
        exists i. rewrite Hs. repeat split; [lia|lia|done].
      * destruct (is_ready s) eqn:Hrdy; simpl.
        -- intros [= <- <- _]. split; [done|]. left. split; [done|].
           exists i. unfold ready_at. rewrite Hs. repeat split; [lia|lia|done|done].
        -- intros Hrun. apply IH in Hrun as [-> Hcases]. split; [done|].
           apply Hlift; [done|]. eauto.
      * intros [= <- <- _]. split; [done|]. right. left. split; [done|].
        exists i. rewrite Hs. repeat split; [lia|lia|done].
    + intros Hrun. apply IH in Hrun as [-> Hcases]. split; [done|].
      apply Hlift; [done|]. done.
Qed.

(** Whatever a pass returns, and wherever it stops: the only bits it changes
    are bits it clears, of descriptors it looked at whose stream is not
    ready. *)
Lemma IsReady_loop_cleared (apply : bool) (n : nat) (i : Z) (fds : fd_set) (nset : Z)
    (fs fs' : FileSystem) (r : Z) (fds' : fd_set) :
  IsReady_loop is_ready apply n i fds nset fs = Ok (r, fds') fs' →
  ∀ j, Z.testbit fds' j ≠ Z.testbit fds j →
       i ≤ j < i + Z.of_nat n ∧ Z.testbit fds j = true ∧ Z.testbit fds' j = false
       ∧ ∃ st, streams_ fs !! j = Some (Ptr st) ∧ is_ready st = false.
Proof.
  revert i fds nset. induction n as [|n IH]; intros i fds nset; simpl.
  - unfold_m. by intros [= _ <- _] j.
  - assert (Hstep : ∀ nset0,
      IsReady_loop is_ready apply n (i + 1) fds nset0 fs = Ok (r, fds') fs' →
      ∀ j, Z.testbit fds' j ≠ Z.testbit fds j →
           i ≤ j < i + Z.of_nat (S n) ∧ Z.testbit fds j = true
           ∧ Z.testbit fds' j = false
           ∧ ∃ st, streams_ fs !! j = Some (Ptr st) ∧ is_ready st = false).
    { intros nset0 Hrun j Hj.
      destruct (IH _ _ _ Hrun j Hj) as (? & ? & ? & ?). repeat split; [lia|lia|done..]. }
    destruct (Z.testbit fds i) eqn:Hbit; [|by apply Hstep].
    unfold GetStream. unfold_m.
    destruct (streams_ fs !! i) as [[| |s]|] eqn:Hs; simpl; try done;
      [by intros [= _ <- _] j|..|by intros [= _ <- _] j].
    destruct (is_ready s) eqn:Hrdy; simpl.
    + destruct apply; simpl; [by apply Hstep|by intros [= _ <- _] j].
    + destruct apply; [|by apply Hstep].
      intros Hrun j Hj. destruct (decide (j = i)) as [->|Hne].
      * rewrite Hbit in Hj |- *. repeat split; [lia|lia|by destruct (Z.testbit fds' i)|].
        by exists s.
      * rewrite <- (Z.clearbit_neq fds i j) in Hj |- * by done.
        destruct (IH _ _ _ Hrun j Hj) as (? & ? & ? & ?).
        repeat split; [lia|lia|done..].
Qed.

Lemma count_bits_nonneg (n : nat) (i : Z) (s : fd_set) : 0 ≤ count_bits n i s.
Proof.
  revert i. induction n as [|n IH]; intros i; simpl; [lia|].
  specialize (IH (i + 1)). destruct (Z.testbit s i); lia.
Qed.

Lemma count_bits_clear (n : nat) (i : Z) (s : fd_set) :
  (∀ j, i ≤ j < i + Z.of_nat n → Z.testbit s j = false) → count_bits n i s = 0.
Proof.
  revert i. induction n as [|n IH]; intros i H; simpl; [done|].
  rewrite (H i) by lia. rewrite IH; [done|]. intros j Hj. apply H. lia.
Qed.

End IsReady_loop.

Lemma member_Some (nfds : Z) (s : fd_set) (j : Z) :
  member nfds (Some s) j = true ↔ 0 ≤ j < nfds ∧ Z.testbit s j = true.
Proof.
  unfold member. rewrite !andb_true_iff, Z.leb_le, Z.ltb_lt. tauto.
Qed.

Lemma IsReady_state (nfds : Z) (fds fds' : option fd_set) (is_ready : StreamId → bool)
    (apply : bool) (fs fs' : FileSystem) (r : Z) :
  IsReady nfds fds is_ready apply fs = Ok (r, fds') fs' → fs' = fs.
Proof.
  unfold IsReady. destruct fds as [s|]; unfold_m; [|by intros [= _ _ <-]].
  destruct (IsReady_loop _ _ _ _ _ _ _) as [[r0 s0] fs0|] eqn:Hloop; [|done].
  apply IsReady_loop_state in Hloop as ->. by intros [= _ _ <-].
Qed.

Lemma IsReady_total (nfds : Z) (fds : option fd_set) (is_ready : StreamId → bool)
    (apply : bool) (fs : FileSystem) :
  (∀ j, member nfds fds j = true → streams_ fs !! j ≠ Some kBadFileStream) →
  ∃ r fds', IsReady nfds fds is_ready apply fs = Ok (r, fds') fs.
Proof.
  intros Hnb. unfold IsReady. destruct fds as [s|]; unfold_m; [|by eexists _, _].
  destruct (IsReady_loop_total is_ready apply (Z.to_nat nfds) 0 s 0 fs)
    as (r & s' & ->); [|by eexists _, _].
  intros j Hj Hbit. apply Hnb, member_Some. split; [lia|done].
Qed.

Lemma IsReady_apply (nfds : Z) (fds fds' : option fd_set) (is_ready : StreamId → bool)
    (fs fs' : FileSystem) (r : Z) :
  IsReady nfds fds is_ready true fs = Ok (r, fds') fs' →
  (r = -1 ∧ ∃ j, member nfds fds j = true ∧ default NULL (streams_ fs !! j) = NULL)
  ∨ (r = count_set nfds fds'
     ∧ ready_members nfds (streams_ fs) is_ready fds fds'
     ∧ ∀ j, member nfds fds j = true → ∃ s, streams_ fs !! j = Some (Ptr s)).
Proof.
  unfold IsReady. destruct fds as [s|]; unfold_m.
  - destruct (IsReady_loop _ _ _ _ _ _ _) as [[r0 s0] fs0|] eqn:Hloop; [|done].
    intros [= <- <- _].
    apply IsReady_loop_apply in Hloop
      as [Hframe [[-> (j & Hj & Hbit & Hnull)]|(-> & Hmem & Hreal)]].
    + left. split; [done|]. exists j. split; [|done].
      apply member_Some. split; [lia|done].
    + right. split; [simpl; lia|]. split; [split|].
      * intros j Hj. apply Hmem. lia.
      * intros j Hj. apply Hframe. lia.
      * intros j [Hj Hbit]%member_Some. apply Hreal; [lia|done].
  - intros [= <- <- _]. right. by repeat split.
Qed.

Lemma IsReady_cleared (nfds : Z) (fds fds' : option fd_set) (is_ready : StreamId → bool)
    (apply : bool) (fs fs' : FileSystem) (r : Z) :
  IsReady nfds fds is_ready apply fs = Ok (r, fds') fs' →
  cleared_not_ready nfds (streams_ fs) is_ready fds fds'.
Proof.
  unfold IsReady. destruct fds as [s|]; unfold_m; [|by intros [= _ <- _]].
  destruct (IsReady_loop _ _ _ _ _ _ _) as [[r0 s0] fs0|] eqn:Hloop; [|done].
  intros [= _ <- _] j Hj.
  destruct (IsReady_loop_cleared _ _ _ _ _ _ _ _ _ _ Hloop j Hj) as (Hr & ? & ? & ?).
  repeat split; [lia|lia|done..].
Qed.

Lemma IsReady_probe (nfds : Z) (fds fds' : option fd_set) (is_ready : StreamId → bool)
    (fs fs' : FileSystem) (r : Z) :
  IsReady nfds fds is_ready false fs = Ok (r, fds') fs' →
  fds' = fds
  ∧ ((r = 1 ∧ ∃ j, member nfds fds j = true ∧ ready_at (streams_ fs) is_ready j = true)
     ∨ (r = -1 ∧ ∃ j, member nfds fds j = true ∧ default NULL (streams_ fs !! j) = NULL)
     ∨ (r = 0 ∧ quiet nfds (streams_ fs) is_ready fds)).
Proof.
  unfold IsReady. destruct fds as [s|]; unfold_m.
  - destruct (IsReady_loop _ _ _ _ _ _ _) as [[r0 s0] fs0|] eqn:Hloop; [|done].
    intros [= <- <- _].
    apply IsReady_loop_probe in Hloop as [-> Hcases]. split; [done|].
    destruct Hcases as [[-> (j & Hj & ? & ?)]|[[-> (j & Hj & ? & ?)]|[-> Hq]]].
    + left. split; [done|]. exists j. split; [|done]. apply member_Some. split; [lia|done].
    + right. left. split; [done|]. exists j. split; [|done].
      apply member_Some. split; [lia|done].
    + right. right. split; [done|].
      intros j [Hj Hbit]%member_Some. apply Hq; [lia|done].
  - intros [= <- <- _]. split; [done|]. right. right. split; [done|].
    intros j Hj. done.
Qed.

(** A descriptor without a stream among those looked at, in a table without
    the sentinel: the probing pass answers non-zero, the applying pass -1. *)
Lemma IsReady_null_member (nfds : Z) (fds : option fd_set) (is_ready : StreamId → bool)
    (fs : FileSystem) (j : Z) :
  no_bad_sentinel (streams_ fs) →
  member nfds fds j = true →
  default NULL (streams_ fs !! j) = NULL →
  (∃ r, IsReady nfds fds is_ready false fs = Ok (r, fds) fs ∧ r ≠ 0)
  ∧ (∃ fds', IsReady nfds fds is_ready true fs = Ok (-1, fds') fs).
Proof.
  intros Hnb Hj Hnull. split.
  - destruct (IsReady_total nfds fds is_ready false fs) as (r & fds' & Hrun); [auto|].
    destruct (IsReady_probe _ _ _ _ _ _ _ Hrun) as [-> Hcases].
    exists r. split; [done|].
    destruct Hcases as [[-> _]|[[-> _]|[-> Hq]]]; [done|done|].
    destruct (Hq j Hj) as (s & Hs & _). by rewrite Hs in Hnull.
  - destruct (IsReady_total nfds fds is_ready true fs) as (r & fds' & Hrun); [auto|].
    destruct (IsReady_apply _ _ _ _ _ _ _ Hrun) as [[-> _]|(_ & _ & Hreal)].
    + by exists fds'.
    + destruct (Hreal j Hj) as (s & Hs). by rewrite Hs in Hnull.
Qed.

(** All descriptors looked at have streams that are not ready: the probing
    pass answers 0, the applying pass answers 0 and clears them all. *)
Lemma IsReady_quiet (nfds : Z) (fds : option fd_set) (is_ready : StreamId → bool)
    (fs : FileSystem) :
  quiet nfds (streams_ fs) is_ready fds →
  IsReady nfds fds is_ready false fs = Ok (0, fds) fs
  ∧ ∃ fds', IsReady nfds fds is_ready true fs = Ok (0, fds') fs
            ∧ ready_members nfds (streams_ fs) is_ready fds fds'
            ∧ ∀ j, member nfds fds' j = false.
Proof.
  intros Hq.
  assert (Hnb : ∀ j, member nfds fds j = true → streams_ fs !! j ≠ Some kBadFileStream).
  { intros j Hj. destruct (Hq j Hj) as (s & -> & _). done. }
  assert (Hnr : ∀ j, member nfds fds j = true → ready_at (streams_ fs) is_ready j = false).
  { intros j Hj. destruct (Hq j Hj) as (s & Hs & Hrdy). unfold ready_at. by rewrite Hs. }
  split.
  - destruct (IsReady_total nfds fds is_ready false fs) as (r & fds' & Hrun); [auto|].
    destruct (IsReady_probe _ _ _ _ _ _ _ Hrun)
      as [-> [[-> (j & Hj & Hrdy)]|[[-> (j & Hj & Hnull)]|[-> _]]]]; [| |done].
    + by rewrite Hnr in Hrdy.
    + destruct (Hq j Hj) as (s & Hs & _). by rewrite Hs in Hnull.
  - destruct (IsReady_total nfds fds is_ready true fs) as (r & fds' & Hrun); [auto|].
    exists fds'.
    destruct (IsReady_apply _ _ _ _ _ _ _ Hrun) as [[-> (j & Hj & Hnull)]|(-> & Hmem & _)].
    + destruct (Hq j Hj) as (s & Hs & _). by rewrite Hs in Hnull.
    + assert (Hclear : ∀ j, member nfds fds' j = false).
      { intros j. destruct fds as [s|], fds' as [s'|]; try done.
        destruct Hmem as [Hin _].
        destruct (member nfds (Some s') j) eqn:Hm; [|done].
        apply member_Some in Hm as [Hj Hbit]. rewrite Hin in Hbit by done.
        apply andb_true_iff in Hbit as [Hbit Hrdy].
        rewrite Hnr in Hrdy; [done|]. by apply member_Some. }
      split; [|done].
      rewrite Hrun. do 2 f_equal.
      destruct fds' as [s'|]; [|done]. simpl. apply count_bits_clear.
      intros j Hj. specialize (Hclear j). unfold member in Hclear.
      destruct (Z.testbit s' j); [|done].
      rewrite andb_true_r in Hclear. apply andb_false_iff in Hclear as [?%Z.leb_gt|?%Z.ltb_ge]; lia.
Qed.

Section select.
Variables (w : World) (nfds : Z) (readfds writefds exceptfds : option fd_set).

Lemma any_ready_eq (fs : FileSystem) (a b c : Z) :
  IsReady nfds readfds (is_read_ready w) false fs = Ok (a, readfds) fs →
  IsReady nfds writefds (is_write_ready w) false fs = Ok (b, writefds) fs →
  IsReady nfds exceptfds (is_exception w) false fs = Ok (c, exceptfds) fs →
  any_ready w nfds readfds writefds exceptfds fs
  = Ok (negb (a =? 0) || negb (b =? 0) || negb (c =? 0)) fs.
Proof.
  intros Ha Hb Hc. unfold any_ready. unfold_m. rewrite Ha. cbn [negb].
  destruct (a =? 0); [|done]. cbn [negb]. rewrite Hb. cbn [negb].
  destruct (b =? 0); [|done]. cbn [negb]. by rewrite Hc.
Qed.


Lemma select_apply_eq (fs : FileSystem) (a b c : Z) (r' w' e' : option fd_set) :
  IsReady nfds readfds (is_read_ready w) true fs = Ok (a, r') fs →
  IsReady nfds writefds (is_write_ready w) true fs = Ok (b, w') fs →
  IsReady nfds exceptfds (is_exception w) true fs = Ok (c, e') fs →
  select_apply w nfds readfds writefds exceptfds fs
  = if (a <? 0) || (b <? 0) || (c <? 0)
    then Ok (Returned (-1) r' w' e') (set_errno EBADF fs)
    else Ok (Returned (a + b + c) r' w' e') fs.
Proof.
  intros Ha Hb Hc. unfold select_apply. unfold_m.
  rewrite Ha. cbn beta iota. rewrite Hb. cbn beta iota. rewrite Hc. cbn beta iota.
  by destruct ((a <? 0) || (b <? 0) || (c <? 0)).
Qed.

(** One unfolding of the loop, whatever the list of wake-ups. *)
Lemma select_wait_unfold (wakes : list Wake) (timeout : option (Z * Z)) (w0 : World)
    (fs : FileSystem) :
  select_wait wakes w0 nfds readfds writefds exceptfds timeout fs
  = match any_ready w0 nfds readfds writefds exceptfds fs with
    | Ok true fs' => select_apply w0 nfds readfds writefds exceptfds fs'
    | Ok false fs' =>
        match wakes with
        | [] => Ok Blocked fs'
        | wk :: wakes' =>
            let fs1 := set_streams (λ _, wake_streams wk) fs' in
            match timeout, wait_errno wk with
            | Some _, Some e =>
                if e =? ETIMEDOUT
                then select_apply (wake_world wk) nfds readfds writefds exceptfds
                       (set_errno e fs1)
                else Ok (Returned (-1) readfds writefds exceptfds) (set_errno e fs1)
            | None, Some e =>
                select_wait wakes' (wake_world wk) nfds readfds writefds exceptfds
                  timeout (set_errno e fs1)
            | _, None =>
                select_wait wakes' (wake_world wk) nfds readfds writefds exceptfds
                  timeout fs1
            end
        end
    | Crash f fs' => Crash f fs'
    end.
Proof.
  destruct wakes as [|wk wakes']; simpl; unfold_m.
  - by destruct (any_ready _ _ _ _ _ _) as [[]|].
  - destruct (any_ready _ _ _ _ _ _) as [[]|]; [done| |done].
    destruct timeout, (wait_errno wk); try done.
    by destruct (_ =? _).
Qed.

Lemma probes_total (fs : FileSystem) :
  no_bad_sentinel (streams_ fs) →
  ∃ a b c,
    IsReady nfds readfds (is_read_ready w) false fs = Ok (a, readfds) fs
    ∧ IsReady nfds writefds (is_write_ready w) false fs = Ok (b, writefds) fs
    ∧ IsReady nfds exceptfds (is_exception w) false fs = Ok (c, exceptfds) fs.
Proof.
  intros Hnb.
  destruct (IsReady_total nfds readfds (is_read_ready w) false fs) as (a & r' & Ha); [auto|].
  destruct (IsReady_total nfds writefds (is_write_ready w) false fs) as (b & w' & Hb); [auto|].
  destruct (IsReady_total nfds exceptfds (is_exception w) false fs) as (c & e' & Hc); [auto|].
  destruct (IsReady_probe _ _ _ _ _ _ _ Ha) as [-> _].
  destruct (IsReady_probe _ _ _ _ _ _ _ Hb) as [-> _].
  destruct (IsReady_probe _ _ _ _ _ _ _ Hc) as [-> _].
  by exists a, b, c.
Qed.

Lemma any_ready_null_member (fs : FileSystem) :
  no_bad_sentinel (streams_ fs) →
  null_member nfds readfds writefds exceptfds (streams_ fs) →
  any_ready w nfds readfds writefds exceptfds fs = Ok true fs.
Proof.
  intros Hnb (j & Hj & Hnull).
  destruct (probes_total fs Hnb) as (a & b & c & Ha & Hb & Hc).
  rewrite (any_ready_eq fs a b c) by done. f_equal.
  destruct Hj as [Hj|[Hj|Hj]].
  - destruct (IsReady_null_member nfds readfds (is_read_ready w) fs j Hnb Hj Hnull)
      as [(r & Hr & Hne) _].
    assert (r = a) as -> by congruence.
    apply Z.eqb_neq in Hne. by rewrite Hne.
  - destruct (IsReady_null_member nfds writefds (is_write_ready w) fs j Hnb Hj Hnull)
      as [(r & Hr & Hne) _].
    assert (r = b) as -> by congruence.
    apply Z.eqb_neq in Hne. rewrite Hne. by destruct (a =? 0).
  - destruct (IsReady_null_member nfds exceptfds (is_exception w) fs j Hnb Hj Hnull)
      as [(r & Hr & Hne) _].
    assert (r = c) as -> by congruence.
    apply Z.eqb_neq in Hne. rewrite Hne. by destruct (a =? 0), (b =? 0).
Qed.

Lemma select_apply_null_member (fs : FileSystem) :
  no_bad_sentinel (streams_ fs) →
  null_member nfds readfds writefds exceptfds (streams_ fs) →
  ∃ r' w' e',
    select_apply w nfds readfds writefds exceptfds fs
    = Ok (Returned (-1) r' w' e') (set_errno EBADF fs).
Proof.
  intros Hnb (j & Hj & Hnull).
  destruct (IsReady_total nfds readfds (is_read_ready w) true fs) as (a & r' & Ha); [auto|].
  destruct (IsReady_total nfds writefds (is_write_ready w) true fs) as (b & w' & Hb); [auto|].
  destruct (IsReady_total nfds exceptfds (is_exception w) true fs) as (c & e' & Hc); [auto|].
  exists r', w', e'. rewrite (select_apply_eq fs a b c r' w' e') by done.
  assert (Hneg : (a <? 0) || (b <? 0) || (c <? 0) = true); [|by rewrite Hneg].
  destruct Hj as [Hj|[Hj|Hj]].
  - destruct (IsReady_null_member nfds readfds (is_read_ready w) fs j Hnb Hj Hnull)
      as [_ (x & Hx)].
    assert (a = -1) as -> by congruence. done.
  - destruct (IsReady_null_member nfds writefds (is_write_ready w) fs j Hnb Hj Hnull)
      as [_ (x & Hx)].
    assert (b = -1) as -> by congruence. by destruct (a <? 0).
  - destruct (IsReady_null_member nfds exceptfds (is_exception w) fs j Hnb Hj Hnull)
      as [_ (x & Hx)].
    assert (c = -1) as -> by congruence. by destruct (a <? 0), (b <? 0).
Qed.

Lemma any_ready_quiet (fs : FileSystem) :
  quiet_world nfds (streams_ fs) w readfds writefds exceptfds →
  any_ready w nfds readfds writefds exceptfds fs = Ok false fs.
Proof.
  intros (Hr & Hw & He).
  apply (any_ready_eq fs 0 0 0); by apply IsReady_quiet.
Qed.



(** However the code after the loop returns, each set comes back with
    nothing changed but bits cleared for streams that are not ready. *)
Lemma select_apply_cleared (fs fs' : FileSystem) (n : Z) (r' w' e' : option fd_set) :
  select_apply w nfds readfds writefds exceptfds fs = Ok (Returned n r' w' e') fs' →
  cleared_not_ready nfds (streams_ fs) (is_read_ready w) readfds r'
  ∧ cleared_not_ready nfds (streams_ fs) (is_write_ready w) writefds w'
  ∧ cleared_not_ready nfds (streams_ fs) (is_exception w) exceptfds e'.
Proof.
  intros Hrun.
  destruct (IsReady nfds readfds (is_read_ready w) true fs) as [[a r1] fs1|] eqn:Ha;
    [|by unfold select_apply in Hrun; unfold_m; rewrite Ha in Hrun].
  pose proof (IsReady_state _ _ _ _ _ _ _ _ Ha) as ->.
  destruct (IsReady nfds writefds (is_write_ready w) true fs) as [[b w1] fs1|] eqn:Hb;
    [|by unfold select_apply in Hrun; unfold_m; rewrite Ha in Hrun;
         cbn beta iota in Hrun; rewrite Hb in Hrun].
  pose proof (IsReady_state _ _ _ _ _ _ _ _ Hb) as ->.
  destruct (IsReady nfds exceptfds (is_exception w) true fs) as [[c e1] fs1|] eqn:Hc;
    [|by unfold select_apply in Hrun; unfold_m; rewrite Ha in Hrun;
         cbn beta iota in Hrun; rewrite Hb in Hrun;
         cbn beta iota in Hrun; rewrite Hc in Hrun].
  pose proof (IsReady_state _ _ _ _ _ _ _ _ Hc) as ->.
  rewrite (select_apply_eq fs a b c r1 w1 e1) in Hrun by done.
  apply IsReady_cleared in Ha, Hb, Hc.
  by destruct ((a <? 0) || (b <? 0) || (c <? 0)); injection Hrun as <- <- <- <-.
Qed.

End select.


Lemma set_streams_twice (t1 t2 : gmap Z FileStreamPtr) (fs : FileSystem) :
  set_streams (λ _, t2) (set_streams (λ _, t1) fs) = set_streams (λ _, t2) fs.
Proof. by destruct fs. Qed.


(** C3, as the code has it.  In a table without the sentinel, when one of
    the descriptors that [select] looks at in its read, write or exception
    set is absent from the table, the call returns -1 with [errno = EBADF]:
    no count of ready descriptors is returned, whatever the streams of the
    other descriptors answer, and the call does not wait, whatever the
    timeout.  The three sets are not handed back as they came: the applying
    passes ran before the test on their results.  What they did is bounded:
    a bit that differs was set, is now clear, and is the bit of a descriptor
    below [nfds] whose stream is not ready; nothing else changes, and a null
    set stays null. *)
Theorem C3_select_absent_descriptor (w : World) (wakes : list Wake) (nfds : Z)
    (readfds writefds exceptfds : option fd_set) (timeout : option (Z * Z))
    (fs : FileSystem) (fd : Z) :
  no_bad_sentinel (streams_ fs) →
  member nfds readfds fd = true ∨ member nfds writefds fd = true
    ∨ member nfds exceptfds fd = true →
  streams_ fs !! fd = None →
  ∃ r' w' e',
    select w wakes nfds readfds writefds exceptfds timeout fs
    = Ok (Returned (-1) r' w' e') (set_errno EBADF fs)
    ∧ cleared_not_ready nfds (streams_ fs) (is_read_ready w) readfds r'
    ∧ cleared_not_ready nfds (streams_ fs) (is_write_ready w) writefds w'
    ∧ cleared_not_ready nfds (streams_ fs) (is_exception w) exceptfds e'.
Proof.
  intros Hnb Hmem Habs.
  assert (Hnull : null_member nfds readfds writefds exceptfds (streams_ fs)).
  { exists fd. split; [done|]. by rewrite Habs. }
  unfold select. rewrite select_wait_unfold, any_ready_null_member by done.
  destruct (select_apply_null_member w nfds readfds writefds exceptfds fs Hnb Hnull)
    as (r' & w' & e' & Hrun).
  exists r', w', e'. split; [done|]. by apply select_apply_cleared in Hrun.
Qed.


(** ** The sentinel never enters the table *)

Lemma no_bad_insert (m : gmap Z FileStreamPtr) (fd : Z) (p : FileStreamPtr) :
  no_bad_sentinel m → p ≠ kBadFileStream → no_bad_sentinel (<[fd := p]> m).
Proof.
  intros Hm Hp k. rewrite lookup_insert. case_decide; [congruence|apply Hm].
Qed.

Lemma no_bad_delete (m : gmap Z FileStreamPtr) (fd : Z) :
  no_bad_sentinel m → no_bad_sentinel (delete fd m).
Proof.
  intros Hm k. rewrite lookup_delete. case_decide; [done|apply Hm].
Qed.

Lemma no_bad_empty : no_bad_sentinel ∅.
Proof. intros k. by rewrite lookup_empty. Qed.

Lemma from_option_not_bad (o : option StreamId) :
  from_option Ptr NULL o ≠ kBadFileStream.
Proof. by destruct o. Qed.

Ltac no_bad :=
  simpl;
  repeat first [ assumption
               | apply no_bad_delete
               | apply no_bad_insert;
                 [|first [discriminate | apply from_option_not_bad]] ].

Lemma perform_no_bad (c : Call) (fs : FileSystem) :
  no_bad_sentinel (streams_ fs) →
  no_bad_sentinel (streams_ (final_state (perform c fs))).
Proof.
  intros Hnb.
  destruct c; unfold perform, void, open, close, read, write, seek, dup, dup2, fstat,
    getdents, isatty, fcntl, ioctl, gethostbyname, socket, connect,
    GetFirstUnusedDescriptor, IsKnowDescriptor, GetStream, AddFileStream,
    RemoveFileStream, call, call_dup, assert; unfold_m;
    repeat (case_match; simplify_eq; simpl in *); try done; no_bad.
Qed.

Lemma construct_no_bad : no_bad_sentinel (streams_ initial_fs).
Proof.
  unfold initial_fs. rewrite construct_spec. simpl.
  repeat (apply no_bad_insert; [|done]). apply no_bad_empty.
Qed.

(** No sequence of calls on the constructed table puts the sentinel in it. *)
Lemma perform_all_no_bad (cs : list Call) (fs : FileSystem) :
  no_bad_sentinel (streams_ fs) →
  no_bad_sentinel (streams_ (final_state (perform_all cs fs))).
Proof.
  revert fs. induction cs as [|c cs IH]; intros fs Hnb; simpl; [done|].
  unfold_m. pose proof (perform_no_bad c fs Hnb) as Hstep.
  destruct (perform c fs) as [[] fs1|f fs1]; simpl in *; [by apply IH|done].
Qed.

(** Whatever the table, [dup2] calls nothing on a live stream but [dup] on
    the source: the stream it replaces is never closed. *)
Lemma dup2_never_closes (fs : FileSystem) (fd newfd : Z) :
  calls (final_state (dup2 fd newfd fs)) = calls fs
  ∨ ∃ s, streams_ fs !! fd = Some (Ptr s)
         ∧ calls (final_state (dup2 fd newfd fs)) = calls fs ++ [EvCall s (MDup newfd)].
Proof.
  destruct (streams_ fs !! fd) as [[| |s]|] eqn:Hs;
    try (left; unfold dup2, GetStream; unfold_m; by rewrite Hs).
  destruct (streams_ fs !! newfd) as [p|] eqn:Hp.
  - destruct (decide (p = NULL)) as [->|Hnn].
    + left. rewrite (dup2_null_target fs fd newfd s); [done|done|by rewrite Hp].
    + rewrite (dup2_live_target fs fd newfd s p) by done.
      destruct NDEBUG; [|by left].
      right. exists s. split; [done|]. by destruct (stream_dup s newfd).
  - left. rewrite (dup2_null_target fs fd newfd s); [done|done|by rewrite Hp].
Qed.

(** Only [gethostbyname] touches the host table. *)
Lemma perform_host_table (c : Call) (fs : FileSystem) :
  (∀ name, c ≠ Cgethostbyname name) →
  hosts_ (final_state (perform c fs)) = hosts_ fs
  ∧ addrs_ (final_state (perform c fs)) = addrs_ fs
  ∧ first_unused_addr_ (final_state (perform c fs)) = first_unused_addr_ fs.
Proof.
  intros Hc.
  destruct c; try (by destruct (Hc name));
    unfold perform, void, open, close, read, write, seek, dup, dup2, fstat,
    getdents, isatty, fcntl, ioctl, socket, connect,
    GetFirstUnusedDescriptor, IsKnowDescriptor, GetStream, AddFileStream,
    RemoveFileStream, call, call_dup, assert; unfold_m;
    repeat (case_match; simplify_eq; simpl in * ); done.
Qed.

Lemma perform_host_table_inv (c : Call) (fs : FileSystem) :
  0 ≤ kFirstAddr →
  host_table_inv fs →
  first_unused_addr_ fs < 0x7F000001 →
  host_table_inv (final_state (perform c fs))
  ∧ first_unused_addr_ (final_state (perform c fs)) ≤ first_unused_addr_ fs + 1.
Proof.
  intros Hk Hinv Hlt.
  assert (Hcase : (∃ name, c = Cgethostbyname name) ∨ ∀ name, c ≠ Cgethostbyname name)
    by (destruct c; first [by left; eexists | by right]).
  destruct Hcase as [[name ->]|Hother].
  - simpl. unfold void. unfold_m.
    destruct (hosts_ fs !! name) as [a|] eqn:Hname.
    + rewrite (gethostbyname_hit fs name a) by done. simpl. split; [done|lia].
    + pose proof (gethostbyname_keeps_inv fs _ name _ Hk Hinv Hlt
                    (gethostbyname_miss fs name Hname)) as Hinv'.
      rewrite gethostbyname_miss by done. simpl. split; [done|].
      destruct Hinv as (_ & ? & _). rewrite wrap32_small; lia.
  - destruct (perform_host_table c fs Hother) as (Hh & Ha & Hc).
    split; [|lia].
    destruct Hinv as ((Hseed & Hback) & Hcnt & Hdrawn).
    unfold host_table_inv, host_table_ok. rewrite Hh, Ha, Hc. done.
Qed.

(** The two maps agree after every sequence of calls that is too short to
    take the counter to the loopback address. *)
Lemma perform_all_host_table_ok (cs : list Call) (fs : FileSystem) :
  0 ≤ kFirstAddr →
  host_table_inv fs →
  first_unused_addr_ fs + Z.of_nat (length cs) ≤ 0x7F000001 →
  host_table_ok (final_state (perform_all cs fs)).
Proof.
  intros Hk. revert fs. induction cs as [|c cs IH]; intros fs Hinv Hlen; simpl.
  - by destruct Hinv.
  - unfold_m. simpl in Hlen.
    destruct (perform_host_table_inv c fs Hk Hinv) as [Hinv' Hcnt]; [lia|].
    destruct (perform c fs) as [[] fs1|f fs1]; simpl in *.
    + apply IH; [done|lia].
    + by destruct Hinv'.
Qed.

End properties.

(** * The model at a concrete table

    The table the constructor builds has descriptors 0, 1 and 2 bound to the
    streams 10, 11 and 12. *)

Lemma sample_fs_no_bad : no_bad_sentinel (streams_ sample_fs).
Proof. apply construct_no_bad. Qed.

Lemma sample_fs_host_table_ok : host_table_ok sample_fs.
Proof.
  apply (construct_host_table_inv (P := sample_platform false) (B := sample_backend true)).
  simpl. lia.
Qed.

Lemma C1_allocation_smallest_free_witness :
  ∃ fd, GetFirstUnusedDescriptor (P := sample_platform false) sample_fs = Ok fd sample_fs
        ∧ streams_ sample_fs !! fd = None
        ∧ 2 < fd.
Proof.
  assert (Hoffset : 2 < kFileIDOffset (Platform := sample_platform false))
    by (vm_compute; reflexivity).
  destruct (C1_allocation_smallest_free (P := sample_platform false)
              (B := sample_backend true) sample_fs Hoffset)
    as (fd & Hfd & _ & Hnone & _ & _ & Hgt & _).
  exists fd. repeat split; assumption.
Defined.

Lemma sample_quiet :
  quiet_world 3 (streams_ sample_fs) idle_world (Some 7) None None.
Proof.
  repeat split; intros j Hj; [|done|done].
  assert (Hcases : j = 0 ∨ j = 1 ∨ j = 2) by (unfold member in Hj; lia).
  destruct Hcases as [Hc|[Hc|Hc]]; subst j;
    eexists; (split; [vm_compute; reflexivity|reflexivity]).
Qed.

(** C2 at [dup2(100, 0)] after [open("/dev/null", O_WRONLY)] returned 100:
    descriptor 0 holds the live stream 10.  A build with assertions stops at
    the [assert] of [AddFileStream]; a build without them returns 0 with
    descriptor 0 bound to the duplicate of stream 1100, and the only call
    made on a stream is that [dup]: stream 10 was neither closed nor
    released. *)
Theorem C2_dup2_occupied_target_not_closed :
  dup2 (P := sample_platform false) (B := sample_backend true) 100 0 sample_devnull_fs
  = Crash AssertFailed sample_devnull_fs
  ∧ ∃ fs',
      dup2 (P := sample_platform true) (B := sample_backend true) 100 0 sample_devnull_fs
      = Ok 0 fs'
      ∧ streams_ sample_devnull_fs !! 0 = Some (Ptr 10%positive)
      ∧ calls fs' = calls sample_devnull_fs ++ [EvCall 1100%positive (MDup 0)]
      ∧ (EvCall 10%positive MClose ∉ calls fs')
      ∧ (EvCall 10%positive MRelease ∉ calls fs')
      ∧ streams_ fs' !! 0 = Some (Ptr 2000%positive).
Proof.
  split; [vm_compute; reflexivity|].
  eexists. split; [vm_compute; reflexivity|].
  split; [vm_compute; reflexivity|].
  split; [vm_compute; reflexivity|].
  split; [|split]; [| |vm_compute; reflexivity].
  - intros Hin. apply list_elem_of_In in Hin. vm_compute in Hin.
    destruct Hin as [[=]|[[=]|[]]].
  - intros Hin. apply list_elem_of_In in Hin. vm_compute in Hin.
    destruct Hin as [[=]|[[=]|[]]].
Qed.

(** C10 at [dup2(0, 7)] on the constructed table, where descriptor 7 is
    absent: the branch that closes the target runs with the null pointer
    that [GetStream] returned for it, in either build. *)
Theorem C10_dup2_absent_target_null_call (ndebug : bool) :
  dup2 (P := sample_platform ndebug) (B := sample_backend true) 0 7 sample_fs
  = Crash NullDeref sample_fs.
Proof.
  apply (dup2_null_target (P := sample_platform ndebug) (B := sample_backend true)
           sample_fs 0 7 10%positive); vm_compute; reflexivity.
Qed.

(** C7 as stated fails: the slot [socket] leaves behind holds the null
    stream, not the sentinel. *)
Lemma C7_socket_slot_is_not_sentinel :
  ∃ fd fs',
    socket (P := sample_platform false) 2 1 0 sample_fs = Ok fd fs'
    ∧ streams_ fs' !! fd = Some NULL
    ∧ streams_ fs' !! fd ≠ Some kBadFileStream.
Proof.
  exists 100. eexists. split; [vm_compute; reflexivity|].
  split; [vm_compute; reflexivity|]. vm_compute. discriminate.
Qed.

(** C3 as stated fails: a failing [select] does hand back part of a
    readiness result.  With descriptors 0 (readable) and 1 (bound, not
    readable) in the read set and the absent descriptor 5 in the exception
    set, the call returns -1 with [EBADF], and the read set comes back
    changed: it holds exactly the ready descriptor 0. *)
Lemma C3_select_failure_hands_back_ready_set :
  streams_ sample_fs !! 5 = None
  ∧ member 6 (Some 32) 5 = true
  ∧ select (P := sample_platform false) sample_world [] 6 (Some 3) None (Some 32) None
      sample_fs
    = Ok (Returned (-1) (Some 1) None (Some 32)) (set_errno 9 sample_fs)
  ∧ Some 1 ≠ Some 3
  ∧ ready_members 6 (streams_ sample_fs) (is_read_ready sample_world) (Some 3) (Some 1).
Proof.
  split; [vm_compute; reflexivity|]. split; [vm_compute; reflexivity|].
  split; [vm_compute; reflexivity|]. split; [discriminate|]. split.
  - intros j Hj.
    assert (Hcases : j = 0 ∨ j = 1 ∨ j = 2 ∨ j = 3 ∨ j = 4 ∨ j = 5) by lia.
    destruct Hcases as [->|[->|[->|[->|[->| ->]]]]]; vm_compute; reflexivity.
  - intros j Hj. destruct (decide (j < 0)) as [Hneg|Hpos].
    + by rewrite !Z.testbit_neg_r.
    + rewrite !Z.bits_above_log2; [done|lia|simpl; lia|lia|simpl; lia].
Qed.

Lemma C3_select_absent_descriptor_witness :
  ∃ r' w' e',
    select (P := sample_platform false) sample_world [] 6 (Some 3) None (Some 32) None
      sample_fs
    = Ok (Returned (-1) r' w' e') (set_errno 9 sample_fs)
    ∧ cleared_not_ready 6 (streams_ sample_fs) (is_read_ready sample_world) (Some 3) r'
    ∧ cleared_not_ready 6 (streams_ sample_fs) (is_write_ready sample_world) None w'
    ∧ cleared_not_ready 6 (streams_ sample_fs) (is_exception sample_world) (Some 32) e'.
Proof.
  apply (C3_select_absent_descriptor (P := sample_platform false)
           sample_world [] 6 (Some 3) None (Some 32) None sample_fs 5).
  - apply sample_fs_no_bad.
  - right. right. vm_compute. reflexivity.
  - vm_compute. reflexivity.
Defined.


Lemma C5_open_failure_leaves_table_witness :
  open (P := sample_platform false) (B := sample_backend true) "/nonexistent" 0 sample_fs
  = Ok (2, None) sample_fs
  ∧ ∃ fs',
      open (P := sample_platform false) (B := sample_backend true) "/dev/tty" 0 sample_fs
      = Ok (13, None) fs'
      ∧ streams_ fs' = streams_ sample_fs.
Proof.
  split.
  - destruct (C5_open_failure_leaves_table (P := sample_platform false)
                (B := sample_backend true) sample_fs "/nonexistent" 0) as [Hmiss _].
    apply Hmiss. vm_compute. reflexivity.
  - destruct (C5_open_failure_leaves_table (P := sample_platform false)
                (B := sample_backend true) sample_fs "/dev/tty" 0) as [_ Hdecl].
    destruct (Hdecl 2%positive 100) as (fs' & Hrun & Hsame & _).
    + vm_compute. reflexivity.
    + vm_compute. reflexivity.
    + reflexivity.
    + exists fs'. split; assumption.
Defined.

Lemma C6_reserved_or_sentinel_descriptor_witness :
  read (P := sample_platform false) (B := sample_backend true) 100 5 sample_socket_fs
  = Ok 9 sample_socket_fs
  ∧ close (P := sample_platform false) (B := sample_backend true) 100 sample_socket_fs
    = Ok 0 (set_streams (delete 100) sample_socket_fs)
  ∧ close (P := sample_platform false) (B := sample_backend true) 7 sample_fs
    = Ok 9 sample_fs.
Proof.
  destruct (C6_reserved_or_sentinel_descriptor (P := sample_platform false)
              (B := sample_backend true) sample_socket_fs 100) as [Hres _].
  destruct Hres as (Hread & _ & _ & _ & _ & _ & _ & _ & _ & Hclose & _).
  { left. vm_compute. reflexivity. }
  destruct (C6_reserved_or_sentinel_descriptor (P := sample_platform false)
              (B := sample_backend true) sample_fs 7) as [_ Habs].
  destruct Habs as [Hclose7 _].
  { vm_compute. reflexivity. }
  split; [apply Hread|]. split; assumption.
Defined.

Lemma C7_socket_reserved_until_connect_witness :
  ∃ fd fs2,
    socket (P := sample_platform false) 2 1 0 sample_fs
    = Ok fd (set_streams <[fd := NULL]> sample_fs)
    ∧ connect (P := sample_platform false) (B := sample_backend true) fd 16777343 22
        (set_streams <[fd := NULL]> sample_fs)
      = Ok 0 fs2
    ∧ streams_ fs2 !! fd
      = Some (Ptr (new_TCPSocket (Backend := sample_backend true) fd)).
Proof.
  destruct (C7_socket_reserved_until_connect (P := sample_platform false)
              (B := sample_backend true) sample_fs 2 1 0)
    as (fd & Hsock & _ & _ & _ & _ & _ & Hconn).
  destruct (Hconn 16777343 22) as (fs2 & Hrun & Hslot & _).
  { reflexivity. }
  exists fd, fs2. repeat split; assumption.
Defined.

Lemma C8_connect_refused_witness :
  ∃ fs',
    connect (P := sample_platform false) (B := sample_backend false) 100 16777343 22
      sample_socket_fs
    = Ok (-1) fs'
    ∧ errno fs' = 111
    ∧ streams_ fs' = streams_ sample_socket_fs.
Proof.
  destruct (C8_connect_refused (P := sample_platform false) (B := sample_backend false)
              sample_socket_fs 100 16777343 22) as [_ Hrefused].
  - eexists. vm_compute. reflexivity.
  - destruct Hrefused as (fs' & Hrun & Herr & Hsame & _); [reflexivity|].
    exists fs'. repeat split; assumption.
Defined.

Lemma C9_host_address_table_witness :
  gethostbyname "localhost" sample_fs = Ok 16777343 sample_fs
  ∧ ∃ a fs',
      gethostbyname "example.org" sample_fs = Ok a fs'
      ∧ addrs_ fs' !! a = Some "example.org"%string.
Proof.
  destruct (C9_host_address_table sample_fs sample_fs_host_table_ok)
    as (Hlocal & Hany & _).
  split; [exact Hlocal|].
  destruct (Hany "example.org"%string) as (a & fs' & Hrun & _ & Hback & _).
  exists a, fs'. split; assumption.
Defined.

(** A failing [select] has already applied its passes to the sets: with
    descriptor 1 in the read set (bound, not readable) and the absent
    descriptor 5 in the exception set, the call returns -1 with [EBADF] and
    the bit of descriptor 1 is cleared. *)
Example select_failure_clears_bits :
  select (P := sample_platform false) sample_world [] 6 (Some 2) None (Some 32) None sample_fs
  = Ok (Returned (-1) (Some 0) None (Some 32)) (set_errno 9 sample_fs).
Proof. vm_compute. reflexivity. Qed.

(** * Further properties of the descriptor table *)

Section table.
Context `{P : Platform} `{B : Backend}.

(** The least free descriptor is the only descriptor at or above the offset
    that is free with everything between the offset and it taken. *)
Lemma GetFirstUnusedDescriptor_unique (fs : FileSystem) (fd : Z) :
  kFileIDOffset ≤ fd →
  streams_ fs !! fd = None →
  (∀ k, kFileIDOffset ≤ k < fd → is_Some (streams_ fs !! k)) →
  GetFirstUnusedDescriptor fs = Ok fd fs.
Proof.
  intros Hge Hnone Hbelow.
  destruct (GetFirstUnusedDescriptor_spec fs) as (fd' & Hrun & Hge' & Hnone' & Hbelow').
  rewrite Hrun. f_equal.
  destruct (Z.lt_trichotomy fd fd') as [Hlt|[->|Hgt]]; [|done|].
  - destruct (Hbelow' fd) as [p Hp]; [lia|congruence].
  - destruct (Hbelow fd') as [p Hp]; [lia|congruence].
Qed.

(** [close] on a descriptor of the table. *)
Lemma close_present (fs : FileSystem) (fd : Z) (p : FileStreamPtr) :
  streams_ fs !! fd = Some p →
  close fd fs
  = Ok 0 (set_streams (delete fd)
            match p with
            | Ptr s => log (EvCall s MRelease) (log (EvCall s MClose) fs)
            | _ => fs
            end).
Proof.
  intros Hp. unfold close, IsKnowDescriptor, GetStream, call. unfold_m.
  rewrite bool_decide_eq_true_2 by (rewrite Hp; eauto).
  repeat (progress (rewrite ?Hp; cbn [negb default from_option id is_real])).
  destruct p as [| |s]; cbn [is_real];
    by rewrite RemoveFileStream_known by (simpl; rewrite Hp; eauto).
Qed.

(** X1. [close] on a descriptor bound to a live stream returns 0 after
    calling [close] and then [release] on the stream, once each; the slot is
    gone and every other slot is as before; [read], [write] and a second
    [close] on the descriptor then fail with [EBADF]. *)
Theorem X1_close_bound_descriptor (fs : FileSystem) (fd : Z) (s : StreamId) :
  streams_ fs !! fd = Some (Ptr s) →
  ∃ fs',
    close fd fs = Ok 0 fs'
    ∧ calls fs' = calls fs ++ [EvCall s MClose; EvCall s MRelease]
    ∧ streams_ fs' !! fd = None
    ∧ (∀ k, k ≠ fd → streams_ fs' !! k = streams_ fs !! k)
    ∧ (∀ count, read fd count fs' = Ok EBADF fs')
    ∧ (∀ count, write fd count fs' = Ok EBADF fs')
    ∧ close fd fs' = Ok EBADF fs'.
Proof.
  intros Hs. eexists. rewrite (close_present fs fd (Ptr s)) by done.
  split; [done|].
  set (fs' := set_streams _ _).
  assert (Hgone : streams_ fs' !! fd = None) by (simpl; apply lookup_delete_eq).
  split; [simpl; by rewrite <- app_assoc|]. split; [done|]. split.
  { intros k Hk. simpl. by rewrite lookup_delete_ne. }
  split; [|split].
  - intros count. apply read_not_real. by rewrite Hgone.
  - intros count. apply write_not_real. by rewrite Hgone.
  - by apply close_absent.
Qed.

(** A successful [open]: what was registered and what the handler gave. *)
Lemma open_success_inv (fs fs1 : FileSystem) (path : string) (oflag fd : Z) :
  open path oflag fs = Ok (0, Some fd) fs1 →
  ∃ h s,
    paths_ fs !! path = Some (Some h)
    ∧ GetFirstUnusedDescriptor fs = Ok fd fs
    ∧ streams_ fs !! fd = None
    ∧ handler_open h fd path oflag = Some s
    ∧ fs1 = set_streams <[fd := Ptr s]> (log (EvHandlerOpen h fd path oflag) fs).
Proof.
  destruct (GetFirstUnusedDescriptor_spec fs) as (fd0 & Hfd0 & _ & Hnone & _).
  destruct (paths_ fs !! path) as [[h|]|] eqn:Hpath.
  - rewrite (open_registered fs path oflag h fd0) by done.
    destruct (handler_open h fd0 path oflag) as [s|] eqn:Hopen; [|done].
    intros [= <- <-]. by exists h, s.
  - unfold open, AddFileStream, assert. unfold_m. rewrite Hpath, Hfd0. simpl.
    rewrite Hnone. done.
  - unfold open. unfold_m. rewrite Hpath. done.
Qed.

(** X2. A descriptor that a successful [open] returned, closed right away:
    [close] returns 0 and the table, the path registry and the host table are
    exactly what they were before the [open]. *)
Theorem X2_open_close_round_trip (fs fs1 : FileSystem) (path : string) (oflag fd : Z) :
  open path oflag fs = Ok (0, Some fd) fs1 →
  ∃ fs2,
    close fd fs1 = Ok 0 fs2
    ∧ streams_ fs2 = streams_ fs
    ∧ paths_ fs2 = paths_ fs
    ∧ hosts_ fs2 = hosts_ fs
    ∧ addrs_ fs2 = addrs_ fs.
Proof.
  intros Hopen.
  apply open_success_inv in Hopen as (h & s & _ & _ & Hnone & _ & ->).
  eexists. rewrite (close_present _ fd (Ptr s)) by (simpl; apply lookup_insert_eq).
  split; [done|]. simpl. by rewrite delete_insert_id.
Qed.

(** X3. Descriptors are recycled, lowest first: after [close] on a
    descriptor of the table at or above the offset, the next descriptor to be
    handed out is that descriptor or the one that was next before, whichever
    is smaller. *)
Theorem X3_closed_descriptor_reused (fs : FileSystem) (fd fd0 : Z) :
  is_Some (streams_ fs !! fd) →
  kFileIDOffset ≤ fd →
  GetFirstUnusedDescriptor fs = Ok fd0 fs →
  ∃ fs1,
    close fd fs = Ok 0 fs1
    ∧ GetFirstUnusedDescriptor fs1 = Ok (Z.min fd fd0) fs1.
Proof.
  intros [p Hp] Hge Hfd0.
  destruct (GetFirstUnusedDescriptor_spec fs) as (fd' & Hrun & Hge' & Hnone & Hbelow).
  assert (fd' = fd0) as -> by congruence.
  eexists. rewrite (close_present fs fd p) by done. split; [done|].
  set (fs1 := set_streams _ _).
  assert (Htbl : streams_ fs1 = delete fd (streams_ fs)) by (by destruct p).
  assert (fd ≠ fd0) by (intros ->; congruence).
  apply GetFirstUnusedDescriptor_unique; rewrite ?Htbl.
  - lia.
  - destruct (Z.min_spec fd fd0) as [[_ ->]|[_ ->]];
      [apply lookup_delete_eq|by rewrite lookup_delete_ne].
  - intros k Hk. rewrite lookup_delete_ne by lia. apply Hbelow. lia.
Qed.

(** X4. Two allocations in a row: the second descriptor is above the first,
    and it is the least descriptor above the first that was free. *)
Theorem X4_successive_allocations_increase (fs : FileSystem) (a b c a' b' c' : Z) :
  ∃ fd1 fs1 fd2 fs2,
    socket a b c fs = Ok fd1 fs1
    ∧ socket a' b' c' fs1 = Ok fd2 fs2
    ∧ kFileIDOffset ≤ fd1 < fd2
    ∧ streams_ fs !! fd2 = None
    ∧ (∀ k, fd1 < k < fd2 → is_Some (streams_ fs !! k))
    ∧ streams_ fs2 = <[fd2 := NULL]> (<[fd1 := NULL]> (streams_ fs)).
Proof.
  destruct (socket_spec fs a b c) as (fd1 & Hs1 & Hfd1 & Hnone1).
  destruct (GetFirstUnusedDescriptor_spec fs) as (fd1' & Hrun1 & Hge1 & _ & Hbelow1).
  assert (fd1' = fd1) as -> by congruence.
  destruct (socket_spec (set_streams <[fd1 := NULL]> fs) a' b' c')
    as (fd2 & Hs2 & Hfd2 & Hnone2).
  destruct (GetFirstUnusedDescriptor_spec (set_streams <[fd1 := NULL]> fs))
    as (fd2' & Hrun2 & Hge2 & _ & Hbelow2).
  assert (fd2' = fd2) as -> by congruence.
  simpl in Hnone2, Hbelow2.
  assert (fd2 ≠ fd1) by (intros ->; by rewrite lookup_insert_eq in Hnone2).
  rewrite lookup_insert_ne in Hnone2 by done.
  assert (fd1 < fd2).
  { destruct (Z.lt_ge_cases fd1 fd2); [done|].
    destruct (Hbelow1 fd2) as [p Hp]; [lia|congruence]. }
  exists fd1, (set_streams <[fd1 := NULL]> fs), fd2,
    (set_streams <[fd2 := NULL]> (set_streams <[fd1 := NULL]> fs)).
  split; [done|]. split; [exact Hs2|]. split; [lia|]. split; [done|]. split; [|done].
  intros k Hk. specialize (Hbelow2 k). rewrite lookup_insert_ne in Hbelow2 by lia.
  apply Hbelow2. lia.
Qed.

(** X5. [dup] on a live stream whose [dup] returns no stream: the call
    returns [EACCES], the caller's [newfd] already holds the descriptor that
    was reserved for it, and the reservation is gone: the table is the one
    before the call. *)
Theorem X5_dup_refused_leaves_table (fs : FileSystem) (fd newfd : Z) (s : StreamId) :
  streams_ fs !! fd = Some (Ptr s) →
  GetFirstUnusedDescriptor fs = Ok newfd fs →
  stream_dup s newfd = None →
  ∃ fs',
    dup fd fs = Ok (EACCES, Some newfd) fs'
    ∧ streams_ fs' = streams_ fs
    ∧ streams_ fs' !! newfd = None
    ∧ calls fs' = calls fs ++ [EvCall s (MDup newfd)].
Proof.
  intros Hs Hfd Hdup.
  destruct (GetFirstUnusedDescriptor_spec fs) as (fd' & Hrun & _ & Hnone & _).
  assert (fd' = newfd) as -> by congruence.
  eexists. rewrite (dup_real fs fd s newfd) by done. rewrite Hdup.
  by repeat split.
Qed.

End table.

Section frames.
Context `{P : Platform} `{B : Backend}.

(** [open], [dup] and [socket] change no slot but the one they allocate. *)
Lemma open_touches_one (fs : FileSystem) (path : string) (oflag fd0 k : Z) :
  GetFirstUnusedDescriptor fs = Ok fd0 fs →
  k ≠ fd0 →
  streams_ (final_state (open path oflag fs)) !! k = streams_ fs !! k.
Proof.
  intros Hfd0 Hk.
  destruct (GetFirstUnusedDescriptor_spec fs) as (fd' & Hrun & _ & Hnone & _).
  assert (fd' = fd0) as -> by congruence.
  destruct (paths_ fs !! path) as [[h|]|] eqn:Hpath.
  - rewrite (open_registered fs path oflag h fd0) by done.
    destruct (handler_open h fd0 path oflag); simpl; [|done].
    by rewrite lookup_insert_ne.
  - unfold open, AddFileStream, assert. unfold_m. rewrite Hpath, Hfd0. simpl.
    rewrite Hnone. simpl. by rewrite lookup_insert_ne.
  - unfold open. unfold_m. by rewrite Hpath.
Qed.

Lemma dup_touches_one (fs : FileSystem) (fd fd0 k : Z) :
  GetFirstUnusedDescriptor fs = Ok fd0 fs →
  k ≠ fd0 →
  streams_ (final_state (dup fd fs)) !! k = streams_ fs !! k.
Proof.
  intros Hfd0 Hk.
  destruct (GetFirstUnusedDescriptor_spec fs) as (fd' & Hrun & _ & Hnone & _).
  assert (fd' = fd0) as -> by congruence.
  destruct (streams_ fs !! fd) as [[| |s]|] eqn:Hs;
    try (unfold dup, GetStream; unfold_m; by rewrite Hs).
  rewrite (dup_real fs fd s fd0) by done.
  destruct (stream_dup s fd0); simpl; [|done]. by rewrite lookup_insert_ne.
Qed.

Lemma socket_touches_one (fs : FileSystem) (a b c fd0 k : Z) :
  GetFirstUnusedDescriptor fs = Ok fd0 fs →
  k ≠ fd0 →
  streams_ (final_state (socket a b c fs)) !! k = streams_ fs !! k.
Proof.
  intros Hfd0 Hk. destruct (socket_spec fs a b c) as (fd' & -> & Hfd' & _).
  assert (fd' = fd0) as -> by congruence. simpl. by rewrite lookup_insert_ne.
Qed.

(** X6. Allocation never disturbs a descriptor of the table: after [open],
    [dup] or [socket], however the call ends, every descriptor that had a
    slot still has it, with the same stream. *)
Theorem X6_allocation_keeps_descriptors (fs : FileSystem) (k : Z) (p : FileStreamPtr) :
  streams_ fs !! k = Some p →
  (∀ path oflag, streams_ (final_state (open path oflag fs)) !! k = Some p)
  ∧ (∀ fd, streams_ (final_state (dup fd fs)) !! k = Some p)
  ∧ (∀ a b c, streams_ (final_state (socket a b c fs)) !! k = Some p).
Proof.
  intros Hk.
  destruct (GetFirstUnusedDescriptor_spec fs) as (fd0 & Hfd0 & _ & Hnone & _).
  assert (k ≠ fd0) by (intros ->; congruence).
  repeat split; intros.
  - by rewrite (open_touches_one fs path oflag fd0).
  - by rewrite (dup_touches_one fs fd fd0).
  - by rewrite (socket_touches_one fs a b c fd0).
Qed.

(** The operations that hand a call to the stream. *)
Lemma delegate_frame (fd : Z) (m : Method) (bad : M Z) (fs : FileSystem) :
  (∀ fs0, tables_of (final_state (bad fs0)) = tables_of fs0) →
  tables_of
    (final_state
       ((GetStream fd ≫= λ stream, if is_real stream then call stream m else bad) fs))
  = tables_of fs.
Proof.
  intros Hbad. unfold GetStream, call. unfold_m.
  destruct (default NULL (streams_ fs !! fd)); simpl; auto.
Qed.

(** X7. [read], [write], [seek], [fstat], [getdents], [isatty], [fcntl] and
    [ioctl] never change the descriptor table, the path registry or the host
    table, whatever the descriptor; on a descriptor bound to a live stream
    each makes exactly one call, on that stream, and returns what the stream
    returned. *)
Theorem X7_io_calls_forward_and_keep_tables (fs : FileSystem) (fd : Z) :
  ((∀ count, tables_of (final_state (read fd count fs)) = tables_of fs)
   ∧ (∀ count, tables_of (final_state (write fd count fs)) = tables_of fs)
   ∧ (∀ offset whence, tables_of (final_state (seek fd offset whence fs)) = tables_of fs)
   ∧ tables_of (final_state (fstat fd fs)) = tables_of fs
   ∧ (∀ count, tables_of (final_state (getdents fd count fs)) = tables_of fs)
   ∧ tables_of (final_state (isatty fd fs)) = tables_of fs
   ∧ (∀ cmd, tables_of (final_state (fcntl fd cmd fs)) = tables_of fs)
   ∧ (∀ request, tables_of (final_state (ioctl fd request fs)) = tables_of fs))
  ∧ (∀ s, streams_ fs !! fd = Some (Ptr s) →
       let forwarded (r : Result Z) (m : Method) :=
         r = Ok (stream_ret s m) (log (EvCall s m) fs) in
       (∀ count, forwarded (read fd count fs) (MRead count))
       ∧ (∀ count, forwarded (write fd count fs) (MWrite count))
       ∧ (∀ offset whence, forwarded (seek fd offset whence fs) (MSeek offset whence))
       ∧ forwarded (fstat fd fs) MFstat
       ∧ (∀ count, forwarded (getdents fd count fs) (MGetdents count))
       ∧ forwarded (isatty fd fs) MIsatty
       ∧ (∀ cmd, forwarded (fcntl fd cmd fs) (MFcntl cmd))
       ∧ (∀ request, forwarded (ioctl fd request fs) (MIoctl request))).
Proof.
  split.
  - repeat split; intros; apply delegate_frame; intros; done.
  - intros s Hs forwarded. unfold forwarded.
    repeat split; intros;
      unfold read, write, seek, fstat, getdents, isatty, fcntl, ioctl, GetStream;
      unfold_m; by rewrite Hs.
Qed.

(** X8. [dup2] returns in two ways only.  With a source that has no live
    stream it returns [EBADF] and changes nothing.  Otherwise it returns only
    in a build without assertions and only when the target slot already
    holds a non-null pointer; the slot then holds the duplicate the source
    produced, or the null stream when it produced none.  In particular a
    [dup2] onto a free or reserved descriptor never returns. *)
Theorem X8_dup2_returns_only_onto_occupied (fs fs' : FileSystem) (fd newfd r : Z) :
  dup2 fd newfd fs = Ok r fs' →
  (is_real (default NULL (streams_ fs !! fd)) = false ∧ r = EBADF ∧ fs' = fs)
  ∨ (NDEBUG = true
     ∧ ∃ s p,
         streams_ fs !! fd = Some (Ptr s)
         ∧ streams_ fs !! newfd = Some p
         ∧ p ≠ NULL
         ∧ streams_ fs' !! newfd = Some (from_option Ptr NULL (stream_dup s newfd))
         ∧ r = match stream_dup s newfd with Some _ => 0 | None => EACCES end
         ∧ ∀ k, k ≠ newfd → streams_ fs' !! k = streams_ fs !! k).
Proof.
  destruct (streams_ fs !! fd) as [[| |s]|] eqn:Hs;
    try (unfold dup2, GetStream; unfold_m; rewrite Hs; simpl;
         intros [= <- <-]; by left).
  destruct (streams_ fs !! newfd) as [p|] eqn:Hp.
  - destruct (decide (p = NULL)) as [->|Hnn].
    + by rewrite (dup2_null_target fs fd newfd s) by (by rewrite ?Hp).
    + rewrite (dup2_live_target fs fd newfd s p) by done.
      destruct NDEBUG; [|done]. intros Hrun. right. split; [done|].
      exists s, p. repeat split; try done;
        destruct (stream_dup s newfd); injection Hrun as <- <-; simpl;
        try apply lookup_insert_eq; try done;
        intros; by rewrite lookup_insert_ne.
  - by rewrite (dup2_null_target fs fd newfd s) by (by rewrite ?Hp).
Qed.

(** X9. The sentinel [kBadFileStream] is never stored: after the
    constructor and any sequence of calls, no slot of the table holds it. *)
Theorem X9_sentinel_never_stored (cs : list Call) :
  no_bad_sentinel (streams_ (final_state (perform_all cs initial_fs))).
Proof. apply perform_all_no_bad, construct_no_bad. Qed.

End frames.

Section call_sequences.
Context `{P : Platform} `{B : Backend}.

Lemma close_keeps_absent (fs : FileSystem) (fd k : Z) :
  streams_ fs !! k = None → streams_ (final_state (close fd fs)) !! k = None.
Proof.
  intros Hk. destruct (streams_ fs !! fd) as [p|] eqn:Hp.
  - rewrite (close_present fs fd p) by done. simpl.
    rewrite lookup_delete. case_decide; [done|]. by destruct p.
  - by rewrite close_absent.
Qed.

Lemma dup2_keeps_absent (fs : FileSystem) (fd newfd k : Z) :
  streams_ fs !! k = None → streams_ (final_state (dup2 fd newfd fs)) !! k = None.
Proof.
  intros Hk.
  destruct (streams_ fs !! fd) as [[| |s]|] eqn:Hs;
    try (unfold dup2, GetStream; unfold_m; by rewrite Hs).
  destruct (streams_ fs !! newfd) as [p|] eqn:Hp.
  - destruct (decide (p = NULL)) as [->|Hnn].
    + by rewrite (dup2_null_target fs fd newfd s) by (by rewrite ?Hp).
    + rewrite (dup2_live_target fs fd newfd s p) by done.
      assert (newfd ≠ k) by (intros ->; congruence).
      destruct NDEBUG; [|done].
      destruct (stream_dup s newfd); simpl; by rewrite lookup_insert_ne.
  - by rewrite (dup2_null_target fs fd newfd s) by (by rewrite ?Hp).
Qed.

Lemma connect_domain (fs : FileSystem) (fd addr port k : Z) :
  is_Some (streams_ (final_state (connect fd addr port fs)) !! k)
  ↔ is_Some (streams_ fs !! k).
Proof.
  destruct (streams_ fs !! fd) as [p|] eqn:Hp.
  - rewrite connect_known by (rewrite Hp; eauto).
    destruct (tcp_connect _ _ _); [|done].
    unfold AddFileStream, assert. unfold_m. simpl. rewrite Hp.
    destruct (is_null p || NDEBUG); simpl; [|done].
    rewrite lookup_insert. case_decide as Hk; [|done].
    subst k. rewrite Hp. split; eauto.
  - unfold connect. unfold_m.
    rewrite bool_decide_eq_false_2 by (rewrite Hp; by intros [? ?]). done.
Qed.

Lemma io_keeps_streams (fs : FileSystem) (c : Call) :
  match c with
  | Cread _ _ | Cwrite _ _ | Cseek _ _ _ | Cfstat _ | Cgetdents _ _ | Cisatty _
  | Cfcntl _ _ | Cioctl _ _ | Cgethostbyname _ => True
  | _ => False
  end →
  streams_ (final_state (perform c fs)) = streams_ fs.
Proof.
  destruct c; try done; intros _;
    unfold perform, void, read, write, seek, fstat, getdents, isatty, fcntl, ioctl,
      gethostbyname, GetStream, call; unfold_m;
    repeat (case_match; simplify_eq; simpl in * ); done.
Qed.

Lemma void_final_state {A} (m : M A) (fs : FileSystem) :
  final_state (void m fs) = final_state (m fs).
Proof. unfold void. unfold_m. by destruct (m fs). Qed.

(** A descriptor below the offset that is free stays free under any call. *)
Lemma perform_keeps_low_absent (c : Call) (fs : FileSystem) (k : Z) :
  k < kFileIDOffset →
  streams_ fs !! k = None →
  streams_ (final_state (perform c fs)) !! k = None.
Proof.
  intros Hlow Hk.
  destruct (GetFirstUnusedDescriptor_spec fs) as (fd0 & Hfd0 & Hge & _ & _).
  assert (k ≠ fd0) by lia.
  destruct c; try (by rewrite io_keeps_streams); simpl; rewrite void_final_state.
  - by rewrite (open_touches_one fs _ _ fd0).
  - by apply close_keeps_absent.
  - by rewrite (dup_touches_one fs _ fd0).
  - by apply dup2_keeps_absent.
  - by rewrite (socket_touches_one fs _ _ _ fd0).
  - apply eq_None_not_Some. rewrite connect_domain. by rewrite Hk; intros [? ?].
Qed.

(** X10. A descriptor below [kFileIDOffset] that is free is never bound
    again: after any sequence of calls it is still absent from the table.
    Once closed, descriptors 0, 1 and 2 cannot be brought back, not by
    [open], [dup] or [socket], which allocate from the offset on, and not by
    [dup2] or [connect], which never add a slot. *)
Theorem X10_low_descriptor_never_rebound (cs : list Call) (fs : FileSystem) (fd : Z) :
  fd < kFileIDOffset →
  streams_ fs !! fd = None →
  streams_ (final_state (perform_all cs fs)) !! fd = None.
Proof.
  intros Hlow. revert fs. induction cs as [|c cs IH]; intros fs Hfd; simpl; [done|].
  unfold_m. pose proof (perform_keeps_low_absent c fs fd Hlow Hfd) as Hstep.
  destruct (perform c fs) as [[] fs1|f fs1]; simpl in *; [by apply IH|done].
Qed.

Lemma perform_keeps_paths (c : Call) (fs : FileSystem) :
  paths_ (final_state (perform c fs)) = paths_ fs.
Proof.
  destruct c;
    unfold perform, void, open, close, read, write, seek, dup, dup2, fstat,
    getdents, isatty, fcntl, ioctl, gethostbyname, socket, connect,
    GetFirstUnusedDescriptor, IsKnowDescriptor, GetStream, AddFileStream,
    RemoveFileStream, call, call_dup, assert; unfold_m;
    repeat (case_match; simplify_eq; simpl in * ); done.
Qed.

(** X11. No call changes the path registry: after any sequence of calls the
    registered paths and their handlers are those before it, and [open] on a
    path that was not registered still answers [ENOENT] and changes
    nothing. *)
Theorem X11_path_registry_is_fixed (cs : list Call) (fs : FileSystem) :
  let fs' := final_state (perform_all cs fs) in
  paths_ fs' = paths_ fs
  ∧ ∀ path oflag,
      paths_ fs !! path = None →
      open path oflag fs' = Ok (ENOENT, None) fs'.
Proof.
  assert (Hpaths : ∀ fs0, paths_ (final_state (perform_all cs fs0)) = paths_ fs0).
  { induction cs as [|c cs IH]; intros fs0; simpl; [done|].
    unfold_m. pose proof (perform_keeps_paths c fs0) as Hstep.
    destruct (perform c fs0) as [[] fs1|f fs1]; simpl in *; [|done].
    by rewrite IH. }
  intros fs'. split; [apply Hpaths|].
  intros path oflag Hnone. unfold open. unfold_m.
  unfold fs'. by rewrite Hpaths, Hnone.
Qed.

End call_sequences.

Section stat_hosts_connect.
Context `{P : Platform} `{B : Backend} `{S : Pepper}.

(** X12. [stat] never changes the state and allocates no descriptor.  On a
    path without a handler it returns [ENOENT], as [open] does; on a path
    registered with a null handler it returns [EBADF], where [open] calls
    through the null pointer; otherwise it returns what the handler's [stat]
    returned. *)
Theorem X12_stat_is_a_query (fs : FileSystem) (path : string) :
  (∃ r, stat path fs = Ok r fs)
  ∧ (paths_ fs !! path = None →
     stat path fs = Ok ENOENT fs ∧ ∀ oflag, open path oflag fs = Ok (ENOENT, None) fs)
  ∧ (paths_ fs !! path = Some None →
     stat path fs = Ok EBADF fs
     ∧ ∀ oflag, ∃ fs', open path oflag fs = Crash NullDeref fs')
  ∧ (∀ h, paths_ fs !! path = Some (Some h) →
     stat path fs = Ok (handler_stat h path) fs).
Proof.
  destruct (paths_ fs !! path) as [[h|]|] eqn:Hpath.
  - assert (Hstat : stat path fs = Ok (handler_stat h path) fs)
      by (unfold stat; unfold_m; by rewrite Hpath).
    split; [by eexists|]. split; [done|]. split; [done|].
    by intros h' [= <-].
  - assert (Hstat : stat path fs = Ok EBADF fs)
      by (unfold stat; unfold_m; by rewrite Hpath).
    split; [by eexists|]. split; [done|]. split; [|done].
    intros _. split; [done|]. intros oflag. unfold open. unfold_m. rewrite Hpath.
    destruct (GetFirstUnusedDescriptor_spec fs) as (fd & -> & _ & Hnone & _).
    rewrite AddFileStream_free by auto. by eexists.
  - assert (Hstat : stat path fs = Ok ENOENT fs)
      by (unfold stat; unfold_m; by rewrite Hpath).
    split; [by eexists|]. split; [|done].
    intros _. split; [done|]. intros oflag. unfold open. unfold_m. by rewrite Hpath.
Qed.

(** The calls [connect] makes on a descriptor of the table. *)
Lemma connect_calls (fs : FileSystem) (fd addr port : Z) :
  is_Some (streams_ fs !! fd) →
  calls (final_state (connect fd addr port fs))
  = (calls fs
     ++ [EvNewTCPSocket fd (new_TCPSocket fd);
         EvCall (new_TCPSocket fd)
           (MConnect (match addrs_ fs !! addr with
                      | Some name => name
                      | None => inet_ntoa (wrap32 addr)
                      end) port)])
    ++ (if tcp_connect (new_TCPSocket fd)
             (match addrs_ fs !! addr with
              | Some name => name
              | None => inet_ntoa (wrap32 addr)
              end) port
        then [] else [EvCall (new_TCPSocket fd) MRelease]).
Proof.
  intros Hknown. rewrite connect_known by done.
  destruct (tcp_connect _ _ _); simpl.
  - unfold AddFileStream, assert. unfold_m. simpl.
    destruct (_ || NDEBUG); simpl; by rewrite app_nil_r, <- app_assoc.
  - by rewrite <- !app_assoc.
Qed.

(** X13. Resolving a name twice: the second [gethostbyname] returns the
    address of the first and changes nothing, in every state of the table. *)
Theorem X13_gethostbyname_twice (fs : FileSystem) (name : string) :
  ∃ a fs1,
    gethostbyname name fs = Ok a fs1
    ∧ gethostbyname name fs1 = Ok a fs1.
Proof.
  destruct (hosts_ fs !! name) as [a|] eqn:Hname.
  - exists a, fs. by rewrite (gethostbyname_hit fs name a).
  - eexists _, _. rewrite gethostbyname_miss by done. split; [done|].
    apply gethostbyname_hit. simpl. apply lookup_insert_eq.
Qed.

(** X14. What the host table is for: in a table whose two maps agree, the
    address [gethostbyname] returns for a name makes a following [connect] on
    a descriptor of the table ask the socket for that very name. *)
Theorem X14_resolved_name_reaches_socket (fs : FileSystem) (name : string) (fd port : Z) :
  host_table_ok fs →
  is_Some (streams_ fs !! fd) →
  ∃ a fs1,
    gethostbyname name fs = Ok a fs1
    ∧ EvCall (new_TCPSocket fd) (MConnect name port)
        ∈ calls (final_state (connect fd a port fs1)).
Proof.
  intros [_ Hback] Hknown.
  assert (Hconn : ∀ a fs1,
    streams_ fs1 = streams_ fs → addrs_ fs1 !! a = Some name →
    EvCall (new_TCPSocket fd) (MConnect name port)
      ∈ calls (final_state (connect fd a port fs1))).
  { intros a fs1 Hsame Ha.
    rewrite connect_calls by (by rewrite Hsame). rewrite Ha.
    apply elem_of_app. left. apply elem_of_app. right.
    apply list_elem_of_further, list_elem_of_here. }
  destruct (hosts_ fs !! name) as [a|] eqn:Hname.
  - exists a, fs. rewrite (gethostbyname_hit fs name a) by done.
    split; [done|]. apply Hconn; [done|by apply Hback].
  - eexists _, _. rewrite gethostbyname_miss by done. split; [done|].
    apply Hconn; [done|]. simpl. apply lookup_insert_eq.
Qed.

(** X15. After the constructor and any sequence of calls too short to take
    the address counter to the loopback address, the two maps of the host
    table agree, no two names share an address, and ["localhost"] still
    resolves to the loopback address. *)
Theorem X15_host_table_stays_consistent (cs : list Call) :
  0 ≤ kFirstAddr →
  kFirstAddr + Z.of_nat (length cs) ≤ 0x7F000001 →
  let fs := final_state (perform_all cs initial_fs) in
  host_table_ok fs
  ∧ (∀ n1 n2 a, hosts_ fs !! n1 = Some a → hosts_ fs !! n2 = Some a → n1 = n2)
  ∧ gethostbyname "localhost" fs = Ok (htonl 0x7F000001) fs.
Proof.
  intros Hk Hlen fs.
  assert (Hok : host_table_ok fs).
  { apply perform_all_host_table_ok; [done|apply construct_host_table_inv; lia|].
    unfold initial_fs. rewrite construct_spec. simpl. lia. }
  split; [done|]. destruct Hok as [Hseed Hback]. split.
  - intros n1 n2 a H1 H2. apply Hback in H1, H2. congruence.
  - by apply gethostbyname_hit.
Qed.

Lemma connect_touches_one (fs : FileSystem) (fd addr port k : Z) :
  k ≠ fd →
  streams_ (final_state (connect fd addr port fs)) !! k = streams_ fs !! k.
Proof.
  intros Hk. destruct (streams_ fs !! fd) as [p|] eqn:Hp.
  - rewrite connect_known by (rewrite Hp; eauto).
    destruct (tcp_connect _ _ _); [|done].
    unfold AddFileStream, assert. unfold_m. simpl. rewrite Hp.
    destruct (is_null p || NDEBUG); simpl; [|done]. by rewrite lookup_insert_ne.
  - unfold connect. unfold_m.
    rewrite bool_decide_eq_false_2 by (rewrite Hp; by intros [? ?]). done.
Qed.

(** X16. [connect] never adds a descriptor to the table and never removes
    one, and it changes no slot but that of its descriptor.  On a descriptor
    that is not in the table it returns -1 with [errno = EBADF] and
    constructs no socket. *)
Theorem X16_connect_keeps_descriptor_set (fs : FileSystem) (fd addr port : Z) :
  (∀ k, is_Some (streams_ (final_state (connect fd addr port fs)) !! k)
        ↔ is_Some (streams_ fs !! k))
  ∧ (∀ k, k ≠ fd →
          streams_ (final_state (connect fd addr port fs)) !! k = streams_ fs !! k)
  ∧ (streams_ fs !! fd = None →
     connect fd addr port fs = Ok (-1) (set_errno EBADF fs)).
Proof.
  split; [intros k; apply connect_domain|].
  split; [intros k; apply connect_touches_one|].
  intros Hp. unfold connect. unfold_m.
  rewrite bool_decide_eq_false_2 by (rewrite Hp; by intros [? ?]). done.
Qed.

(** X17. [connect] on a descriptor that already holds a live stream, with a
    socket that connects: a build with assertions stops at the [assert] of
    [AddFileStream], after the connection was made; a build without them
    returns 0 with the slot bound to the new socket.  In both, the stream the
    slot held is neither closed nor released. *)
Theorem X17_connect_over_live_stream (fs : FileSystem) (fd addr port : Z) (t : StreamId) :
  streams_ fs !! fd = Some (Ptr t) →
  let host := match addrs_ fs !! addr with
              | Some name => name
              | None => inet_ntoa (wrap32 addr)
              end in
  let sock := new_TCPSocket fd in
  let fs1 := log (EvCall sock (MConnect host port)) (log (EvNewTCPSocket fd sock) fs) in
  tcp_connect sock host port = true →
  connect fd addr port fs
  = (if NDEBUG then Ok 0 (set_streams <[fd := Ptr sock]> fs1)
     else Crash AssertFailed fs1)
  ∧ calls (final_state (connect fd addr port fs))
    = calls fs ++ [EvNewTCPSocket fd sock; EvCall sock (MConnect host port)].
Proof.
  intros Ht host sock fs1 Hconn. split.
  - rewrite connect_known by (rewrite Ht; eauto). fold host sock fs1. rewrite Hconn.
    unfold AddFileStream, assert. unfold_m. simpl. rewrite Ht. simpl.
    by destruct NDEBUG.
  - rewrite connect_calls by (rewrite Ht; eauto). fold host sock. rewrite Hconn.
    by rewrite app_nil_r.
Qed.

End stat_hosts_connect.

Section more_select.
Context `{P : Platform}.

Lemma count_bits_pos (n : nat) (i : Z) (s : fd_set) (j : Z) :
  i ≤ j < i + Z.of_nat n → Z.testbit s j = true → 1 ≤ count_bits n i s.
Proof.
  revert i. induction n as [|n IH]; intros i Hj Hbit; simpl; [lia|].
  pose proof (count_bits_nonneg n (i + 1) s).
  destruct (decide (j = i)) as [->|].
  - rewrite Hbit. lia.
  - assert (1 ≤ count_bits n (i + 1) s) by (apply IH; [lia|done]).
    destruct (Z.testbit s i); lia.
Qed.

(** A set whose descriptors are all bound: the probing pass answers 1 when
    one of them is ready and 0 otherwise; the applying pass counts. *)
Lemma IsReady_all_bound (nfds : Z) (fds : option fd_set) (is_ready : StreamId → bool)
    (fs : FileSystem) :
  all_bound nfds (streams_ fs) fds →
  (∃ a, IsReady nfds fds is_ready false fs = Ok (a, fds) fs
        ∧ (a = 0 ∨ a = 1)
        ∧ (some_ready nfds (streams_ fs) is_ready fds → a = 1))
  ∧ (∃ n fds', IsReady nfds fds is_ready true fs = Ok (n, fds') fs
               ∧ n = count_set nfds fds'
               ∧ 0 ≤ n
               ∧ ready_members nfds (streams_ fs) is_ready fds fds'
               ∧ (some_ready nfds (streams_ fs) is_ready fds → 1 ≤ n)).
Proof.
  intros Hall.
  assert (Hnb : ∀ j, member nfds fds j = true → streams_ fs !! j ≠ Some kBadFileStream).
  { intros j Hj. destruct (Hall j Hj) as (s & ->). done. }
  assert (Hnn : ∀ j, member nfds fds j = true → default NULL (streams_ fs !! j) ≠ NULL).
  { intros j Hj. destruct (Hall j Hj) as (s & ->). done. }
  split.
  - destruct (IsReady_total nfds fds is_ready false fs Hnb) as (a & fds' & Hrun).
    destruct (IsReady_probe _ _ _ _ _ _ _ Hrun)
      as [-> [[-> _]|[[-> (j & Hj & Hnull)]|[-> Hq]]]].
    + exists 1. auto.
    + by destruct (Hnn j Hj).
    + exists 0. split; [done|]. split; [auto|].
      intros (j & Hj & Hrdy). destruct (Hq j Hj) as (s & Hs & Hnr).
      unfold ready_at in Hrdy. rewrite Hs in Hrdy. congruence.
  - destruct (IsReady_total nfds fds is_ready true fs Hnb) as (n & fds' & Hrun).
    destruct (IsReady_apply _ _ _ _ _ _ _ Hrun)
      as [[-> (j & Hj & Hnull)]|(-> & Hmem & _)]; [by destruct (Hnn j Hj)|].
    exists (count_set nfds fds'), fds'. split; [done|]. split; [done|].
    split; [destruct fds'; simpl; [apply count_bits_nonneg|done]|].
    split; [done|].
    intros (j & Hj & Hrdy). destruct fds as [s|], fds' as [s'|]; try done.
    apply member_Some in Hj as [Hj Hbit]. destruct Hmem as [Hin _].
    simpl. apply (count_bits_pos _ _ _ j); [lia|].
    by rewrite Hin, Hbit, Hrdy.
Qed.

(** X18. When every descriptor [select] looks at is bound to a live stream
    and one of them is ready at the call, [select] does not wait: whatever
    the timeout and whatever would wake it, it returns the same count, at
    least 1, with the sets reduced to their ready descriptors, and leaves the
    state as it is. *)
Theorem X18_select_ready_returns_at_once (w : World) (nfds : Z)
    (readfds writefds exceptfds : option fd_set) (fs : FileSystem) :
  all_bound nfds (streams_ fs) readfds →
  all_bound nfds (streams_ fs) writefds →
  all_bound nfds (streams_ fs) exceptfds →
  some_ready nfds (streams_ fs) (is_read_ready w) readfds
    ∨ some_ready nfds (streams_ fs) (is_write_ready w) writefds
    ∨ some_ready nfds (streams_ fs) (is_exception w) exceptfds →
  ∃ n r' w' e',
    1 ≤ n
    ∧ n = count_set nfds r' + count_set nfds w' + count_set nfds e'
    ∧ ready_members nfds (streams_ fs) (is_read_ready w) readfds r'
    ∧ ready_members nfds (streams_ fs) (is_write_ready w) writefds w'
    ∧ ready_members nfds (streams_ fs) (is_exception w) exceptfds e'
    ∧ ∀ wakes timeout,
        select w wakes nfds readfds writefds exceptfds timeout fs
        = Ok (Returned n r' w' e') fs.
Proof.
  intros Hr Hw He Hready.
  destruct (IsReady_all_bound nfds readfds (is_read_ready w) fs Hr)
    as [(a & Ha & Ha01 & Ha1) (na & r' & Hna & Hca & Hna0 & Hma & Hna1)].
  destruct (IsReady_all_bound nfds writefds (is_write_ready w) fs Hw)
    as [(b & Hb & Hb01 & Hb1) (nb & w' & Hnb & Hcb & Hnb0 & Hmb & Hnb1)].
  destruct (IsReady_all_bound nfds exceptfds (is_exception w) fs He)
    as [(c & Hc & Hc01 & Hc1) (nc & e' & Hnc & Hcc & Hnc0 & Hmc & Hnc1)].
  exists (na + nb + nc), r', w', e'.
  split; [destruct Hready as [H|[H|H]]; [apply Hna1 in H|apply Hnb1 in H|apply Hnc1 in H]; lia|].
  split; [lia|]. split; [done|]. split; [done|]. split; [done|].
  intros wakes timeout. unfold select.
  rewrite select_wait_unfold, (any_ready_eq w nfds readfds writefds exceptfds fs a b c)
    by done.
  assert (Hany : negb (a =? 0) || negb (b =? 0) || negb (c =? 0) = true).
  { destruct Hready as [H|[H|H]];
      [apply Ha1 in H|apply Hb1 in H|apply Hc1 in H]; rewrite H; simpl;
      by rewrite ?orb_true_r. }
  rewrite Hany, (select_apply_eq w nfds readfds writefds exceptfds fs na nb nc r' w' e')
    by done.
  assert ((na <? 0) || (nb <? 0) || (nc <? 0) = false) as ->; [|done].
  rewrite !orb_false_iff, !Z.ltb_ge. lia.
Qed.

(** X19. [select] keeps waiting while nothing is ready: when no stream of
    a descriptor in the sets is ready at the call or after any of the
    wake-ups, and no timed wait reported an error, the caller is still
    suspended, with nothing logged and [errno] as the waits left it: that of
    the last wait that reported an error, the caller's own when none did.
    Without a timeout the outcome of the wait is not looked at, so [select]
    cannot time out, whatever the wait reports. *)
Theorem X19_select_waits_while_nothing_ready (w : World) (wakes : list Wake) (nfds : Z)
    (readfds writefds exceptfds : option fd_set) (timeout : option (Z * Z))
    (fs : FileSystem) :
  quiet_world nfds (streams_ fs) w readfds writefds exceptfds →
  Forall (λ wk, quiet_world nfds (wake_streams wk) (wake_world wk)
                  readfds writefds exceptfds
                ∧ (timeout = None ∨ wait_errno wk = None)) wakes →
  ∃ fs',
    select w wakes nfds readfds writefds exceptfds timeout fs = Ok Blocked fs'
    ∧ errno fs' = errno_after wakes (errno fs)
    ∧ calls fs' = calls fs.
Proof.
  intros Hq Hwakes. revert w fs Hq. unfold select.
  induction Hwakes as [|wk wakes [Hwk Hwait] _ IH]; intros w fs Hq.
  - exists fs. by rewrite select_wait_unfold, any_ready_quiet.
  - rewrite select_wait_unfold, any_ready_quiet by done. cbv zeta.
    unfold errno_after. simpl. fold (errno_after wakes).
    destruct (wait_errno wk) as [e|] eqn:Herrno.
    + destruct Hwait as [->|[=]].
      destruct (IH (wake_world wk) (set_errno e (set_streams (λ _, wake_streams wk) fs)) Hwk)
        as (fs' & Hrun & Herr & Hcalls).
      by exists fs'.
    + destruct (IH (wake_world wk) (set_streams (λ _, wake_streams wk) fs) Hwk)
        as (fs' & Hrun & Herr & Hcalls).
      exists fs'. split; [|done]. by destruct timeout.
Qed.

(** X20. A timed wait that fails with an [errno] other than [ETIMEDOUT],
    after wake-ups that found nothing ready: [select] returns -1 at once,
    with the three sets as the caller passed them and [errno] as the wait
    left it. *)
Theorem X20_select_wait_error (spurious : list Wake) (failed : Wake) (rest : list Wake)
    (nfds : Z) (readfds writefds exceptfds : option fd_set) (tv : Z * Z) (e : Z)
    (w : World) (fs : FileSystem) :
  quiet_world nfds (streams_ fs) w readfds writefds exceptfds →
  Forall (λ wk, wait_errno wk = None
                ∧ quiet_world nfds (wake_streams wk) (wake_world wk)
                    readfds writefds exceptfds) spurious →
  wait_errno failed = Some e →
  e ≠ ETIMEDOUT →
  select w (spurious ++ failed :: rest) nfds readfds writefds exceptfds (Some tv) fs
  = Ok (Returned (-1) readfds writefds exceptfds)
       (set_errno e (set_streams (λ _, wake_streams failed) fs)).
Proof.
  intros Hq Hsp Hfail Hne. revert w fs Hq. unfold select.
  induction Hsp as [|wk spurious [Hnone Hwk] _ IH]; intros w fs Hq.
  - rewrite select_wait_unfold, any_ready_quiet by done. simpl.
    rewrite Hfail. apply Z.eqb_neq in Hne. by rewrite Hne.
  - rewrite select_wait_unfold, any_ready_quiet by done.
    change ((wk :: spurious) ++ failed :: rest)
      with (wk :: (spurious ++ failed :: rest)).
    cbv beta iota zeta. rewrite Hnone.
    by rewrite (IH (wake_world wk) (set_streams (λ _, wake_streams wk) fs) Hwk),
      set_streams_twice.
Qed.

Lemma IsReady_loop_subset (is_ready : StreamId → bool) (apply : bool) (n : nat) (i : Z)
    (fds : fd_set) (nset : Z) (fs fs' : FileSystem) (r : Z) (fds' : fd_set) :
  IsReady_loop is_ready apply n i fds nset fs = Ok (r, fds') fs' →
  ∀ j, Z.testbit fds' j = true → Z.testbit fds j = true.
Proof.
  revert i fds nset. induction n as [|n IH]; intros i fds nset; simpl.
  - unfold_m. by intros [= _ <- _].
  - destruct (Z.testbit fds i); [|apply IH].
    unfold GetStream. unfold_m.
    destruct (default NULL (streams_ fs !! i)); [by intros [= _ <- _]|done|].
    destruct (is_ready s).
    + destruct apply; simpl; [apply IH|by intros [= _ <- _]].
    + intros Hrun j Hj. apply IH with (j := j) in Hrun; [|done].
      destruct apply; [|done].
      rewrite Z.clearbit_eqb in Hrun. by apply andb_true_iff in Hrun as [? _].
Qed.

Lemma IsReady_subset (nfds : Z) (fds fds' : option fd_set) (is_ready : StreamId → bool)
    (apply : bool) (fs fs' : FileSystem) (r : Z) :
  IsReady nfds fds is_ready apply fs = Ok (r, fds') fs' → subset_of fds' fds.
Proof.
  unfold IsReady. destruct fds as [s|]; unfold_m; [|by intros [= _ <- _]].
  destruct (IsReady_loop _ _ _ _ _ _ _) as [[r0 s0] fs0|] eqn:Hloop; [|done].
  intros [= _ <- _]. simpl. by eapply IsReady_loop_subset.
Qed.

Lemma subset_of_refl (fds : option fd_set) : subset_of fds fds.
Proof. destruct fds; simpl; auto. Qed.

Lemma select_apply_subset (w : World) (nfds : Z)
    (readfds writefds exceptfds : option fd_set) (fs fs' : FileSystem)
    (n : Z) (r' w' e' : option fd_set) :
  select_apply w nfds readfds writefds exceptfds fs = Ok (Returned n r' w' e') fs' →
  subset_of r' readfds ∧ subset_of w' writefds ∧ subset_of e' exceptfds.
Proof.
  unfold select_apply. unfold_m.
  destruct (IsReady nfds readfds _ _ fs) as [[a r1] fs1|] eqn:Ha; [|done].
  destruct (IsReady nfds writefds _ _ fs1) as [[b w1] fs2|] eqn:Hb; [|done].
  destruct (IsReady nfds exceptfds _ _ fs2) as [[c e1] fs3|] eqn:Hc; [|done].
  apply IsReady_subset in Ha, Hb, Hc.
  destruct (_ || _); simpl; by intros [= _ <- <- <- _].
Qed.

(** X21. [select] never adds a descriptor to a set: whatever it returns, a
    count or -1, every bit set in a set afterwards was set in it before, and
    a null set stays null. *)
Theorem X21_select_only_clears_bits (w : World) (wakes : list Wake) (nfds : Z)
    (readfds writefds exceptfds : option fd_set) (timeout : option (Z * Z))
    (fs fs' : FileSystem) (n : Z) (r' w' e' : option fd_set) :
  select w wakes nfds readfds writefds exceptfds timeout fs
  = Ok (Returned n r' w' e') fs' →
  subset_of r' readfds ∧ subset_of w' writefds ∧ subset_of e' exceptfds.
Proof.
  unfold select. revert w fs.
  induction wakes as [|wk wakes IH]; intros w fs;
    rewrite select_wait_unfold;
    destruct (any_ready w nfds readfds writefds exceptfds fs) as [[] fs0|];
    try done; try apply select_apply_subset.
  cbv zeta.
  destruct timeout as [tv|], (wait_errno wk) as [e|]; try apply IH.
  destruct (e =? ETIMEDOUT); [apply select_apply_subset|].
  intros [= _ <- <- <- _]. repeat split; apply subset_of_refl.
Qed.

Lemma IsReady_nothing (nfds : Z) (fds : option fd_set) (is_ready : StreamId → bool)
    (apply : bool) (fs : FileSystem) :
  nfds ≤ 0 → IsReady nfds fds is_ready apply fs = Ok (0, fds) fs.
Proof.
  intros Hn. unfold IsReady. destruct fds as [s|]; [|done].
  replace (Z.to_nat nfds) with O by lia. done.
Qed.

(** X22. [select] over no descriptors is a sleep: with [nfds] not above 0
    nothing in the sets is looked at, not even a descriptor that is absent
    from the table; the call waits, and when the timed wait ends with
    [ETIMEDOUT] it returns 0 with the sets as the caller passed them. *)
Theorem X22_select_without_descriptors_sleeps (spurious : list Wake) (last : Wake)
    (rest : list Wake) (nfds : Z) (readfds writefds exceptfds : option fd_set)
    (tv : Z * Z) (w : World) (fs : FileSystem) :
  nfds ≤ 0 →
  Forall (λ wk, wait_errno wk = None) spurious →
  wait_errno last = Some ETIMEDOUT →
  select w (spurious ++ last :: rest) nfds readfds writefds exceptfds (Some tv) fs
  = Ok (Returned 0 readfds writefds exceptfds)
       (set_errno ETIMEDOUT (set_streams (λ _, wake_streams last) fs)).
Proof.
  intros Hn Hsp Hto. unfold select.
  assert (Hany : ∀ w0 fs0,
    any_ready w0 nfds readfds writefds exceptfds fs0 = Ok false fs0).
  { intros. apply (any_ready_eq w0 nfds readfds writefds exceptfds fs0 0 0 0);
      by apply IsReady_nothing. }
  assert (Happ : ∀ w0 fs0,
    select_apply w0 nfds readfds writefds exceptfds fs0
    = Ok (Returned 0 readfds writefds exceptfds) fs0).
  { intros.
    rewrite (select_apply_eq w0 nfds readfds writefds exceptfds fs0 0 0 0
               readfds writefds exceptfds); by try apply IsReady_nothing. }
  revert w fs. induction Hsp as [|wk spurious Hnone _ IH]; intros w fs.
  - rewrite select_wait_unfold, Hany. simpl. by rewrite Hto, Z.eqb_refl, Happ.
  - rewrite select_wait_unfold, Hany.
    change ((wk :: spurious) ++ last :: rest) with (wk :: (spurious ++ last :: rest)).
    cbv beta iota zeta. by rewrite Hnone, IH, set_streams_twice.
Qed.

(** X23. A descriptor that [socket] returned and that is not connected yet
    makes [select] fail: with it in any of the sets, below [nfds], [select]
    returns -1 with [errno = EBADF] at once, as for a descriptor that is not
    in the table. *)
Theorem X23_select_on_unconnected_socket (fs : FileSystem) (a b c : Z) :
  no_bad_sentinel (streams_ fs) →
  ∃ fd fs1,
    socket a b c fs = Ok fd fs1
    ∧ ∀ w wakes nfds readfds writefds exceptfds timeout,
        member nfds readfds fd = true ∨ member nfds writefds fd = true
          ∨ member nfds exceptfds fd = true →
        ∃ r' w' e',
          select w wakes nfds readfds writefds exceptfds timeout fs1
          = Ok (Returned (-1) r' w' e') (set_errno EBADF fs1).
Proof.
  intros Hnb. destruct (socket_spec fs a b c) as (fd & Hsock & _ & _).
  exists fd, (set_streams <[fd := NULL]> fs). split; [done|].
  intros w wakes nfds readfds writefds exceptfds timeout Hmem.
  assert (Hnb1 : no_bad_sentinel (streams_ (set_streams <[fd := NULL]> fs)))
    by (by apply no_bad_insert).
  assert (Hnull : null_member nfds readfds writefds exceptfds
                    (streams_ (set_streams <[fd := NULL]> fs))).
  { exists fd. split; [done|]. simpl. by rewrite lookup_insert_eq. }
  unfold select. rewrite select_wait_unfold, any_ready_null_member by done.
  by apply select_apply_null_member.
Qed.

End more_select.

Section construction.
Context `{P : Platform} `{B : Backend}.

Lemma initial_fs_eq :
  initial_fs
  = mkFileSystem
      (<["/dev/random"%string :=
           Some (if irt_random_available then DevRandomHandler else JsFileHandler)]>
         (<["/dev/tty"%string := Some DevTtyHandler]>
            (<["/dev/null"%string := Some DevNullHandler]> ∅)))
      (<[2 := Ptr (new_JsFile 2)]>
         (<[1 := Ptr (new_JsFile 1)]> (<[0 := Ptr (new_JsFile 0)]> ∅)))
      (<["localhost"%string := htonl 0x7F000001]> ∅)
      (<[htonl 0x7F000001 := "localhost"%string]> ∅)
      kFirstAddr 0 [].
Proof. unfold initial_fs. by rewrite construct_spec. Qed.

Lemma initial_streams_lookup (fd : Z) :
  streams_ initial_fs !! fd
  = if decide (fd = 0) then Some (Ptr (new_JsFile 0))
    else if decide (fd = 1) then Some (Ptr (new_JsFile 1))
    else if decide (fd = 2) then Some (Ptr (new_JsFile 2))
    else None.
Proof.
  rewrite initial_fs_eq. cbn [streams_].
  rewrite !lookup_insert, lookup_empty. repeat case_decide; subst; done.
Qed.

Lemma initial_paths_lookup (path : string) :
  paths_ initial_fs !! path
  = if decide (path = "/dev/null"%string) then Some (Some DevNullHandler)
    else if decide (path = "/dev/tty"%string) then Some (Some DevTtyHandler)
    else if decide (path = "/dev/random"%string)
         then Some (Some (if irt_random_available then DevRandomHandler
                          else JsFileHandler))
    else None.
Proof.
  rewrite initial_fs_eq. cbn [paths_].
  rewrite !lookup_insert, lookup_empty. repeat case_decide; subst; done.
Qed.

(** X24. The constructor runs to its end in either build and leaves:
    descriptors 0, 1 and 2, and no other, bound to the three [JsFile]
    streams; handlers for ["/dev/null"], ["/dev/tty"] and ["/dev/random"],
    and no other path, the last one depending on whether the random
    interface is there; ["localhost"] and the loopback address mapped to
    each other and nothing else in the host table; the address counter at
    [kFirstAddr]. *)
Theorem X24_constructed_tables :
  construct empty_fs = Ok tt initial_fs
  ∧ streams_ initial_fs !! 0 = Some (Ptr (new_JsFile 0))
  ∧ streams_ initial_fs !! 1 = Some (Ptr (new_JsFile 1))
  ∧ streams_ initial_fs !! 2 = Some (Ptr (new_JsFile 2))
  ∧ (∀ fd, is_Some (streams_ initial_fs !! fd) ↔ fd = 0 ∨ fd = 1 ∨ fd = 2)
  ∧ paths_ initial_fs !! "/dev/null"%string = Some (Some DevNullHandler)
  ∧ paths_ initial_fs !! "/dev/tty"%string = Some (Some DevTtyHandler)
  ∧ paths_ initial_fs !! "/dev/random"%string
    = Some (Some (if irt_random_available then DevRandomHandler else JsFileHandler))
  ∧ (∀ path, is_Some (paths_ initial_fs !! path)
             ↔ path = "/dev/null"%string ∨ path = "/dev/tty"%string
               ∨ path = "/dev/random"%string)
  ∧ hosts_ initial_fs = {[ "localhost"%string := htonl 0x7F000001 ]}
  ∧ addrs_ initial_fs = {[ htonl 0x7F000001 := "localhost"%string ]}
  ∧ first_unused_addr_ initial_fs = kFirstAddr.
Proof.
  split; [unfold initial_fs; by rewrite construct_spec|].
  split; [by rewrite initial_streams_lookup|].
  split; [by rewrite initial_streams_lookup|].
  split; [by rewrite initial_streams_lookup|].
  split.
  { intros fd. rewrite initial_streams_lookup.
    repeat case_decide; subst; split; eauto; try lia. by intros [? ?]. }
  split; [by rewrite initial_paths_lookup|].
  split; [by rewrite initial_paths_lookup|].
  split; [by rewrite initial_paths_lookup|].
  split.
  { intros path. rewrite initial_paths_lookup.
    repeat case_decide; subst; split; eauto; try (by intros [? ?]).
    intros [|[|]]; congruence. }
  by rewrite initial_fs_eq.
Qed.

(** X25. The first file opened on a fresh table.  With the offset above 2
    and a ["/dev/null"] handler that opens, [open("/dev/null")] returns the
    descriptor [kFileIDOffset]; a [write] on it is a call on the stream the
    handler made and returns what the stream returns; [close] returns 0;
    after it a [write] fails with [EBADF] and the table is the constructed
    one again. *)
Theorem X25_first_open_write_close (oflag count : Z) (s : StreamId) :
  2 < kFileIDOffset →
  handler_open DevNullHandler kFileIDOffset "/dev/null" oflag = Some s →
  ∃ fs1 fs2 fs3,
    open "/dev/null" oflag initial_fs = Ok (0, Some kFileIDOffset) fs1
    ∧ write kFileIDOffset count fs1 = Ok (stream_ret s (MWrite count)) fs2
    ∧ calls fs2 = [EvHandlerOpen DevNullHandler kFileIDOffset "/dev/null" oflag;
                   EvCall s (MWrite count)]
    ∧ close kFileIDOffset fs2 = Ok 0 fs3
    ∧ write kFileIDOffset count fs3 = Ok EBADF fs3
    ∧ streams_ fs3 = streams_ initial_fs.
Proof.
  intros Hoff Hopen.
  assert (Hfree : streams_ initial_fs !! kFileIDOffset = None).
  { rewrite initial_streams_lookup. repeat case_decide; try lia. done. }
  assert (Hfd : GetFirstUnusedDescriptor initial_fs = Ok kFileIDOffset initial_fs).
  { apply GetFirstUnusedDescriptor_unique; [lia|done|intros; lia]. }
  eexists _, _, _.
  rewrite (open_registered initial_fs "/dev/null" oflag DevNullHandler kFileIDOffset)
    by (try done; by rewrite initial_paths_lookup).
  rewrite Hopen. split; [done|].
  rewrite (write_real _ kFileIDOffset s) by (simpl; apply lookup_insert_eq).
  split; [done|]. split; [simpl; by rewrite initial_fs_eq|].
  rewrite (close_present _ kFileIDOffset (Ptr s)) by (simpl; apply lookup_insert_eq).
  split; [done|]. split.
  - apply write_not_real. simpl. by rewrite lookup_delete_eq.
  - simpl. by rewrite delete_insert_id.
Qed.

End construction.

Section bridge.
Context `{P : Platform} `{B : Backend} `{S : Pepper}.

Lemma mkdir_unfold (pathname : string) (mode : Z) (wakes : list Bridged)
    (st : Storage) :
  mkdir pathname mode wakes st
  = if fs_initialized_ st then
      match ppfs_ st with
      | None => Done (MkdirReturned (-1)) st
      | Some _ => mkdir_wait_result wakes PP_OK_COMPLETIONPENDING st
      end
    else
      match wakes with
      | [] => Done MkdirBlocked st
      | wk :: wakes' =>
          match wk with
          | RanOnOpen r pfs =>
              match OnOpen r pfs st with
              | Done _ st' => mkdir pathname mode wakes' st'
              | Failed f st' => Failed f st'
              end
          | _ => mkdir pathname mode wakes' st
          end
      end.
Proof. by destruct wakes. Qed.

Lemma mkdir_wait_result_unfold (wakes : list Bridged) (result : Z) (st : Storage) :
  mkdir_wait_result wakes result st
  = if result =? PP_OK_COMPLETIONPENDING then
      match wakes with
      | [] => Done MkdirBlocked st
      | wk :: wakes' =>
          match wk with
          | Broadcast => mkdir_wait_result wakes' result st
          | RanOnOpen r pfs =>
              match OnOpen r pfs st with
              | Done _ st' => mkdir_wait_result wakes' result st'
              | Failed f st' => Failed f st'
              end
          | RanMakeDirectory ret =>
              mkdir_wait_result wakes' (MakeDirectory ret result) st
          | RanOnMakeDirectory r =>
              mkdir_wait_result wakes' (OnMakeDirectory r result) st
          end
      end
    else Done (MkdirReturned (if result =? PP_OK then 0 else -1)) st.
Proof. by destruct wakes. Qed.

(** X26. [OnOpen] ends the wait for the storage whatever the result: the
    flag is set.  With [PP_OK] and no handler yet for ["/.ssh/known_hosts"],
    the file system is kept and the path gets the Pepper handler, so that
    [stat] on it is answered by that handler where it was [ENOENT] before;
    with any other result the file system stays null and the registry is
    untouched.  The descriptor table is the same in both cases. *)
Theorem X26_OnOpen_publishes_storage (result : Z) (pfs : positive) (st : Storage) :
  paths_ (tables st) !! "/.ssh/known_hosts"%string = None →
  ∃ st',
    OnOpen result pfs st = Done tt st'
    ∧ fs_initialized_ st' = true
    ∧ streams_ (tables st') = streams_ (tables st)
    ∧ stat "/.ssh/known_hosts" (tables st) = Ok ENOENT (tables st)
    ∧ (result = PP_OK →
       ppfs_ st' = Some pfs
       ∧ paths_ (tables st')
         = <["/.ssh/known_hosts"%string := Some (new_PepperFileHandler pfs)]>
             (paths_ (tables st))
       ∧ stat "/.ssh/known_hosts" (tables st')
         = Ok (handler_stat (new_PepperFileHandler pfs) "/.ssh/known_hosts") (tables st'))
    ∧ (result ≠ PP_OK →
       ppfs_ st' = ppfs_ st ∧ tables st' = tables st).
Proof.
  intros Hfree.
  assert (Hstat : stat "/.ssh/known_hosts" (tables st) = Ok ENOENT (tables st))
    by (unfold stat; unfold_m; by rewrite Hfree).
  unfold OnOpen. destruct (Z.eqb_spec result PP_OK) as [->|Hne].
  - rewrite AddPathHandler_absent by done. eexists. split; [done|].
    split; [done|]. split; [done|]. split; [done|]. split; [|done].
    intros _. split; [done|]. split; [done|].
    unfold stat. unfold_m. simpl. by rewrite lookup_insert_eq.
  - eexists. split; [done|]. split; [done|]. split; [done|]. split; [done|].
    split; [done|]. done.
Qed.

(** X27. [mkdir] and the state of the storage.  While the opening of the
    storage has not ended, [mkdir] waits, whatever else wakes it.  Once it
    has ended without a file system ([ppfs_] null), [mkdir] returns -1 at
    once, posts nothing and changes nothing.  This is the case after
    [OnOpen] brought a result other than [PP_OK], and on a table whose
    constructor got any answer but "pending" from the storage's [Open]. *)
Theorem X27_mkdir_waits_for_storage (pathname : string) (mode : Z) (st : Storage) :
  (fs_initialized_ st = false →
   ∀ wakes, Forall (λ wk, ∀ r pfs, wk ≠ RanOnOpen r pfs) wakes →
            mkdir pathname mode wakes st = Done MkdirBlocked st)
  ∧ (fs_initialized_ st = true → ppfs_ st = None →
     ∀ wakes, mkdir pathname mode wakes st = Done (MkdirReturned (-1)) st)
  ∧ (fs_initialized_ st = false → ppfs_ st = None →
     paths_ (tables st) !! "/.ssh/known_hosts"%string = None →
     ∀ result pfs wakes,
       result ≠ PP_OK →
       mkdir pathname mode (RanOnOpen result pfs :: wakes) st
       = Done (MkdirReturned (-1)) (mkStorage (tables st) None true))
  ∧ (∀ open_result wakes,
       open_result ≠ PP_OK_COMPLETIONPENDING →
       mkdir pathname mode wakes (construct_storage open_result)
       = Done (MkdirReturned (-1)) (construct_storage open_result)).
Proof.
  split; [|split; [|split]].
  - intros Hinit wakes Hwakes.
    induction Hwakes as [|wk wakes Hwk _ IH]; rewrite mkdir_unfold, Hinit; [done|].
    destruct wk; try done. by destruct (Hwk result pfs).
  - intros Hinit Hnull wakes. by rewrite mkdir_unfold, Hinit, Hnull.
  - intros Hinit Hnull Hfree result pfs wakes Hne.
    rewrite mkdir_unfold, Hinit. unfold OnOpen.
    apply Z.eqb_neq in Hne. rewrite Hne, Hnull.
    by rewrite mkdir_unfold.
  - intros open_result wakes Hne. rewrite mkdir_unfold. simpl.
    apply Z.eqb_neq in Hne. by rewrite Hne.
Qed.

Lemma mkdir_wait_result_broadcasts (n : nat) (wakes : list Bridged) (st : Storage) :
  mkdir_wait_result (replicate n Broadcast ++ wakes) PP_OK_COMPLETIONPENDING st
  = mkdir_wait_result wakes PP_OK_COMPLETIONPENDING st.
Proof.
  induction n as [|n IH]; [done|].
  rewrite mkdir_wait_result_unfold, Z.eqb_refl. simpl. apply IH.
Qed.

Lemma mkdir_wait_result_done (wakes : list Bridged) (v : Z) (st : Storage) :
  v ≠ PP_OK_COMPLETIONPENDING →
  mkdir_wait_result wakes v st
  = Done (MkdirReturned (if v =? PP_OK then 0 else -1)) st.
Proof.
  intros Hv. rewrite mkdir_wait_result_unfold. apply Z.eqb_neq in Hv. by rewrite Hv.
Qed.

(** X28. [mkdir] with the storage open.  It returns as soon as a result that
    is not "pending" is in its slot, 0 when the result is [PP_OK] and -1
    otherwise: a result that [MakeDirectoryIncludingAncestors] returned at
    once, or, when that call answered "pending", the result that
    [OnMakeDirectory] delivers later.  Wake-ups in between change nothing,
    and with no result the caller stays suspended: the wait has no
    timeout. *)
Theorem X28_mkdir_returns_the_delivered_result (pathname : string) (mode : Z)
    (st : Storage) (pfs : positive)
    (n m : nat) (v : Z) (rest : list Bridged) :
  fs_initialized_ st = true →
  ppfs_ st = Some pfs →
  v ≠ PP_OK_COMPLETIONPENDING →
  mkdir pathname mode (replicate n Broadcast ++ RanMakeDirectory v :: rest) st
  = Done (MkdirReturned (if v =? PP_OK then 0 else -1)) st
  ∧ mkdir pathname mode (replicate n Broadcast ++ RanMakeDirectory PP_OK_COMPLETIONPENDING
             :: replicate m Broadcast ++ RanOnMakeDirectory v :: rest) st
    = Done (MkdirReturned (if v =? PP_OK then 0 else -1)) st
  ∧ mkdir pathname mode (replicate n Broadcast) st = Done MkdirBlocked st
  ∧ mkdir pathname mode (replicate n Broadcast ++ RanMakeDirectory PP_OK_COMPLETIONPENDING
             :: replicate m Broadcast) st
    = Done MkdirBlocked st.
Proof.
  intros Hinit Hfs Hv.
  assert (Hpend : MakeDirectory PP_OK_COMPLETIONPENDING PP_OK_COMPLETIONPENDING
                  = PP_OK_COMPLETIONPENDING).
  { unfold MakeDirectory. by rewrite Z.eqb_refl. }
  assert (Hsync : MakeDirectory v PP_OK_COMPLETIONPENDING = v).
  { unfold MakeDirectory. apply Z.eqb_neq in Hv. by rewrite Hv. }
  assert (Hblocked : ∀ k, mkdir_wait_result (replicate k Broadcast)
                            PP_OK_COMPLETIONPENDING st = Done MkdirBlocked st).
  { intros k. rewrite <- (app_nil_r (replicate k Broadcast)).
    rewrite mkdir_wait_result_broadcasts.
    by rewrite mkdir_wait_result_unfold, Z.eqb_refl. }
  repeat split; rewrite mkdir_unfold, Hinit, Hfs.
  - rewrite mkdir_wait_result_broadcasts, mkdir_wait_result_unfold, Z.eqb_refl.
    rewrite Hsync. by apply mkdir_wait_result_done.
  - rewrite mkdir_wait_result_broadcasts, mkdir_wait_result_unfold, Z.eqb_refl.
    rewrite Hpend, mkdir_wait_result_broadcasts.
    rewrite mkdir_wait_result_unfold, Z.eqb_refl.
    unfold OnMakeDirectory. by apply mkdir_wait_result_done.
  - apply Hblocked.
  - rewrite mkdir_wait_result_broadcasts, mkdir_wait_result_unfold, Z.eqb_refl.
    rewrite Hpend. apply Hblocked.
Qed.

End bridge.

Section destruction.

#[local] Instance fd_le_total : Total fd_le.
Proof. intros x y. apply Z.le_total. Qed.

Lemma release_handlers_all (l : list (string * option HandlerId)) :
  (∀ kv, kv ∈ l → kv.2 ≠ None) →
  ∃ hs, release_handlers l = (RelHandler <$> hs, None) ∧ Some <$> hs = l.*2.
Proof.
  induction l as [|[path [h|]] l IH]; intros Hall.
  - by exists [].
  - destruct IH as (hs & Hrun & Hhs).
    { intros kv Hkv. apply Hall. by apply list_elem_of_further. }
    exists (h :: hs). split; [simpl; by rewrite Hrun|].
    rewrite !fmap_cons. by rewrite Hhs.
  - by destruct (Hall (path, None)); [apply list_elem_of_here|].
Qed.

Lemma release_streams_all (l : list (Z * FileStreamPtr)) :
  (∀ kv, kv ∈ l → is_real kv.2 = true) →
  ∃ ss, release_streams l = (RelStream <$> ss, None) ∧ Ptr <$> ss = l.*2.
Proof.
  induction l as [|[fd [| |s]] l IH]; intros Hall.
  - by exists [].
  - by specialize (Hall (fd, NULL) (list_elem_of_here _ _)).
  - by specialize (Hall (fd, kBadFileStream) (list_elem_of_here _ _)).
  - destruct IH as (ss & Hrun & Hss).
    { intros kv Hkv. apply Hall. by apply list_elem_of_further. }
    exists (s :: ss). split; [simpl; by rewrite Hrun|].
    rewrite !fmap_cons. by rewrite Hss.
Qed.

Lemma release_streams_null (l : list (Z * FileStreamPtr)) (fd : Z) :
  (fd, NULL) ∈ l →
  (∀ kv, kv ∈ l → kv.2 ≠ kBadFileStream) →
  (release_streams l).2 = Some NullDeref.
Proof.
  induction l as [|[k [| |s]] l IH]; intros Hin Hnb.
  - by apply elem_of_nil in Hin.
  - done.
  - by destruct (Hnb (k, kBadFileStream)); [apply list_elem_of_here|].
  - simpl. destruct (release_streams l) as [released fault] eqn:Hrun. simpl.
    apply IH.
    + apply elem_of_cons in Hin as [[=]|Hin]. done.
    + intros kv Hkv. apply Hnb. by apply list_elem_of_further.
Qed.

Lemma elem_of_paths_in_order (fs : FileSystem) (kv : string * option HandlerId) :
  kv ∈ paths_in_order fs ↔ paths_ fs !! kv.1 = Some kv.2.
Proof.
  unfold paths_in_order. rewrite merge_sort_Permutation.
  destruct kv. apply elem_of_map_to_list.
Qed.

Lemma elem_of_streams_in_order (fs : FileSystem) (kv : Z * FileStreamPtr) :
  kv ∈ streams_in_order fs ↔ streams_ fs !! kv.1 = Some kv.2.
Proof.
  unfold streams_in_order. rewrite merge_sort_Permutation.
  destruct kv. apply elem_of_map_to_list.
Qed.

(** X29. The destructor on a table where every slot holds a live stream and
    no handler is null runs to its end: it releases every handler of the
    registry once, then the stream of every slot once, the slots in
    ascending order of their descriptors, and then deletes the file system
    if there is one.  It calls [close] on no stream. *)
Theorem X29_destructor_releases_everything (st : Storage) :
  (∀ path, paths_ (tables st) !! path ≠ Some None) →
  (∀ fd p, streams_ (tables st) !! fd = Some p → is_real p = true) →
  ∃ hs slots,
    destructor st
    = ((RelHandler <$> hs)
       ++ omap (λ kv, match kv.2 with Ptr s => Some (RelStream s) | _ => None end) slots
       ++ match ppfs_ st with Some pfs => [DelFileSystem pfs] | None => [] end,
       None)
    ∧ Some <$> hs ≡ₚ (map_to_list (paths_ (tables st))).*2
    ∧ slots ≡ₚ map_to_list (streams_ (tables st))
    ∧ Sorted fd_le slots.
Proof.
  intros Hh Hs.
  destruct (release_handlers_all (paths_in_order (tables st))) as (hs & Hrh & Hhs).
  { intros [path h] Hin. apply elem_of_paths_in_order in Hin. simpl in *.
    intros ->. by destruct (Hh path). }
  destruct (release_streams_all (streams_in_order (tables st))) as (ss & Hrs & Hss).
  { intros [fd p] Hin. apply elem_of_streams_in_order in Hin. by apply (Hs fd). }
  exists hs, (streams_in_order (tables st)).
  unfold destructor. rewrite Hrh, Hrs. split; [|split; [|split]].
  - do 2 f_equal. f_equal.
    clear Hrs. revert ss Hss.
    induction (streams_in_order (tables st)) as [|[fd p] l IH]; intros ss Hss.
    + by destruct ss.
    + destruct ss as [|s ss]; [done|]. injection Hss as <- Hss.
      simpl. f_equal. by apply IH.
  - rewrite Hhs. unfold paths_in_order. by rewrite merge_sort_Permutation.
  - unfold streams_in_order. apply merge_sort_Permutation.
  - unfold streams_in_order. apply Sorted_merge_sort, _.
Qed.

(** X30. The destructor on a table with a reserved slot, as [socket] leaves
    one behind until [connect] succeeds: with no null handler and no
    sentinel in the table, the loop over the streams calls [release] through
    the null pointer of that slot. *)
Theorem X30_destructor_stops_at_reserved_slot (st : Storage) (fd : Z) :
  (∀ path, paths_ (tables st) !! path ≠ Some None) →
  no_bad_sentinel (streams_ (tables st)) →
  streams_ (tables st) !! fd = Some NULL →
  (destructor st).2 = Some NullDeref.
Proof.
  intros Hh Hnb Hfd.
  destruct (release_handlers_all (paths_in_order (tables st))) as (hs & Hrh & _).
  { intros [path h] Hin. apply elem_of_paths_in_order in Hin. simpl in *.
    intros ->. by destruct (Hh path). }
  pose proof (release_streams_null (streams_in_order (tables st)) fd) as Hnull.
  unfold destructor. rewrite Hrh.
  destruct (release_streams _) as [released fault]. simpl in Hnull.
  rewrite Hnull; [done| |].
  - by apply elem_of_streams_in_order.
  - intros [k p] Hin. apply elem_of_streams_in_order in Hin. simpl in *.
    intros ->. by destruct (Hnb k).
Qed.

End destruction.

(** * The further properties at concrete states *)

Lemma sample_paths_not_null (path : string) : paths_ sample_fs !! path ≠ Some None.
Proof.
  unfold sample_fs.
  rewrite (initial_paths_lookup (P := sample_platform false) (B := sample_backend true)).
  repeat case_decide; done.
Qed.

Lemma sample_streams_real (fd : Z) (p : FileStreamPtr) :
  streams_ sample_fs !! fd = Some p → is_real p = true.
Proof.
  unfold sample_fs.
  rewrite (initial_streams_lookup (P := sample_platform false) (B := sample_backend true)).
  repeat case_decide; by intros [= <-].
Qed.

Lemma sample_all_bound : all_bound 3 (streams_ sample_fs) (Some 7).
Proof.
  intros j Hj.
  assert (Hcases : j = 0 ∨ j = 1 ∨ j = 2) by (unfold member in Hj; lia).
  destruct Hcases as [Hc|[Hc|Hc]]; subst j; eexists; vm_compute; reflexivity.
Qed.

Lemma all_bound_null (nfds : Z) (streams : gmap Z FileStreamPtr) :
  all_bound nfds streams None.
Proof. intros j Hj. done. Qed.

Lemma X1_close_bound_descriptor_witness :
  ∃ fs',
    close (P := sample_platform false) (B := sample_backend true) 100 sample_devnull_fs
    = Ok 0 fs'
    ∧ streams_ fs' !! 100 = None.
Proof.
  destruct (X1_close_bound_descriptor (P := sample_platform false)
              (B := sample_backend true) sample_devnull_fs 100 1100%positive)
    as (fs' & Hrun & _ & Hgone & _).
  - vm_compute. reflexivity.
  - exists fs'. split; assumption.
Defined.

Lemma X2_open_close_round_trip_witness :
  ∃ fs2,
    close (P := sample_platform false) (B := sample_backend true) 100 sample_devnull_fs
    = Ok 0 fs2
    ∧ streams_ fs2 = streams_ sample_fs.
Proof.
  destruct (X2_open_close_round_trip (P := sample_platform false)
              (B := sample_backend true) sample_fs sample_devnull_fs "/dev/null" 1 100)
    as (fs2 & Hrun & Hsame & _).
  - vm_compute. reflexivity.
  - exists fs2. split; assumption.
Defined.

Lemma X3_closed_descriptor_reused_witness :
  ∃ fs1,
    close (P := sample_platform false) (B := sample_backend true) 100 sample_devnull_fs
    = Ok 0 fs1
    ∧ GetFirstUnusedDescriptor (P := sample_platform false) fs1 = Ok 100 fs1.
Proof.
  destruct (X3_closed_descriptor_reused (P := sample_platform false)
              (B := sample_backend true) sample_devnull_fs 100 101)
    as (fs1 & Hrun & Hnext).
  - eexists. vm_compute. reflexivity.
  - simpl. lia.
  - vm_compute. reflexivity.
  - exists fs1. split; assumption.
Defined.

Lemma X4_successive_allocations_increase_witness :
  ∃ fd1 fs1 fd2 fs2,
    socket (P := sample_platform false) 2 1 0 sample_fs = Ok fd1 fs1
    ∧ socket (P := sample_platform false) 2 1 0 fs1 = Ok fd2 fs2
    ∧ fd1 < fd2.
Proof.
  destruct (X4_successive_allocations_increase (P := sample_platform false)
              sample_fs 2 1 0 2 1 0)
    as (fd1 & fs1 & fd2 & fs2 & H1 & H2 & Hlt & _).
  exists fd1, fs1, fd2, fs2. split; [assumption|]. split; [assumption|lia].
Defined.

Lemma X5_dup_refused_leaves_table_witness :
  ∃ fs',
    dup (P := sample_platform false) (B := refusing_backend) 0 sample_fs
    = Ok (13, Some 100) fs'
    ∧ streams_ fs' = streams_ sample_fs.
Proof.
  destruct (X5_dup_refused_leaves_table (P := sample_platform false)
              (B := refusing_backend) sample_fs 0 100 10%positive)
    as (fs' & Hrun & Hsame & _).
  - vm_compute. reflexivity.
  - vm_compute. reflexivity.
  - reflexivity.
  - exists fs'. split; assumption.
Defined.

Lemma X6_allocation_keeps_descriptors_witness :
  streams_ (final_state (open (P := sample_platform false) (B := sample_backend true)
                           "/dev/null" 1 sample_fs)) !! 0
  = Some (Ptr 10%positive).
Proof.
  destruct (X6_allocation_keeps_descriptors (P := sample_platform false)
              (B := sample_backend true) sample_fs 0 (Ptr 10%positive)) as [Hopen _].
  - vm_compute. reflexivity.
  - apply Hopen.
Defined.

Lemma X7_io_calls_forward_and_keep_tables_witness :
  read (P := sample_platform false) (B := sample_backend true) 0 5 sample_fs
  = Ok 0 (log (EvCall 10%positive (MRead 5)) sample_fs).
Proof.
  destruct (X7_io_calls_forward_and_keep_tables (P := sample_platform false)
              (B := sample_backend true) sample_fs 0) as [_ Hfwd].
  destruct (Hfwd 10%positive) as [Hread _].
  - vm_compute. reflexivity.
  - apply Hread.
Defined.

Lemma X8_dup2_returns_only_onto_occupied_witness :
  ∃ s p,
    streams_ sample_devnull_fs !! 100 = Some (Ptr s)
    ∧ streams_ sample_devnull_fs !! 0 = Some p
    ∧ p ≠ NULL.
Proof.
  destruct (X8_dup2_returns_only_onto_occupied (P := sample_platform true)
              (B := sample_backend true) sample_devnull_fs
              (final_state (dup2 (P := sample_platform true) (B := sample_backend true)
                              100 0 sample_devnull_fs))
              100 0 0)
    as [(Hreal & _)|(_ & s & p & Hs & Hp & Hnn & _)].
  - vm_compute. reflexivity.
  - vm_compute in Hreal. discriminate Hreal.
  - exists s, p. split; [assumption|]. split; assumption.
Defined.

Lemma X10_low_descriptor_never_rebound_witness :
  streams_ (final_state
              (perform_all (P := sample_platform false) (B := sample_backend true)
                 [Copen "/dev/null" 1; Cdup 1; Csocket 2 1 0] sample_closed_fs)) !! 0
  = None.
Proof.
  apply (X10_low_descriptor_never_rebound (P := sample_platform false)
           (B := sample_backend true)).
  - simpl. lia.
  - vm_compute. reflexivity.
Defined.

Lemma X11_path_registry_is_fixed_witness :
  let fs' := final_state
               (perform_all (P := sample_platform false) (B := sample_backend true)
                  [Copen "/dev/null" 1; Cclose 0] sample_fs) in
  open (P := sample_platform false) (B := sample_backend true) "/etc/passwd" 0 fs'
  = Ok (2, None) fs'.
Proof.
  intros fs'.
  destruct (X11_path_registry_is_fixed (P := sample_platform false)
              (B := sample_backend true) [Copen "/dev/null" 1; Cclose 0] sample_fs)
    as [_ Hopen].
  apply Hopen. vm_compute. reflexivity.
Defined.

Lemma X12_stat_is_a_query_witness :
  stat (P := sample_platform false) (S := sample_pepper) "/etc/passwd" sample_fs
  = Ok 2 sample_fs
  ∧ stat (P := sample_platform false) (S := sample_pepper) "/dev/null" sample_fs
    = Ok 0 sample_fs.
Proof.
  split.
  - destruct (X12_stat_is_a_query (P := sample_platform false) (B := sample_backend true)
                (S := sample_pepper) sample_fs "/etc/passwd") as (_ & Hmiss & _).
    destruct Hmiss as [Hstat _]; [vm_compute; reflexivity|]. exact Hstat.
  - destruct (X12_stat_is_a_query (P := sample_platform false) (B := sample_backend true)
                (S := sample_pepper) sample_fs "/dev/null") as (_ & _ & _ & Hreg).
    apply (Hreg 1%positive). vm_compute. reflexivity.
Defined.

Lemma X14_resolved_name_reaches_socket_witness :
  ∃ a fs1,
    gethostbyname "example.org" sample_fs = Ok a fs1
    ∧ EvCall (new_TCPSocket (Backend := sample_backend true) 0) (MConnect "example.org" 22)
        ∈ calls (final_state (connect (P := sample_platform false)
                                (B := sample_backend true) 0 a 22 fs1)).
Proof.
  apply (X14_resolved_name_reaches_socket (P := sample_platform false)
           (B := sample_backend true) sample_fs "example.org" 0 22).
  - apply sample_fs_host_table_ok.
  - eexists. vm_compute. reflexivity.
Defined.

Lemma X15_host_table_stays_consistent_witness :
  host_table_ok
    (final_state (perform_all (P := sample_platform false) (B := sample_backend true)
                    [Cgethostbyname "example.org"; Cgethostbyname "example.net"]
                    sample_fs)).
Proof.
  destruct (X15_host_table_stays_consistent (P := sample_platform false)
              (B := sample_backend true)
              [Cgethostbyname "example.org"; Cgethostbyname "example.net"])
    as [Hok _].
  - simpl. lia.
  - simpl. lia.
  - exact Hok.
Defined.

Lemma X16_connect_keeps_descriptor_set_witness :
  connect (P := sample_platform false) (B := sample_backend true) 7 16777343 22 sample_fs
  = Ok (-1) (set_errno 9 sample_fs).
Proof.
  destruct (X16_connect_keeps_descriptor_set (P := sample_platform false)
              (B := sample_backend true) sample_fs 7 16777343 22) as (_ & _ & Habs).
  apply Habs. vm_compute. reflexivity.
Defined.

Lemma X17_connect_over_live_stream_witness :
  calls (final_state (connect (P := sample_platform false) (B := sample_backend true)
                        0 16777343 22 sample_fs))
  = [EvNewTCPSocket 0 3000%positive;
     EvCall 3000%positive (MConnect "localhost" 22)].
Proof.
  destruct (X17_connect_over_live_stream (P := sample_platform false)
              (B := sample_backend true) sample_fs 0 16777343 22 10%positive)
    as [_ Hcalls].
  - vm_compute. reflexivity.
  - reflexivity.
  - exact Hcalls.
Defined.

Lemma X18_select_ready_returns_at_once_witness :
  ∃ n r' w' e',
    1 ≤ n
    ∧ ∀ wakes timeout,
        select (P := sample_platform false) sample_world wakes 3 (Some 7) None None
          timeout sample_fs
        = Ok (Returned n r' w' e') sample_fs.
Proof.
  destruct (X18_select_ready_returns_at_once (P := sample_platform false)
              sample_world 3 (Some 7) None None sample_fs)
    as (n & r' & w' & e' & Hn & _ & _ & _ & _ & Hrun).
  - apply sample_all_bound.
  - apply all_bound_null.
  - apply all_bound_null.
  - left. exists 0. split; vm_compute; reflexivity.
  - exists n, r', w', e'. split; assumption.
Defined.

Lemma X19_select_waits_while_nothing_ready_witness :
  ∃ fs',
    select (P := sample_platform false) idle_world [sample_timeout] 3 (Some 7) None None
      None sample_fs
    = Ok Blocked fs'
    ∧ errno fs' = 116
    ∧ calls fs' = calls sample_fs.
Proof.
  destruct (X19_select_waits_while_nothing_ready (P := sample_platform false)
              idle_world [sample_timeout] 3 (Some 7) None None None sample_fs)
    as (fs' & Hrun & Herr & Hcalls).
  - apply sample_quiet.
  - constructor; [|constructor]. split; [apply sample_quiet|by left].
  - exists fs'. split; [exact Hrun|]. split; [exact Herr|exact Hcalls].
Defined.

Lemma X20_select_wait_error_witness :
  select (P := sample_platform false) idle_world [sample_interrupt] 3 (Some 7) None None
    (Some (1, 0)) sample_fs
  = Ok (Returned (-1) (Some 7) None None)
       (set_errno 4 (set_streams (λ _, wake_streams sample_interrupt) sample_fs)).
Proof.
  apply (X20_select_wait_error (P := sample_platform false) [] sample_interrupt []
           3 (Some 7) None None (1, 0) 4 idle_world sample_fs).
  - apply sample_quiet.
  - constructor.
  - reflexivity.
  - vm_compute. discriminate.
Defined.

Lemma X21_select_only_clears_bits_witness :
  subset_of (Some 1) (Some 7).
Proof.
  destruct (X21_select_only_clears_bits (P := sample_platform false) sample_world [] 3
              (Some 7) (Some 0) None None sample_fs sample_fs 1 (Some 1) (Some 0) None)
    as [Hr _].
  - vm_compute. reflexivity.
  - exact Hr.
Defined.

Lemma X22_select_without_descriptors_sleeps_witness :
  select (P := sample_platform false) idle_world [sample_timeout] 0 (Some 32) None None
    (Some (0, 50000)) sample_fs
  = Ok (Returned 0 (Some 32) None None)
       (set_errno 116 (set_streams (λ _, wake_streams sample_timeout) sample_fs)).
Proof.
  apply (X22_select_without_descriptors_sleeps (P := sample_platform false)
           [] sample_timeout [] 0 (Some 32) None None (0, 50000) idle_world sample_fs).
  - lia.
  - constructor.
  - reflexivity.
Defined.

Lemma X23_select_on_unconnected_socket_witness :
  ∃ fd fs1,
    socket (P := sample_platform false) 2 1 0 sample_fs = Ok fd fs1
    ∧ (member 101 (Some (2 ^ 100)) fd = true →
       ∃ r' w' e',
         select (P := sample_platform false) sample_world [] 101 (Some (2 ^ 100))
           None None None fs1
         = Ok (Returned (-1) r' w' e') (set_errno 9 fs1)).
Proof.
  destruct (X23_select_on_unconnected_socket (P := sample_platform false)
              sample_fs 2 1 0 sample_fs_no_bad) as (fd & fs1 & Hsock & Hsel).
  exists fd, fs1. split; [assumption|].
  intros Hmem. apply Hsel. left. exact Hmem.
Defined.

Lemma X25_first_open_write_close_witness :
  ∃ fs1 fs2 fs3,
    open (P := sample_platform false) (B := sample_backend true) "/dev/null" 1 sample_fs
    = Ok (0, Some 100) fs1
    ∧ write (P := sample_platform false) (B := sample_backend true) 100 3 fs1 = Ok 0 fs2
    ∧ close (P := sample_platform false) (B := sample_backend true) 100 fs2 = Ok 0 fs3
    ∧ write (P := sample_platform false) (B := sample_backend true) 100 3 fs3 = Ok 9 fs3.
Proof.
  destruct (X25_first_open_write_close (P := sample_platform false)
              (B := sample_backend true) 1 3 1100%positive)
    as (fs1 & fs2 & fs3 & Hopen & Hwrite & _ & Hclose & Hbad & _).
  - simpl. lia.
  - reflexivity.
  - exists fs1, fs2, fs3. split; [exact Hopen|]. split; [exact Hwrite|].
    split; [exact Hclose|exact Hbad].
Defined.

Lemma X26_OnOpen_publishes_storage_witness :
  ∃ st',
    OnOpen (P := sample_platform false) (S := sample_pepper) 0 1%positive
      sample_pending_storage
    = Done tt st'
    ∧ fs_initialized_ st' = true
    ∧ ppfs_ st' = Some 1%positive.
Proof.
  destruct (X26_OnOpen_publishes_storage (P := sample_platform false)
              (S := sample_pepper) 0 1%positive sample_pending_storage)
    as (st' & Hrun & Hinit & _ & _ & Hok & _).
  - vm_compute. reflexivity.
  - exists st'. split; [exact Hrun|]. split; [exact Hinit|].
    destruct Hok as [Hfs _]; [reflexivity|exact Hfs].
Defined.

Lemma X27_mkdir_waits_for_storage_witness :
  mkdir (P := sample_platform false) (S := sample_pepper) "/.ssh" 448
    [Broadcast; Broadcast] sample_pending_storage
  = Done MkdirBlocked sample_pending_storage
  ∧ mkdir (P := sample_platform false) (S := sample_pepper) "/.ssh" 448
      [RanOnOpen (-2) 1%positive] sample_pending_storage
    = Done (MkdirReturned (-1)) (mkStorage sample_fs None true).
Proof.
  destruct (X27_mkdir_waits_for_storage (P := sample_platform false)
              (B := sample_backend true) (S := sample_pepper) "/.ssh" 448
              sample_pending_storage) as (Hwait & _ & Hfail & _).
  split.
  - apply Hwait; [reflexivity|]. repeat constructor; intros; discriminate.
  - apply (Hfail eq_refl eq_refl); [vm_compute; reflexivity|]. vm_compute. discriminate.
Defined.

Lemma X28_mkdir_returns_the_delivered_result_witness :
  mkdir (P := sample_platform false) (S := sample_pepper) "/.ssh" 448
    [Broadcast; RanMakeDirectory (-1); Broadcast; RanOnMakeDirectory 0] sample_storage
  = Done (MkdirReturned 0) sample_storage.
Proof.
  destruct (X28_mkdir_returns_the_delivered_result (P := sample_platform false)
              (S := sample_pepper) "/.ssh" 448 sample_storage 1%positive 1 1 0 [])
    as (_ & Hasync & _).
  - reflexivity.
  - reflexivity.
  - vm_compute. discriminate.
  - exact Hasync.
Defined.

Lemma X29_destructor_releases_everything_witness :
  ∃ hs slots,
    (destructor sample_storage).2 = None
    ∧ slots ≡ₚ map_to_list (streams_ sample_fs)
    ∧ Some <$> hs ≡ₚ (map_to_list (paths_ sample_fs)).*2.
Proof.
  destruct (X29_destructor_releases_everything sample_storage)
    as (hs & slots & Hrun & Hhs & Hslots & _).
  - apply sample_paths_not_null.
  - apply sample_streams_real.
  - exists hs, slots. split; [by rewrite Hrun|]. split; assumption.
Defined.

Lemma X30_destructor_stops_at_reserved_slot_witness :
  (destructor (mkStorage sample_socket_fs None true)).2 = Some NullDeref.
Proof.
  apply (X30_destructor_stops_at_reserved_slot (mkStorage sample_socket_fs None true) 100).
  - apply sample_paths_not_null.
  - apply (perform_no_bad (P := sample_platform false) (B := sample_backend true)
             (Csocket 2 1 0) sample_fs sample_fs_no_bad).
  - vm_compute. reflexivity.
Defined.
